(** * SpiderWeb framework: the processing pipeline, embedded in Rocq

    A shallow embedding of the TypeScript services of the pipeline

      - [EmailInterpretationService]   (services/email-interpretation.ts)
      - [ErrorHandlingService]         (services/error-handling.ts)
      - [PublishingExecutionService]   (services/publishing-execution.ts)
      - [FrontendConnectionService]    (services/frontend-connection.ts)
      - [FrameworkController]          (controllers/framework-controller.ts)

    followed by the properties of the pipeline stated in the specification
    and by further properties that the code shows.

    JavaScript strings are modelled as [string] (sequences of 8-bit
    characters; case folding is the ASCII one), numbers that count or
    measure time as [Z] or [nat], arrays as [list], [Map]s with string keys
    as [gmap string _], and values of type [any] as the JSON-like [JsVal].
    Everything the host supplies at run time (the system clock, the network,
    the random generator, the URL parser) is gathered in [Env]; the
    functions thread a [World] that counts how often each was consulted and
    that records the observable effects in call order. *)

From Stdlib Require Import ZArith Ascii DecimalString DecimalZ.
From stdpp Require Import base option list strings gmap.

Local Open Scope string_scope.
Local Open Scope list_scope.
Local Open Scope Z_scope.

(** ** JavaScript built-ins used by the services *)

Module Js.

(** [String.prototype.toLowerCase], on the ASCII letters. *)
Definition lowerAscii (c : ascii) : ascii :=
  let n := nat_of_ascii c in
  if ((65 <=? n)%nat && (n <=? 90)%nat)%bool then ascii_of_nat (n + 32) else c.

Fixpoint toLowerCase (s : string) : string :=
  match s with
  | EmptyString => EmptyString
  | String c r => String (lowerAscii c) (toLowerCase r)
  end.

(** [String.prototype.toUpperCase], on the ASCII letters. *)
Definition upperAscii (c : ascii) : ascii :=
  let n := nat_of_ascii c in
  if ((97 <=? n)%nat && (n <=? 122)%nat)%bool then ascii_of_nat (n - 32) else c.

Fixpoint toUpperCase (s : string) : string :=
  match s with
  | EmptyString => EmptyString
  | String c r => String (upperAscii c) (toUpperCase r)
  end.

(** [s.startsWith(p)] *)
Definition startsWith (p s : string) : bool := String.prefix p s.

(** [s.includes(needle)]: [needle] occurs in [s] as a contiguous run. *)
Fixpoint includes (needle s : string) : bool :=
  if String.prefix needle s then true
  else match s with
       | EmptyString => false
       | String _ r => includes needle r
       end.

(** [s.substring(0, n)] *)
Definition substring0 (n : nat) (s : string) : string := String.substring 0 n s.

(** [s.replace(/\/$/, '')]: drop one trailing slash. *)
Fixpoint stripTrailingSlash (s : string) : string :=
  match s with
  | EmptyString => EmptyString
  | String c EmptyString => if Ascii.eqb c "/" then EmptyString else s
  | String c r => String c (stripTrailingSlash r)
  end.

(** Decimal rendering of an integer, as [Number.prototype.toString] and
    template literals do for integral numbers. *)
Definition numToString (z : Z) : string := NilZero.string_of_int (Z.to_int z).

(** [arr.includes(x)] on an array of strings. *)
Definition arrIncludes (x : string) (l : list string) : bool :=
  existsb (String.eqb x) l.

(** [arr.slice(start)] for an integral [start]: a negative [start] counts
    from the end, and both directions are clamped to the array. *)
Definition sliceFrom {A} (start : Z) (l : list A) : list A :=
  if start <? 0
  then drop (Z.to_nat (Z.max (Z.of_nat (length l) + start) 0)) l
  else drop (Z.to_nat start) l.

(** Values of type [any]. *)
#[warnings="-register-all"]
Inductive JsVal : Type :=
| JUndefined
| JNull
| JBool (b : bool)
| JNum (z : Z)
| JStr (s : string)
| JArr (l : list JsVal)
| JObj (fields : list (string * JsVal)).

(** Property read on an association list of fields (the last write to a
    key is kept at the key's first position, so the first hit is it). *)
Fixpoint assocGet {A} (k : string) (o : list (string * A)) : option A :=
  match o with
  | [] => None
  | (k', v) :: r => if String.eqb k k' then Some v else assocGet k r
  end.

(** [o[k] = v] on an object: overwrite in place, or append a new key. *)
Fixpoint assocSet {A} (k : string) (v : A) (o : list (string * A)) : list (string * A) :=
  match o with
  | [] => [(k, v)]
  | (k', v') :: r => if String.eqb k k' then (k, v) :: r else (k', v') :: assocSet k v r
  end.

(** [delete o[k]] *)
Definition assocDelete {A} (k : string) (o : list (string * A)) : list (string * A) :=
  List.filter (fun kv => negb (String.eqb k (fst kv))) o.

(** [v?.k]: [undefined] on [undefined], [null] and on anything without
    that own field. *)
Definition optGet (v : JsVal) (k : string) : JsVal :=
  match v with
  | JObj fields => default JUndefined (assocGet k fields)
  | _ => JUndefined
  end.

(** Truthiness of a value. *)
Definition truthy (v : JsVal) : bool :=
  match v with
  | JUndefined | JNull => false
  | JBool b => b
  | JNum z => negb (z =? 0)
  | JStr s => negb (String.eqb s "")
  | JArr _ | JObj _ => true
  end.

(** [String(v)], as a template literal renders a value. *)
Fixpoint toStr (v : JsVal) : string :=
  match v with
  | JUndefined => "undefined"
  | JNull => "null"
  | JBool b => if b then "true" else "false"
  | JNum z => numToString z
  | JStr s => s
  | JArr l =>
      (* Array.prototype.join: null and undefined elements render empty *)
      (fix join (l : list JsVal) : string :=
         match l with
         | [] => ""
         | x :: r =>
             let shown := match x with
                          | JUndefined | JNull => ""
                          | _ => toStr x
                          end in
             match r with
             | [] => shown
             | _ :: _ => shown +:+ "," +:+ join r
             end
         end) l
  | JObj _ => "[object Object]"
  end.

(** An optional string field of an object: [None] is [undefined]. *)
Definition truthyStr (o : option string) : bool :=
  match o with
  | Some s => negb (String.eqb s "")
  | None => false
  end.

(** An optional string inside a template literal. *)
Definition show (o : option string) : string := default "undefined" o.

(** *** Exceptions *)

Inductive Result (A : Type) : Type :=
| Ok (a : A)
| Throw (message : string).
Arguments Ok {A} a.
Arguments Throw {A} message.

End Js.
Import Js.

(** ** EmailInterpretationService *)

Module EmailInterpretation.

(** Modelled from the spec: the interface [EmailData], whose declaration
    in [types.ts] is missing (subject, body, list of base64 attachment
    blobs, sender, timestamp). *)
Record EmailData := {
  subject : string;
  body : string;
  attachments : list string;
  sender : string;
  timestamp : string
}.

(** The classification part of [ProcessedContent]. The [content] and
    [media] fields, which [extractContent] and [processAttachments]
    produce, play no part in the classification and are not carried here. *)
Record Classified := {
  type : string;
  intent : string;
  target_frontends : list string
}.

Definition classifyContentType (email : EmailData) : string :=
  let text := toLowerCase (subject email +:+ " " +:+ body email) in
  if includes "blog" text || includes "article" text || includes "post" text
  then "article"
  else if includes "product" text || includes "item" text || includes "listing" text
  then "product"
  else if includes "update" text || includes "changes" text || includes "modified" text
  then "update"
  else if includes "announcement" text || includes "news" text || includes "important" text
  then "announcement"
  else "other".

Definition determineIntent (body : string) : string :=
  let text := toLowerCase body in
  if includes "publish now" text || includes "immediate" text || includes "asap" text
  then "immediate"
  else if includes "schedule" text || includes "later" text || includes "specific time" text
  then "scheduled"
  else if includes "draft" text || includes "save" text || includes "review first" text
  then "draft"
  else "immediate".

Definition extractTargetFrontends (body : string) : list string :=
  let text := toLowerCase body in
  let frontends : list string := [] in
  let frontends :=
    if includes "main site" text || includes "website" text || includes "homepage" text
    then frontends ++ ["main_site"] else frontends in
  let frontends :=
    if includes "developer portal" text || includes "dev portal" text || includes "api docs" text
    then frontends ++ ["developer_portal"] else frontends in
  let frontends :=
    if includes "blog" text || includes "news site" text
    then frontends ++ ["blog"] else frontends in
  let frontends :=
    if includes "admin panel" text || includes "dashboard" text
    then frontends ++ ["admin_panel"] else frontends in
  if (0 <? length frontends)%nat then frontends else ["all"].

(** [interpretEmail], its classification steps. *)
Definition interpretEmail (email : EmailData) : Classified :=
  let contentType := classifyContentType email in
  let intent := determineIntent (body email) in
  let targetFrontends := extractTargetFrontends (body email) in
  {| type := contentType; intent := intent; target_frontends := targetFrontends |}.

End EmailInterpretation.

(** ** The host: clock, network, console *)

Module Host.

(** The part of a [Response] that the services read. *)
Record Response := {
  ok : bool;
  status : Z;
  statusText : string;
  text : string
}.

(** What [fetch] comes back with: a response, or a rejected promise. *)
Inductive FetchOutcome : Type :=
| Responded (response : Response)
| Rejected (message : string).

(** The arguments of one [fetch] call; [body] is the value handed to
    [JSON.stringify] ([None] for a request without body). *)
Record FetchCall := {
  url : string;
  method : string;
  headers : list (string * string);
  body : option JsVal;
  timeout : option Z
}.

(** Observable effects, in the order in which the code performs them. *)
Inductive Event : Type :=
| Sleep (ms : Z)                                  (* setTimeout(resolve, ms) awaited *)
| Fetch (call : FetchCall)                        (* fetch(url, init) *)
| ConsoleLog (message : string)                   (* console.log *)
| ConsoleError (message : string) (arg : option JsVal) (* console.error *)
| SetLastUsed (connection : string) (iso : string). (* connection.last_used = ... *)

(** The host as the program finds it. Each oracle is indexed by the number
    of earlier consultations, so every run of a sequential program against
    every possible host is covered. *)
Record Env := {
  clock : nat -> Z;               (* the k-th reading of the system clock, in ms *)
  toISOString : Z -> string;      (* Date.prototype.toISOString *)
  network : nat -> FetchOutcome;  (* the outcome of the k-th fetch *)
  random36 : nat -> string;       (* Math.random().toString(36).substr(2, 9) *)
  urlParses : string -> bool      (* new URL(s) does not throw *)
}.

Record World := {
  clockReads : nat;
  fetches : nat;
  randoms : nat;
  trace : list Event
}.

Definition initialWorld : World :=
  {| clockReads := 0; fetches := 0; randoms := 0; trace := [] |}.

(** Computations of a service with fields [Sv]: they read and write the
    fields and the world, and return or throw. *)
Definition M (Sv A : Type) : Type := Sv * World -> Result A * (Sv * World).

Definition ret {Sv A} (a : A) : M Sv A := fun sw => (Ok a, sw).

Definition bind {Sv A B} (m : M Sv A) (k : A -> M Sv B) : M Sv B :=
  fun sw =>
    match m sw with
    | (Ok a, sw') => k a sw'
    | (Throw msg, sw') => (Throw msg, sw')
    end.

Definition throw {Sv A} (message : string) : M Sv A := fun sw => (Throw message, sw).

(** [try { m } catch (error) { handler(error.message) }] *)
Definition tryCatch {Sv A} (m : M Sv A) (handler : string -> M Sv A) : M Sv A :=
  fun sw =>
    match m sw with
    | (Ok a, sw') => (Ok a, sw')
    | (Throw msg, sw') => handler msg sw'
    end.

Definition getFields {Sv} : M Sv Sv := fun sw => (Ok (fst sw), sw).

Definition setFields {Sv} (s : Sv) : M Sv unit := fun sw => (Ok tt, (s, snd sw)).

(** The world once [ev] has happened. *)
Definition recorded (ev : Event) (w : World) : World :=
  {| clockReads := clockReads w; fetches := fetches w;
     randoms := randoms w; trace := trace w ++ [ev] |}.

Definition emit {Sv} (ev : Event) : M Sv unit :=
  fun sw => (Ok tt, (fst sw, recorded ev (snd sw))).

(** [Date.now()] *)
Definition dateNow {Sv} (E : Env) : M Sv Z :=
  fun sw =>
    let w := snd sw in
    (Ok (clock E (clockReads w)),
     (fst sw, {| clockReads := S (clockReads w); fetches := fetches w;
                 randoms := randoms w; trace := trace w |})).

(** [new Date().toISOString()] *)
Definition isoNow {Sv} (E : Env) : M Sv string :=
  bind (dateNow E) (fun t => ret (toISOString E t)).

(** [Math.random().toString(36).substr(2, 9)] *)
Definition randomSuffix {Sv} (E : Env) : M Sv string :=
  fun sw =>
    let w := snd sw in
    (Ok (random36 E (randoms w)),
     (fst sw, {| clockReads := clockReads w; fetches := fetches w;
                 randoms := S (randoms w); trace := trace w |})).

(** [await new Promise(resolve => setTimeout(resolve, ms))] *)
Definition sleep {Sv} (ms : Z) : M Sv unit := emit (Sleep ms).

(** [await fetch(url, init)]: the call is recorded, the host answers; a
    rejected promise is a thrown error. *)
Definition fetch {Sv} (E : Env) (call : FetchCall) : M Sv Response :=
  fun sw =>
    let w := snd sw in
    let sw' := (fst sw, {| clockReads := clockReads w; fetches := S (fetches w);
                           randoms := randoms w; trace := trace w ++ [Fetch call] |}) in
    match network E (fetches w) with
    | Responded response => (Ok response, sw')
    | Rejected msg => (Throw msg, sw')
    end.

Definition consoleLog {Sv} (message : string) : M Sv unit := emit (ConsoleLog message).

Definition consoleError {Sv} (message : string) (arg : option JsVal) : M Sv unit :=
  emit (ConsoleError message arg).

End Host.
Import Host.

Notation "x <- m ;; k" := (Host.bind m (fun x => k))
  (at level 20, m at level 99, k at level 200, format "'[v' x  <-  m  ;;  '/' k ']'").
Notation "m ;;; k" := (Host.bind m (fun _ => k))
  (at level 100, k at level 200, right associativity, format "'[v' m  ;;;  '/' k ']'").

(** ** The shared types ([types.ts])

    The file [types.ts] that declares them is not among the sources; the
    records below follow section 3 of the specification and the object
    literals that the services build. *)

Module Severity.
(** Modelled from the spec: the union type of [SystemError.severity], whose
    declaration in [types.ts] is missing ("severity ∈ {low, medium, high,
    critical}"). *)
Inductive t : Type := low | medium | high | critical.

(** The string literal behind each member of the union. *)
Definition toString (s : t) : string :=
  match s with
  | low => "low" | medium => "medium" | high => "high" | critical => "critical"
  end.
End Severity.

Module Priority.
(** Modelled from the spec: the union type of [FrameworkAction.priority],
    whose declaration in [types.ts] is missing ("priority ∈ {high, medium,
    low}"). *)
Inductive t : Type := high | medium | low.

Definition toString (p : t) : string :=
  match p with high => "high" | medium => "medium" | low => "low" end.
End Priority.

Module ActionType.
(** Modelled from the spec: the union type of [FrameworkAction.type], whose
    declaration in [types.ts] is missing ("type ∈ {connect, transform,
    publish, notify, error}"). *)
Inductive t : Type := connect | transform | publish | notify | error.
End ActionType.

Module SystemError.
(** Modelled from the spec: the interface [SystemError], whose declaration
    in [types.ts] is missing (timestamp, message, severity, owning component,
    [resolved] flag). *)
Record t := {
  timestamp : string;
  error : string;
  severity : Severity.t;
  component : string;
  resolved : bool
}.

(** The object as a value of type [any] (when it is put among the
    parameters of an action or printed). *)
Definition toJs (e : t) : JsVal :=
  JObj [("timestamp", JStr (timestamp e));
        ("error", JStr (error e));
        ("severity", JStr (Severity.toString (severity e)));
        ("component", JStr (component e));
        ("resolved", JBool (resolved e))].

(** [error.resolved = true] *)
Definition markResolved (e : t) : t :=
  {| timestamp := timestamp e; error := error e; severity := severity e;
     component := component e; resolved := true |}.
End SystemError.

Module FrameworkAction.
(** Modelled from the spec: the interface [FrameworkAction], whose
    declaration in [types.ts] is missing (type, target, parameters,
    priority, dependencies, id). *)
Record t := {
  type : ActionType.t;
  target : string;
  parameters : list (string * JsVal);
  priority : Priority.t;
  dependencies : list string;
  id : string
}.
End FrameworkAction.

Module FrontendConnection.
(** Modelled from the spec: the interface [FrontendConnection], whose
    declaration in [types.ts] is missing (name, base URL, auth kind,
    credential, schema source, [is_active], [last_used]). A field that the
    caller may have left out reads [undefined] ([None]). *)
Record t := {
  name : option string;
  api_endpoint : option string;
  auth_type : option string;
  credentials : option string;
  api_schema : option string;
  is_active : bool;
  last_used : option string
}.
End FrontendConnection.

Module ApiEndpoint.
(** Modelled from the spec: the interface [ApiEndpoint], whose declaration
    in [types.ts] is missing (path, method, parameter list, optional
    request-body schema, response schemas by status code). *)
Record t := {
  path : string;
  method : string;
  description : string;
  parameters : list JsVal;
  request_body : JsVal;
  responses : list (string * JsVal)
}.
End ApiEndpoint.

Module FrontendSchema.
(** Modelled from the spec: the interface [FrontendSchema], whose
    declaration in [types.ts] is missing (name, version, endpoints, content
    types). *)
Record t := {
  name : string;
  version : string;
  endpoints : list ApiEndpoint.t;
  content_types : list JsVal
}.
End FrontendSchema.

Module APIRequest.
(** Modelled from the spec: the interface [APIRequest], whose declaration
    in [types.ts] is missing (method, full URL, header map, body, auth
    descriptor). *)
Record t := {
  method : string;
  url : string;
  headers : list (string * string);
  body : JsVal;
  auth : option string * option string   (* { type, credentials } *)
}.
End APIRequest.

Module ProcessedContent.
(** Modelled from the spec: the interface [ProcessedContent], whose
    declaration in [types.ts] is missing (type, intent, target frontends,
    content fields, media). [type] and [intent] are the strings that the
    code compares them with. *)
Record t := {
  type : string;
  intent : string;
  target_frontends : list string;
  content : JsVal;
  media : list JsVal
}.
End ProcessedContent.

Module ProcessingResult.
(** Modelled from the spec: the interface [ProcessingResult], whose
    declaration in [types.ts] is missing (success flag, content published,
    requests issued, errors, elapsed time). *)
Record t := {
  success : bool;
  processed_content : ProcessedContent.t;
  api_requests : list APIRequest.t;
  errors : list SystemError.t;
  execution_time : Z
}.
End ProcessingResult.

Module MediaFile.
(** Modelled from the spec: the interface [MediaFile], whose declaration in
    [types.ts] is missing (filename, content-type, data, optional
    alt-text/caption/size/dimensions); the fields are those of the literal
    that [processSingleAttachment] builds. *)
Record t := {
  filename : string;
  content_type : string;
  data : string;
  alt_text : string;               (* metadata.alt_text *)
  caption : string;                (* metadata.caption *)
  size : Z;                        (* metadata.size *)
  dimensions : option (Z * Z)      (* metadata.dimensions: { width, height } *)
}.
End MediaFile.

(** ** EmailInterpretationService: attachments *)

Module EmailAttachments.

Record Fields := { errors : list SystemError.t }.

Definition construct : Fields := {| errors := [] |}.

Definition detectContentType (base64Data : string) : string :=
  let header := toLowerCase (substring0 32 base64Data) in
  if includes "png" header then "image/png"
  else if includes "jpg" header || includes "jpeg" header then "image/jpeg"
  else if includes "gif" header then "image/gif"
  else if includes "pdf" header then "application/pdf"
  else if includes "text" header then "text/plain"
  else "application/octet-stream".

(** The table of [getFileExtension]. It is a plain object, so that a
    content type naming a member of [Object.prototype] would read that
    member instead of the fallback; the only caller passes what
    [detectContentType] returns, which is always a key of the table. *)
Definition extensions : list (string * string) :=
  [("image/png", "png"); ("image/jpeg", "jpg"); ("image/gif", "gif");
   ("application/pdf", "pdf"); ("text/plain", "txt"); ("application/octet-stream", "bin")].

Definition getFileExtension (contentType : string) : string :=
  default "bin" (assocGet contentType extensions).

(** [Math.round(n * 0.75)] for a length [n]: the nearest integer to three
    quarters of [n], halves upwards. *)
Definition threeQuarters (n : nat) : Z := (3 * Z.of_nat n + 2) / 4.

Definition processSingleAttachment (attachment : string) (index : nat) : MediaFile.t :=
  let contentType := detectContentType attachment in
  let filename := "attachment_" +:+ numToString (Z.of_nat index + 1) +:+ "."
                  +:+ getFileExtension contentType in
  {| MediaFile.filename := filename;
     MediaFile.content_type := contentType;
     MediaFile.data := attachment;
     MediaFile.alt_text := "Attachment " +:+ numToString (Z.of_nat index + 1);
     MediaFile.caption := "Attached file from email";
     MediaFile.size := threeQuarters (String.length attachment);
     MediaFile.dimensions := if startsWith "image/" contentType
                             then Some (800, 600) else None |}.

(** The loop of [processAttachments] from index [i] on, over the
    attachments left. *)
Fixpoint processFrom (E : Env) (i : nat) (attachments : list string)
    (mediaFiles : list MediaFile.t) : M Fields (list MediaFile.t) :=
  match attachments with
  | [] => ret mediaFiles
  | attachment :: rest =>
      mediaFiles' <- tryCatch
                       (ret (mediaFiles ++ [processSingleAttachment attachment i]))
                       (fun errorMessage =>
                          iso <- isoNow E ;;
                          s <- getFields ;;
                          setFields
                            {| errors := errors s ++
                                 [{| SystemError.timestamp := iso;
                                     SystemError.error :=
                                       "Failed to process attachment "
                                       +:+ numToString (Z.of_nat i) +:+ ": " +:+ errorMessage;
                                     SystemError.severity := Severity.medium;
                                     SystemError.component := "EmailInterpretationService";
                                     SystemError.resolved := false |}] |} ;;;
                          ret mediaFiles) ;;
      processFrom E (S i) rest mediaFiles'
  end.

Definition processAttachments (E : Env) (attachments : list string)
    : M Fields (list MediaFile.t) :=
  processFrom E 0 attachments [].

End EmailAttachments.

(** ** ErrorHandlingService *)

Module ErrorHandling.

(** [interface RecoveryStrategy]: [recover] reads the error and the
    context, may consult the host, and returns actions or throws. *)
Record RecoveryStrategy := {
  name : string;
  recover : Env -> SystemError.t -> JsVal -> M unit (list FrameworkAction.t)
}.

(** The fields of the service. [this.errors] is an array of references:
    the [SystemError] objects themselves live in [objects], at the address
    that the array holds, so that [error.resolved = true] is seen through
    every reference to that object. *)
Record Fields := {
  objects : list SystemError.t;
  errors : list nat;
  recoveryStrategies : gmap string RecoveryStrategy;
  errorThresholds : gmap string Z
}.

(** What an address outside [objects] reads as (no such reference exists
    in a running program). *)
Definition noObject : SystemError.t :=
  {| SystemError.timestamp := ""; SystemError.error := "";
     SystemError.severity := Severity.low; SystemError.component := "";
     SystemError.resolved := false |}.

Definition deref (objs : list SystemError.t) (a : nat) : SystemError.t :=
  default noObject (objs !! a).

Definition setErrors (l : list nat) (s : Fields) : Fields :=
  {| objects := objects s; errors := l;
     recoveryStrategies := recoveryStrategies s; errorThresholds := errorThresholds s |}.

Definition setObjects (o : list SystemError.t) (s : Fields) : Fields :=
  {| objects := o; errors := errors s;
     recoveryStrategies := recoveryStrategies s; errorThresholds := errorThresholds s |}.

(** Run a computation that has no access to the fields. *)
Definition hosted {A} (m : M unit A) : M Fields A :=
  fun sw =>
    match m (tt, snd sw) with
    | (r, (_, w)) => (r, (fst sw, w))
    end.

(** *** The built-in strategies ([initializeRecoveryStrategies]) *)

Definition mkAction (ty : ActionType.t) (target : string)
    (parameters : list (string * JsVal)) (priority : Priority.t) (id : string)
    : FrameworkAction.t :=
  {| FrameworkAction.type := ty; FrameworkAction.target := target;
     FrameworkAction.parameters := parameters; FrameworkAction.priority := priority;
     FrameworkAction.dependencies := []; FrameworkAction.id := id |}.

(** [if (error.error.includes(word)) { actions.push({..., id: `${prefix}${Date.now()}`}) }] *)
Definition pushIfIncludes (E : Env) (word : string) (error : SystemError.t)
    (ty : ActionType.t) (target : string) (parameters : list (string * JsVal))
    (priority : Priority.t) (prefix : string) (actions : list FrameworkAction.t)
    : M unit (list FrameworkAction.t) :=
  if includes word (SystemError.error error)
  then now <- dateNow E ;;
       ret (actions ++ [mkAction ty target parameters priority (prefix +:+ numToString now)])
  else ret actions.

Definition emailInterpretationRecovery : RecoveryStrategy :=
  {| name := "Email Interpretation Recovery";
     recover := fun E error context =>
       actions <- pushIfIncludes E "classification" error
         ActionType.transform "EmailInterpretationService"
         [("action", JStr "retry_classification"); ("fallback_type", JStr "other");
          ("context", context)]
         Priority.medium "retry_classification_" [] ;;
       pushIfIncludes E "attachment" error
         ActionType.transform "EmailInterpretationService"
         [("action", JStr "retry_without_attachments"); ("context", context)]
         Priority.medium "retry_no_attachments_" actions |}.

Definition frontendConnectionRecovery : RecoveryStrategy :=
  {| name := "Frontend Connection Recovery";
     recover := fun E error context =>
       actions <- pushIfIncludes E "authentication" error
         ActionType.connect "FrontendConnectionService"
         [("action", JStr "retry_with_alt_auth");
          ("connection_name", optGet context "connection_name"); ("context", context)]
         Priority.high "retry_alt_auth_" [] ;;
       pushIfIncludes E "connection" error
         ActionType.connect "FrontendConnectionService"
         [("action", JStr "retry_with_extended_timeout");
          ("connection_name", optGet context "connection_name");
          ("timeout", JNum 30000); ("context", context)]
         Priority.medium "retry_extended_timeout_" actions |}.

Definition contentTransformationRecovery : RecoveryStrategy :=
  {| name := "Content Transformation Recovery";
     recover := fun E error context =>
       actions <- pushIfIncludes E "transformation" error
         ActionType.transform "ContentTransformationService"
         [("action", JStr "retry_with_defaults");
          ("frontend_name", optGet context "frontend_name");
          ("content_type", optGet context "content_type"); ("context", context)]
         Priority.medium "retry_defaults_" [] ;;
       pushIfIncludes E "mapping" error
         ActionType.transform "ContentTransformationService"
         [("action", JStr "use_fallback_mapping");
          ("frontend_name", optGet context "frontend_name"); ("context", context)]
         Priority.medium "fallback_mapping_" actions |}.

Definition publishingExecutionRecovery : RecoveryStrategy :=
  {| name := "Publishing Execution Recovery";
     recover := fun E error context =>
       actions <- pushIfIncludes E "HTTP" error
         ActionType.publish "PublishingExecutionService"
         [("action", JStr "retry_with_backoff");
          ("frontend_name", optGet context "frontend_name");
          ("max_attempts", JNum 3); ("context", context)]
         Priority.high "retry_backoff_" [] ;;
       actions <- pushIfIncludes E "timeout" error
         ActionType.publish "PublishingExecutionService"
         [("action", JStr "retry_with_timeout");
          ("frontend_name", optGet context "frontend_name");
          ("timeout", JNum 60000); ("context", context)]
         Priority.medium "retry_timeout_" actions ;;
       pushIfIncludes E "validation" error
         ActionType.publish "PublishingExecutionService"
         [("action", JStr "retry_simplified");
          ("frontend_name", optGet context "frontend_name"); ("context", context)]
         Priority.medium "retry_simplified_" actions |}.

Definition initialRecoveryStrategies : gmap string RecoveryStrategy :=
  <["PublishingExecutionService" := publishingExecutionRecovery]>
  (<["ContentTransformationService" := contentTransformationRecovery]>
  (<["FrontendConnectionService" := frontendConnectionRecovery]>
  (<["EmailInterpretationService" := emailInterpretationRecovery]> ∅))).

(** [initializeErrorThresholds] *)
Definition initialErrorThresholds : gmap string Z :=
  <["ErrorHandlingService" := 3]>
  (<["PublishingExecutionService" := 7]>
  (<["ContentTransformationService" := 8]>
  (<["FrontendConnectionService" := 5]>
  (<["EmailInterpretationService" := 10]> ∅)))).

(** The service as its constructor leaves it, in a heap holding [objs]. *)
Definition construct (objs : list SystemError.t) : Fields :=
  {| objects := objs; errors := [];
     recoveryStrategies := initialRecoveryStrategies;
     errorThresholds := initialErrorThresholds |}.

(** *** Queries on the log *)

(** [this.errors.filter(e => e.component === component)] *)
Definition ofComponent (s : Fields) (component : string) : list nat :=
  List.filter (fun a => String.eqb (SystemError.component (deref (objects s) a)) component)
              (errors s).

Definition getErrorCount (s : Fields) (component : string) : nat :=
  length (ofComponent s component).

Definition getRecentErrors (s : Fields) (component : string) (limit : Z) : list nat :=
  sliceFrom (- limit) (ofComponent s component).

(** [this.errorThresholds.get(component) || 10] *)
Definition thresholdOf (s : Fields) (component : string) : Z :=
  match errorThresholds s !! component with
  | Some t => if t =? 0 then 10 else t
  | None => 10
  end.

Definition isErrorThresholdExceeded (s : Fields) (component : string) : bool :=
  let threshold := thresholdOf s component in
  let recentErrors := getRecentErrors s component threshold in
  Z.of_nat (length recentErrors) >=? threshold.

(** [getErrorPriority(severity: string)] *)
Definition getErrorPriority (severity : string) : Priority.t :=
  if String.eqb severity "critical" then Priority.high
  else if String.eqb severity "high" then Priority.high
  else if String.eqb severity "medium" then Priority.medium
  else if String.eqb severity "low" then Priority.low
  else Priority.medium.

(** *** Logging *)

Definition logError (error : nat) (context : JsVal) : M Fields unit :=
  s <- getFields ;;
  let pushed := errors s ++ [error] in
  let kept := if (1000 <? length pushed)%nat then sliceFrom (-1000) pushed else pushed in
  setFields (setErrors kept s) ;;;
  let e := deref (objects s) error in
  consoleError ("[" +:+ SystemError.timestamp e +:+ "] "
                +:+ toUpperCase (Severity.toString (SystemError.severity e))
                +:+ " in " +:+ SystemError.component e +:+ ": " +:+ SystemError.error e)
               None ;;;
  if truthy context then consoleError "Context:" (Some context) else ret tt.

(** [this.errors.findIndex(p)] *)
Fixpoint findIndex {A} (p : A -> bool) (l : list A) : option nat :=
  match l with
  | [] => None
  | x :: r => if p x then Some 0%nat else option_map S (findIndex p r)
  end.

Definition updateErrorStatus (error : nat) : M Fields unit :=
  s <- getFields ;;
  let e := deref (objects s) error in
  let index := findIndex (fun a =>
                 String.eqb (SystemError.timestamp (deref (objects s) a)) (SystemError.timestamp e)
                 && String.eqb (SystemError.component (deref (objects s) a)) (SystemError.component e))
               (errors s) in
  match index with
  | Some i => setFields (setErrors (<[i := error]> (errors s)) s)
  | None => ret tt
  end.

(** [new] of a [SystemError]: the object gets the next free address. *)
Definition allocate (e : SystemError.t) : M Fields nat :=
  s <- getFields ;;
  setFields (setObjects (objects s ++ [e]) s) ;;;
  ret (length (objects s)).

(** *** Recovery *)

Definition attemptRecovery (E : Env) (error : nat) (context : JsVal)
    : M Fields (list FrameworkAction.t) :=
  s <- getFields ;;
  match recoveryStrategies s !! SystemError.component (deref (objects s) error) with
  | None => ret []
  | Some strategy =>
      tryCatch
        (actions <- hosted (recover strategy E (deref (objects s) error) context) ;;
         let recoveryActions := [] ++ actions in
         (if (0 <? length actions)%nat
          then s1 <- getFields ;;
               setFields (setObjects (<[error := SystemError.markResolved (deref (objects s1) error)]>
                                        (objects s1)) s1) ;;;
               updateErrorStatus error
          else ret tt) ;;;
         ret recoveryActions)
        (fun recoveryErrorMessage =>
           s1 <- getFields ;;
           let e := deref (objects s1) error in
           iso <- isoNow E ;;
           failure <- allocate
             {| SystemError.timestamp := iso;
                SystemError.error := "Recovery failed for " +:+ SystemError.component e
                                     +:+ ": " +:+ recoveryErrorMessage;
                SystemError.severity := Severity.high;
                SystemError.component := "ErrorHandlingService";
                SystemError.resolved := false |} ;;
           logError failure (JObj [("originalError", SystemError.toJs e)]) ;;;
           ret [])
  end.

Definition handleThresholdExceeded (E : Env) (error : nat)
    : M Fields (list FrameworkAction.t) :=
  s <- getFields ;;
  let e := deref (objects s) error in
  now1 <- dateNow E ;;
  let pause :=
    mkAction ActionType.error "system"
      [("error", JStr ("Error threshold exceeded for " +:+ SystemError.component e
                       +:+ ". System paused."));
       ("component", JStr "ErrorHandlingService");
       ("severity", JStr "critical");
       ("action", JStr "pause_system")]
      Priority.high ("threshold_exceeded_" +:+ numToString now1) in
  let details :=
    JObj [("error_count", JNum (Z.of_nat (getErrorCount s (SystemError.component e))));
          ("threshold", match errorThresholds s !! SystemError.component e with
                        | Some t => JNum t
                        | None => JUndefined
                        end);
          ("recent_errors",
           JArr (map (fun a => SystemError.toJs (deref (objects s) a))
                     (getRecentErrors s (SystemError.component e) 5)))] in
  now2 <- dateNow E ;;
  let notification :=
    mkAction ActionType.notify "admin"
      [("message", JStr ("Critical: Error threshold exceeded for " +:+ SystemError.component e));
       ("details", details)]
      Priority.high ("notify_threshold_" +:+ numToString now2) in
  ret [pause; notification].

Definition handleError (E : Env) (error : nat) (context : JsVal)
    : M Fields (list FrameworkAction.t) :=
  logError error context ;;;
  s <- getFields ;;
  if isErrorThresholdExceeded s (SystemError.component (deref (objects s) error))
  then handleThresholdExceeded E error
  else
    recoveryActions <- attemptRecovery E error context ;;
    if (0 <? length recoveryActions)%nat
    then ret recoveryActions
    else
      s1 <- getFields ;;
      let e := deref (objects s1) error in
      now <- dateNow E ;;
      suffix <- randomSuffix E ;;
      ret [mkAction ActionType.error "system"
             [("error", JStr (SystemError.error e));
              ("component", JStr (SystemError.component e));
              ("severity", JStr (Severity.toString (SystemError.severity e)));
              ("context", context)]
             (getErrorPriority (Severity.toString (SystemError.severity e)))
             ("error_" +:+ numToString now +:+ "_" +:+ suffix)].

(** *** Administration *)

(** [clearErrors(component?: string)]; [None] is the call without
    argument. *)
Definition clearErrors (component : option string) (s : Fields) : Fields :=
  if truthyStr component
  then setErrors
         (List.filter (fun a => negb (String.eqb (SystemError.component (deref (objects s) a))
                                                 (show component)))
                      (errors s)) s
  else setErrors [] s.

Definition setErrorThreshold (component : string) (threshold : Z) (s : Fields) : Fields :=
  {| objects := objects s; errors := errors s;
     recoveryStrategies := recoveryStrategies s;
     errorThresholds := <[component := threshold]> (errorThresholds s) |}.

Definition addRecoveryStrategy (component : string) (strategy : RecoveryStrategy)
    (s : Fields) : Fields :=
  {| objects := objects s; errors := errors s;
     recoveryStrategies := <[component := strategy]> (recoveryStrategies s);
     errorThresholds := errorThresholds s |}.

(** *** Queries and manual resolution *)

(** [getErrors(component?: string)] *)
Definition getErrors (component : option string) (s : Fields) : list nat :=
  if truthyStr component then ofComponent s (show component) else errors s.

(** [getUnresolvedErrors()] *)
Definition getUnresolvedErrors (s : Fields) : list nat :=
  List.filter (fun a => negb (SystemError.resolved (deref (objects s) a))) (errors s).

(** The members of [Object.prototype]: on a plain object used as a table,
    reading one of these keys finds the inherited member. *)
Definition inheritedKeys : list string :=
  ["constructor"; "__proto__"; "hasOwnProperty"; "isPrototypeOf";
   "propertyIsEnumerable"; "toLocaleString"; "toString"; "valueOf";
   "__defineGetter__"; "__defineSetter__"; "__lookupGetter__"; "__lookupSetter__"].

(** One entry of [byComponent]: [{ total, resolved, unresolved }]. *)
Record Group := {
  groupTotal : nat;
  groupResolved : nat;
  groupUnresolved : nat
}.

(** The result of [getErrorStats]; the two tables are plain objects read
    by key. *)
Record Stats := {
  total : nat;
  resolved : nat;
  unresolved : nat;
  byComponent : gmap string Group;
  bySeverity : gmap string nat
}.

(** One turn of the first [forEach] of [getErrorStats]. For a component
    that names a member of [Object.prototype] the test
    [!stats.byComponent[component]] finds the inherited member, no entry is
    created and the increments go to that member: the table is left as it
    is. *)
Definition countByComponent (table : gmap string Group) (e : SystemError.t)
    : gmap string Group :=
  if arrIncludes (SystemError.component e) inheritedKeys then table
  else
    let g := default {| groupTotal := 0; groupResolved := 0; groupUnresolved := 0 |}
                     (table !! SystemError.component e) in
    <[SystemError.component e :=
        if SystemError.resolved e
        then {| groupTotal := S (groupTotal g); groupResolved := S (groupResolved g);
                groupUnresolved := groupUnresolved g |}
        else {| groupTotal := S (groupTotal g); groupResolved := groupResolved g;
                groupUnresolved := S (groupUnresolved g) |}]> table.

(** One turn of the second [forEach]:
    [bySeverity[severity] = (bySeverity[severity] || 0) + 1]. *)
Definition countBySeverity (table : gmap string nat) (e : SystemError.t) : gmap string nat :=
  <[Severity.toString (SystemError.severity e) :=
      S (default 0%nat (table !! Severity.toString (SystemError.severity e)))]> table.

Definition getErrorStats (s : Fields) : Stats :=
  let logged := map (deref (objects s)) (errors s) in
  {| total := length logged;
     resolved := length (List.filter SystemError.resolved logged);
     unresolved := length (List.filter (fun e => negb (SystemError.resolved e)) logged);
     byComponent := fold_left countByComponent logged ∅;
     bySeverity := fold_left countBySeverity logged ∅ |}.

(** [resolveError(errorTimestamp, component)]: the first logged error with
    that timestamp and component is marked resolved. *)
Definition resolveError (errorTimestamp component : string) (s : Fields) : bool * Fields :=
  match List.find (fun a =>
                     String.eqb (SystemError.timestamp (deref (objects s) a)) errorTimestamp
                     && String.eqb (SystemError.component (deref (objects s) a)) component)
                  (errors s) with
  | Some a =>
      (true, setObjects (<[a := SystemError.markResolved (deref (objects s) a)]> (objects s)) s)
  | None => (false, s)
  end.

End ErrorHandling.

(** ** PublishingExecutionService *)

Module Publishing.

Record Fields := {
  errors : list SystemError.t;
  executionHistory : list ProcessingResult.t
}.

Definition construct : Fields := {| errors := []; executionHistory := [] |}.

Definition mkError (iso message : string) (severity : Severity.t) : SystemError.t :=
  {| SystemError.timestamp := iso; SystemError.error := message;
     SystemError.severity := severity;
     SystemError.component := "PublishingExecutionService";
     SystemError.resolved := false |}.

(** [this.errors.push(e)] *)
Definition pushError (e : SystemError.t) : M Fields unit :=
  s <- getFields ;;
  setFields {| errors := errors s ++ [e]; executionHistory := executionHistory s |}.

(** [this.executionHistory.push(r)] *)
Definition pushHistory (r : ProcessingResult.t) : M Fields unit :=
  s <- getFields ;;
  setFields {| errors := errors s; executionHistory := executionHistory s ++ [r] |}.

(** [v.k] on a value of type [any]: a [TypeError] on [undefined] and
    [null]. *)
Definition getProp {Sv} (v : JsVal) (k : string) : M Sv JsVal :=
  match v with
  | JUndefined => throw ("Cannot read properties of undefined (reading '" +:+ k +:+ "')")
  | JNull => throw ("Cannot read properties of null (reading '" +:+ k +:+ "')")
  | _ => ret (optGet v k)
  end.

(** [s.replace(/\/$/, '')] on a field that may be [undefined]. *)
Definition baseUrl {Sv} (api_endpoint : option string) : M Sv string :=
  match api_endpoint with
  | Some s => ret (stripTrailingSlash s)
  | None => throw "Cannot read properties of undefined (reading 'replace')"
  end.

Section Service.

Variable E : Env.

(** [prepareRequestBody], which assembles and filters the JSON body, is a
    parameter: any function that returns a body or throws. *)
Variable prepareRequestBody : ProcessedContent.t -> ApiEndpoint.t -> Result JsVal.

Definition prepareBody (processedContent : ProcessedContent.t) (endpoint : ApiEndpoint.t)
    : M Fields JsVal :=
  match prepareRequestBody processedContent endpoint with
  | Ok b => ret b
  | Throw msg => throw msg
  end.

Definition createAuthHeaders (connection : FrontendConnection.t)
    : M Fields (list (string * string)) :=
  let headers := [("Content-Type", "application/json");
                  ("User-Agent", "LLM-Backend-Framework/1.0")] in
  let credentials := show (FrontendConnection.credentials connection) in
  ret (match FrontendConnection.auth_type connection with
       | Some "api_key" => assocSet "Authorization" ("Bearer " +:+ credentials) headers
       | Some "jwt" => assocSet "Authorization" ("JWT " +:+ credentials) headers
       | Some "oauth2" => assocSet "Authorization" ("OAuth " +:+ credentials) headers
       | _ => headers
       end).

(** The table [typeToEndpointMap] is a plain object: a content type that
    names a member of [Object.prototype] reads that member, which is
    truthy and has no [some]; the callback of [find] then throws at the
    first endpoint it is given. *)
Definition objectPrototypeKeys : list string :=
  ["constructor"; "__proto__"; "hasOwnProperty"; "isPrototypeOf";
   "propertyIsEnumerable"; "toLocaleString"; "toString"; "valueOf";
   "__defineGetter__"; "__defineSetter__"; "__lookupGetter__"; "__lookupSetter__"].

Definition typeToEndpointMap : list (string * list string) :=
  [("article", ["/articles"; "/posts"; "/content"; "/blog"]);
   ("product", ["/products"; "/items"; "/listings"]);
   ("update", ["/updates"; "/news"; "/announcements"]);
   ("announcement", ["/announcements"; "/news"; "/updates"])].

Definition findEndpointForContentType (schema : FrontendSchema.t) (contentType : string)
    : M Fields (option ApiEndpoint.t) :=
  if arrIncludes contentType objectPrototypeKeys
  then match FrontendSchema.endpoints schema with
       | [] => ret None
       | _ :: _ => throw "possiblePaths.some is not a function"
       end
  else
    let possiblePaths := default ["/content"] (assocGet contentType typeToEndpointMap) in
    ret (List.find
           (fun endpoint =>
              existsb (fun path => includes path (ApiEndpoint.path endpoint)) possiblePaths
              && arrIncludes (ApiEndpoint.method endpoint) ["POST"; "PUT"; "PATCH"])
           (FrontendSchema.endpoints schema)).

Definition mkRequest (method url : string) (headers : list (string * string))
    (body : JsVal) (connection : FrontendConnection.t) : APIRequest.t :=
  {| APIRequest.method := method; APIRequest.url := url;
     APIRequest.headers := headers; APIRequest.body := body;
     APIRequest.auth := (FrontendConnection.auth_type connection,
                         FrontendConnection.credentials connection) |}.

Definition createPostRequest (processedContent : ProcessedContent.t)
    (connection : FrontendConnection.t) (endpoint : ApiEndpoint.t) : M Fields APIRequest.t :=
  headers <- createAuthHeaders connection ;;
  base <- baseUrl (FrontendConnection.api_endpoint connection) ;;
  let url := base +:+ ApiEndpoint.path endpoint in
  body <- prepareBody processedContent endpoint ;;
  ret (mkRequest "POST" url headers body connection).

(** [content.id || content.metadata?.id || Date.now().toString()] *)
Definition contentId (processedContent : ProcessedContent.t) : M Fields JsVal :=
  id <- getProp (ProcessedContent.content processedContent) "id" ;;
  if truthy id then ret id
  else
    let nested := optGet (optGet (ProcessedContent.content processedContent) "metadata") "id" in
    if truthy nested then ret nested
    else now <- dateNow E ;; ret (JStr (numToString now)).

(** [createPutRequest] and [createPatchRequest] differ in the method
    only. *)
Definition createRequestWithId (method : string) (processedContent : ProcessedContent.t)
    (connection : FrontendConnection.t) (endpoint : ApiEndpoint.t) : M Fields APIRequest.t :=
  headers <- createAuthHeaders connection ;;
  base <- baseUrl (FrontendConnection.api_endpoint connection) ;;
  let url := base +:+ ApiEndpoint.path endpoint in
  id <- contentId processedContent ;;
  let fullUrl := url +:+ "/" +:+ toStr id in
  body <- prepareBody processedContent endpoint ;;
  ret (mkRequest method fullUrl headers body connection).

Definition createPutRequest := createRequestWithId "PUT".
Definition createPatchRequest := createRequestWithId "PATCH".

Definition generateAPIRequests (processedContent : ProcessedContent.t)
    (connection : FrontendConnection.t) (schema : FrontendSchema.t)
    : M Fields (list APIRequest.t) :=
  found <- findEndpointForContentType schema (ProcessedContent.type processedContent) ;;
  match found with
  | None => throw ("No suitable endpoint found for content type: "
                   +:+ ProcessedContent.type processedContent)
  | Some endpoint =>
      if String.eqb (ApiEndpoint.method endpoint) "POST"
      then r <- createPostRequest processedContent connection endpoint ;; ret [r]
      else if String.eqb (ApiEndpoint.method endpoint) "PUT"
      then r <- createPutRequest processedContent connection endpoint ;; ret [r]
      else if String.eqb (ApiEndpoint.method endpoint) "PATCH"
      then r <- createPatchRequest processedContent connection endpoint ;; ret [r]
      else throw ("Unsupported HTTP method: " +:+ ApiEndpoint.method endpoint)
  end.

(** The [fetch] that sends [request] with the given headers and body. *)
Definition send (request : APIRequest.t) (headers : list (string * string)) (body : JsVal)
    : M Fields Response :=
  fetch E {| Host.url := APIRequest.url request;
             Host.method := APIRequest.method request;
             Host.headers := headers;
             Host.body := Some body;
             Host.timeout := Some 30000 |}.

(** *** The recovery chain *)

Fixpoint backoffLoop (delays : list Z) (request : APIRequest.t) : M Fields unit :=
  match delays with
  | [] => throw "Retry with backoff failed"
  | delay :: rest =>
      sleep delay ;;;
      done <- tryCatch
                (response <- send request (APIRequest.headers request)
                                  (APIRequest.body request) ;;
                 ret (ok response))
                (fun _ => ret false) ;;
      if done then ret tt else backoffLoop rest request
  end.

Definition retryWithBackoff (request : APIRequest.t) (connection : FrontendConnection.t)
    : M Fields unit :=
  let delays := [1000; 3000; 5000] in
  backoffLoop delays request.

(** The headers of one alternative: the copy of the request's headers
    without [Authorization], then the credentials under [header]. *)
Definition alternativeHeaders (request : APIRequest.t) (connection : FrontendConnection.t)
    (header : string) : list (string * string) :=
  let headers := assocDelete "Authorization" (APIRequest.headers request) in
  if String.eqb header "Authorization"
  then assocSet "Authorization"
         ("Bearer " +:+ show (FrontendConnection.credentials connection)) headers
  else assocSet header (show (FrontendConnection.credentials connection)) headers.

Fixpoint alternativeAuthLoop (alternativeAuths : list (string * string))
    (request : APIRequest.t) (connection : FrontendConnection.t) : M Fields unit :=
  match alternativeAuths with
  | [] => throw "Alternative authentication failed"
  | (_, header) :: rest =>
      done <- tryCatch
                (let headers := alternativeHeaders request connection header in
                 response <- send request headers (APIRequest.body request) ;;
                 ret (ok response))
                (fun _ => ret false) ;;
      if done then ret tt else alternativeAuthLoop rest request connection
  end.

Definition retryWithAlternativeAuth (request : APIRequest.t)
    (connection : FrontendConnection.t) : M Fields unit :=
  let alternativeAuths := [("api_key", "X-API-Key");
                           ("api_key", "Authorization");
                           ("jwt", "Authorization")] in
  alternativeAuthLoop alternativeAuths request connection.

Definition simplifiedBody (body : JsVal) : JsVal :=
  let essentialFields := ["title"; "body"; "type"; "name"; "description"] in
  JObj (if truthy body
        then fold_left
               (fun simplified field =>
                  if truthy (optGet body field)
                  then assocSet field (optGet body field) simplified
                  else simplified)
               essentialFields []
        else []).

Definition retryWithSimplifiedContent (request : APIRequest.t)
    (connection : FrontendConnection.t) : M Fields unit :=
  let simplified := simplifiedBody (APIRequest.body request) in
  tryCatch
    (response <- send request (APIRequest.headers request) simplified ;;
     (* [if (response.ok) return;] and the end of the function alike *)
     if ok response then ret tt else ret tt)
    (fun _ => throw "Simplified content retry failed").

Fixpoint strategyLoop (strategies : list (M Fields unit))
    (connection : FrontendConnection.t) (errorMessage : string) : M Fields unit :=
  match strategies with
  | [] =>
      iso <- isoNow E ;;
      pushError (mkError iso ("All recovery strategies failed for "
                              +:+ show (FrontendConnection.name connection)
                              +:+ ": " +:+ errorMessage)
                         Severity.critical)
  | strategy :: rest =>
      recovered <- tryCatch
                     (strategy ;;;
                      consoleLog ("Recovery successful for "
                                  +:+ show (FrontendConnection.name connection)) ;;;
                      ret true)
                     (fun recoveryErrorMessage =>
                        consoleLog ("Recovery strategy failed for "
                                    +:+ show (FrontendConnection.name connection)
                                    +:+ ": " +:+ recoveryErrorMessage) ;;;
                        ret false) ;;
      if recovered then ret tt else strategyLoop rest connection errorMessage
  end.

Definition attemptRecovery (request : APIRequest.t) (connection : FrontendConnection.t)
    (errorMessage : string) : M Fields unit :=
  let recoveryStrategies := [retryWithBackoff request connection;
                             retryWithAlternativeAuth request connection;
                             retryWithSimplifiedContent request connection] in
  strategyLoop recoveryStrategies connection errorMessage.

(** *** Sending *)

Fixpoint executeRequests (requests : list APIRequest.t) (connection : FrontendConnection.t)
    : M Fields unit :=
  match requests with
  | [] => ret tt
  | request :: rest =>
      tryCatch
        (response <- send request (APIRequest.headers request) (APIRequest.body request) ;;
         if negb (ok response)
         then throw ("HTTP " +:+ numToString (status response) +:+ ": " +:+ statusText response)
         else
           iso <- isoNow E ;;
           emit (SetLastUsed (show (FrontendConnection.name connection)) iso) ;;;
           consoleLog ("Successfully published to "
                       +:+ show (FrontendConnection.name connection) +:+ " via "
                       +:+ APIRequest.method request +:+ " " +:+ APIRequest.url request))
        (fun errorMessage =>
           iso <- isoNow E ;;
           pushError (mkError iso ("Failed to execute request to "
                                   +:+ show (FrontendConnection.name connection)
                                   +:+ ": " +:+ errorMessage)
                              Severity.high) ;;;
           attemptRecovery request connection errorMessage) ;;;
      executeRequests rest connection
  end.

(** *** The publish run *)

(** The filter of [executePublishing]: active and targeted. *)
Definition isTarget (processedContent : ProcessedContent.t) (conn : FrontendConnection.t)
    : bool :=
  FrontendConnection.is_active conn
  && (arrIncludes "all" (ProcessedContent.target_frontends processedContent)
      || match FrontendConnection.name conn with
         | Some name => arrIncludes name (ProcessedContent.target_frontends processedContent)
         | None => false
         end).

(** [schemas.get(connection.name)] *)
Definition schemaOf (schemas : gmap string FrontendSchema.t)
    (connection : FrontendConnection.t) : option FrontendSchema.t :=
  match FrontendConnection.name connection with
  | Some name => schemas !! name
  | None => None
  end.

(** The [catch] of the loop body: one more entry in the run's [errors]. *)
Definition recordFailure (connection : FrontendConnection.t)
    (apiRequests : list APIRequest.t) (errors : list SystemError.t) (errorMessage : string)
    : M Fields (list APIRequest.t * list SystemError.t) :=
  iso <- isoNow E ;;
  ret (apiRequests,
       errors ++ [mkError iso ("Failed to generate requests for "
                               +:+ show (FrontendConnection.name connection)
                               +:+ ": " +:+ errorMessage)
                          Severity.high]).

(** One turn of the loop over the target connections, on the local
    arrays [apiRequests] and [errors]. The requests of this connection
    are pushed before they are sent, and stay pushed if sending throws. *)
Definition publishTo (processedContent : ProcessedContent.t)
    (schemas : gmap string FrontendSchema.t)
    (locals : list APIRequest.t * list SystemError.t) (connection : FrontendConnection.t)
    : M Fields (list APIRequest.t * list SystemError.t) :=
  let '(apiRequests, errors) := locals in
  tryCatch
    (match schemaOf schemas connection with
     | None => throw ("No schema found for frontend: "
                      +:+ show (FrontendConnection.name connection))
     | Some schema =>
         requests <- generateAPIRequests processedContent connection schema ;;
         let apiRequests := apiRequests ++ requests in
         tryCatch
           ((if String.eqb (ProcessedContent.intent processedContent) "immediate"
             then executeRequests requests connection
             else ret tt) ;;;
            ret (apiRequests, errors))
           (recordFailure connection apiRequests errors)
     end)
    (recordFailure connection apiRequests errors).

Fixpoint publishAll (processedContent : ProcessedContent.t)
    (schemas : gmap string FrontendSchema.t)
    (locals : list APIRequest.t * list SystemError.t)
    (targetConnections : list FrontendConnection.t)
    : M Fields (list APIRequest.t * list SystemError.t) :=
  match targetConnections with
  | [] => ret locals
  | connection :: rest =>
      locals' <- publishTo processedContent schemas locals connection ;;
      publishAll processedContent schemas locals' rest
  end.

Definition targetConnectionsOf (processedContent : ProcessedContent.t)
    (frontendConnections : list FrontendConnection.t) : list FrontendConnection.t :=
  List.filter (isTarget processedContent) frontendConnections.

(** The outer [try] throws at one place only, before anything is pushed
    to [apiRequests]; its [catch] therefore reports an empty array. *)
Definition executePublishing (processedContent : ProcessedContent.t)
    (frontendConnections : list FrontendConnection.t)
    (schemas : gmap string FrontendSchema.t) : M Fields ProcessingResult.t :=
  startTime <- dateNow E ;;
  tryCatch
    (let targetConnections := targetConnectionsOf processedContent frontendConnections in
     if (length targetConnections =? 0)%nat
     then throw "No active frontend connections found for publishing"
     else
       locals <- publishAll processedContent schemas ([], []) targetConnections ;;
       let '(apiRequests, errors) := locals in
       now <- dateNow E ;;
       let executionTime := now - startTime in
       let success := (length errors =? 0)%nat
                      || (length errors <? length targetConnections)%nat in
       let result :=
         {| ProcessingResult.success := success;
            ProcessingResult.processed_content := processedContent;
            ProcessingResult.api_requests := apiRequests;
            ProcessingResult.errors := errors;
            ProcessingResult.execution_time := executionTime |} in
       pushHistory result ;;;
       ret result)
    (fun errorMessage =>
       now <- dateNow E ;;
       let executionTime := now - startTime in
       iso <- isoNow E ;;
       let result :=
         {| ProcessingResult.success := false;
            ProcessingResult.processed_content := processedContent;
            ProcessingResult.api_requests := [];
            ProcessingResult.errors :=
              [mkError iso ("Publishing execution failed: " +:+ errorMessage)
                       Severity.critical];
            ProcessingResult.execution_time := executionTime |} in
       pushHistory result ;;;
       ret result).

End Service.

(** [getExecutionHistory], [getErrors] *)
Definition getExecutionHistory (s : Fields) : list ProcessingResult.t := executionHistory s.
Definition getErrors (s : Fields) : list SystemError.t := errors s.

End Publishing.

(** ** FrontendConnectionService *)

Module Connection.

Record Fields := {
  connections : gmap string FrontendConnection.t;
  schemas : gmap string FrontendSchema.t;
  errors : list SystemError.t
}.

Definition construct : Fields := {| connections := ∅; schemas := ∅; errors := [] |}.

Definition mkError (iso message : string) (severity : Severity.t) : SystemError.t :=
  {| SystemError.timestamp := iso; SystemError.error := message;
     SystemError.severity := severity;
     SystemError.component := "FrontendConnectionService";
     SystemError.resolved := false |}.

(** [this.errors.push({ timestamp: new Date().toISOString(), ... })] *)
Definition pushError (E : Env) (message : string) (severity : Severity.t) : M Fields unit :=
  iso <- isoNow E ;;
  s <- getFields ;;
  setFields {| connections := connections s; schemas := schemas s;
               errors := errors s ++ [mkError iso message severity] |}.

(** [endpoint.split('/').pop()]: what follows the last slash. *)
Fixpoint lastSegment (s : string) : string :=
  match s with
  | EmptyString => EmptyString
  | String c r => if includes "/" r then lastSegment r
                  else if Ascii.eqb c "/" then r else s
  end.

Definition contentTypeField (name type : string) (required : bool) : JsVal :=
  JObj [("name", JStr name); ("type", JStr type); ("required", JBool required)].

Definition extractContentTypes (endpoints : list ApiEndpoint.t) : list JsVal :=
  let hasArticles :=
    existsb (fun e => includes "article" (ApiEndpoint.path e)
                      || includes "post" (ApiEndpoint.path e)) endpoints in
  let hasProducts := existsb (fun e => includes "product" (ApiEndpoint.path e)) endpoints in
  let contentTypes := [] in
  let contentTypes :=
    if hasArticles
    then contentTypes ++
           [JObj [("name", JStr "article");
                  ("fields", JArr [contentTypeField "title" "string" true;
                                   contentTypeField "body" "string" true;
                                   contentTypeField "author" "string" false;
                                   contentTypeField "published_at" "string" false]);
                  ("validations", JArr [])]]
    else contentTypes in
  if hasProducts
  then contentTypes ++
         [JObj [("name", JStr "product");
                ("fields", JArr [contentTypeField "name" "string" true;
                                 contentTypeField "description" "string" true;
                                 contentTypeField "price" "number" true;
                                 contentTypeField "sku" "string" false]);
                ("validations", JArr [])]]
  else contentTypes.

Definition createDefaultSchema (name : option string) : FrontendSchema.t :=
  {| FrontendSchema.name := show name;
     FrontendSchema.version := "1.0.0";
     FrontendSchema.endpoints :=
       [{| ApiEndpoint.path := "/api/content";
           ApiEndpoint.method := "POST";
           ApiEndpoint.description := "Create content";
           ApiEndpoint.parameters := [];
           ApiEndpoint.request_body :=
             JObj [("type", JStr "object");
                   ("properties", JObj [("title", JObj [("type", JStr "string")]);
                                        ("body", JObj [("type", JStr "string")]);
                                        ("type", JObj [("type", JStr "string")])]);
                   ("required", JArr [JStr "title"; JStr "body"])];
           ApiEndpoint.responses := [("201", JObj [("type", JStr "object")])] |}];
     FrontendSchema.content_types :=
       [JObj [("name", JStr "content");
              ("fields", JArr [contentTypeField "title" "string" true;
                               contentTypeField "body" "string" true;
                               contentTypeField "type" "string" false]);
              ("validations", JArr [])]] |}.

Section Service.

Variable E : Env.

(** [parseOpenAPISchema], which walks a parsed OpenAPI document, is a
    parameter: any function from the document text to a schema or an
    exception. So are [JSON.parse] (behind [response.json()]) and
    [JSON.stringify]. *)
Variable parseOpenAPISchema : string -> Result FrontendSchema.t.
Variable jsonParse : string -> Result JsVal.
Variable jsonStringify : JsVal -> string.

Definition lift {A} (r : Result A) : M Fields A :=
  match r with
  | Ok a => ret a
  | Throw msg => throw msg
  end.

Definition validateConnection (connection : FrontendConnection.t) : M Fields bool :=
  let required := [("name", FrontendConnection.name connection);
                   ("api_endpoint", FrontendConnection.api_endpoint connection);
                   ("auth_type", FrontendConnection.auth_type connection);
                   ("credentials", FrontendConnection.credentials connection)] in
  match List.find (fun field => negb (truthyStr (snd field))) required with
  | Some (field, _) =>
      pushError E ("Missing required field: " +:+ field) Severity.high ;;;
      ret false
  | None =>
      let validAuthTypes := ["oauth2"; "api_key"; "jwt"] in
      if negb (arrIncludes (show (FrontendConnection.auth_type connection)) validAuthTypes)
      then
        pushError E ("Invalid auth type: " +:+ show (FrontendConnection.auth_type connection))
                  Severity.high ;;;
        ret false
      else
        if urlParses E (show (FrontendConnection.api_endpoint connection))
        then ret true
        else
          pushError E ("Invalid API endpoint URL: "
                       +:+ show (FrontendConnection.api_endpoint connection))
                    Severity.high ;;;
          ret false
  end.

Definition createAuthHeaders (connection : FrontendConnection.t)
    : M Fields (list (string * string)) :=
  let headers := [("Content-Type", "application/json");
                  ("User-Agent", "LLM-Backend-Framework/1.0")] in
  let credentials := show (FrontendConnection.credentials connection) in
  ret (match FrontendConnection.auth_type connection with
       | Some "api_key" => assocSet "Authorization" ("Bearer " +:+ credentials) headers
       | Some "jwt" => assocSet "Authorization" ("JWT " +:+ credentials) headers
       | Some "oauth2" => assocSet "Authorization" ("OAuth " +:+ credentials) headers
       | _ => headers
       end).

Definition testConnection (connection : FrontendConnection.t) : M Fields bool :=
  tryCatch
    (headers <- createAuthHeaders connection ;;
     response <- fetch E {| Host.url := show (FrontendConnection.api_endpoint connection);
                            Host.method := "GET";
                            Host.headers := headers;
                            Host.body := None;
                            Host.timeout := Some 10000 |} ;;
     ret (ok response))
    (fun errorMessage =>
       pushError E ("Connection test failed for "
                    +:+ show (FrontendConnection.name connection) +:+ ": " +:+ errorMessage)
                 Severity.medium ;;;
       ret false).

Definition fetchOpenAPISchema (schemaUrl : string) : M Fields FrontendSchema.t :=
  response <- fetch E {| Host.url := schemaUrl; Host.method := "GET"; Host.headers := [];
                         Host.body := None; Host.timeout := None |} ;;
  openApiSpec <- lift (jsonParse (text response)) ;;
  lift (parseOpenAPISchema (jsonStringify openApiSpec)).

Definition probed (endpoint : string) : list ApiEndpoint.t :=
  [{| ApiEndpoint.path := endpoint; ApiEndpoint.method := "GET";
      ApiEndpoint.description := "Get " +:+ lastSegment endpoint;
      ApiEndpoint.parameters := []; ApiEndpoint.request_body := JUndefined;
      ApiEndpoint.responses := [("200", JObj [("type", JStr "array")])] |};
   {| ApiEndpoint.path := endpoint; ApiEndpoint.method := "POST";
      ApiEndpoint.description := "Create " +:+ lastSegment endpoint;
      ApiEndpoint.parameters := []; ApiEndpoint.request_body := JUndefined;
      ApiEndpoint.responses := [("201", JObj [("type", JStr "object")])] |}].

Fixpoint probeLoop (commonEndpoints : list string) (baseUrl : string)
    (headers : list (string * string)) (endpoints : list ApiEndpoint.t)
    : M Fields (list ApiEndpoint.t) :=
  match commonEndpoints with
  | [] => ret endpoints
  | endpoint :: rest =>
      endpoints' <- tryCatch
                      (response <- fetch E {| Host.url := baseUrl +:+ endpoint;
                                              Host.method := "GET";
                                              Host.headers := headers;
                                              Host.body := None;
                                              Host.timeout := Some 5000 |} ;;
                       if ok response then ret (endpoints ++ probed endpoint)
                       else ret endpoints)
                      (fun _ => ret endpoints) ;;
      probeLoop rest baseUrl headers endpoints'
  end.

Definition discoverSchemaByProbing (connection : FrontendConnection.t)
    : M Fields FrontendSchema.t :=
  headers <- createAuthHeaders connection ;;
  baseUrl <- Publishing.baseUrl (FrontendConnection.api_endpoint connection) ;;
  let commonEndpoints := ["/api/articles"; "/api/posts"; "/api/products";
                          "/api/content"; "/api/items"] in
  endpoints <- probeLoop commonEndpoints baseUrl headers [] ;;
  ret {| FrontendSchema.name := show (FrontendConnection.name connection);
         FrontendSchema.version := "1.0.0";
         FrontendSchema.endpoints := endpoints;
         FrontendSchema.content_types := extractContentTypes endpoints |}.

Definition discoverAPISchema (connection : FrontendConnection.t)
    : M Fields FrontendSchema.t :=
  tryCatch
    (match FrontendConnection.api_schema connection with
     | None => throw "Cannot read properties of undefined (reading 'startsWith')"
     | Some api_schema =>
         if startsWith "http" api_schema then fetchOpenAPISchema api_schema
         else if startsWith "{" api_schema then lift (parseOpenAPISchema api_schema)
         else discoverSchemaByProbing connection
     end)
    (fun errorMessage =>
       pushError E ("Schema discovery failed for "
                    +:+ show (FrontendConnection.name connection) +:+ ": " +:+ errorMessage)
                 Severity.medium ;;;
       ret (createDefaultSchema (FrontendConnection.name connection))).

(** [connection.last_used = ...; connection.is_active = true] *)
Definition activated (iso : string) (connection : FrontendConnection.t)
    : FrontendConnection.t :=
  {| FrontendConnection.name := FrontendConnection.name connection;
     FrontendConnection.api_endpoint := FrontendConnection.api_endpoint connection;
     FrontendConnection.auth_type := FrontendConnection.auth_type connection;
     FrontendConnection.credentials := FrontendConnection.credentials connection;
     FrontendConnection.api_schema := FrontendConnection.api_schema connection;
     FrontendConnection.is_active := true;
     FrontendConnection.last_used := Some iso |}.

(** [this.connections.set(...); this.schemas.set(...)] and the two writes
    to the connection, which the map entry, holding the same object,
    shows as well. A connection that passed validation has a name. *)
Definition store (connection : FrontendConnection.t) (schema : FrontendSchema.t)
    : M Fields unit :=
  iso <- isoNow E ;;
  s <- getFields ;;
  match FrontendConnection.name connection with
  | Some name =>
      setFields {| connections := <[name := activated iso connection]> (connections s);
                   schemas := <[name := schema]> (schemas s);
                   errors := errors s |}
  | None => ret tt
  end.

Definition manageConnection (connection : FrontendConnection.t) : M Fields bool :=
  tryCatch
    (valid <- validateConnection connection ;;
     if negb valid then ret false
     else
       isConnected <- testConnection connection ;;
       if isConnected
       then
         schema <- discoverAPISchema connection ;;
         store connection schema ;;;
         ret true
       else ret false)
    (fun errorMessage =>
       pushError E ("Connection management failed for "
                    +:+ show (FrontendConnection.name connection) +:+ ": " +:+ errorMessage)
                 Severity.high ;;;
       ret false).

(** [refreshConnection(name)]: the stored connection is managed again. *)
Definition refreshConnection (name : string) : M Fields bool :=
  s <- getFields ;;
  match connections s !! name with
  | None =>
      pushError E ("Connection " +:+ name +:+ " not found") Severity.medium ;;;
      ret false
  | Some connection => manageConnection connection
  end.

End Service.

(** [getConnection], [getSchema] *)
Definition getConnection (name : string) (s : Fields) : option FrontendConnection.t :=
  connections s !! name.
Definition getSchema (name : string) (s : Fields) : option FrontendSchema.t :=
  schemas s !! name.

(** [removeConnection(name)]: the answer is that of [connections.delete]. *)
Definition removeConnection (name : string) (s : Fields) : bool * Fields :=
  (match connections s !! name with
   | Some _ => true
   | None => false
   end,
   {| connections := delete name (connections s);
      schemas := delete name (schemas s);
      errors := errors s |}).

(** [getErrors], [clearErrors] *)
Definition getErrors (s : Fields) : list SystemError.t := errors s.
Definition clearErrors (s : Fields) : Fields :=
  {| connections := connections s; schemas := schemas s; errors := [] |}.

End Connection.

(** ** FrameworkController *)

Module Controller.

(** What each stage hands to the controller: its product and its errors. *)
Record StageResult (A : Type) := {
  product : A;
  errors : list SystemError.t
}.
Arguments product {A} _.
Arguments errors {A} _.

Inductive OverallStatus : Type := success | partial_success | failure.

(** [publishingResult.results] is the product of the publishing stage. *)
Definition determineOverallStatus {I C T}
    (interpretationResult : StageResult I)
    (connectionResult : StageResult C)
    (transformationResult : StageResult T)
    (publishingResult : StageResult (list ProcessingResult.t)) : OverallStatus :=
  let totalErrors :=
    fold_left (fun sum count => sum + count)%nat
              [length (errors interpretationResult);
               length (errors connectionResult);
               length (errors transformationResult);
               length (errors publishingResult)] 0%nat in
  let successfulPublishing :=
    length (List.filter ProcessingResult.success (product publishingResult)) in
  let totalPublishing := length (product publishingResult) in
  if (totalErrors =? 0)%nat && (successfulPublishing =? totalPublishing)%nat
  then success
  else if (0 <? successfulPublishing)%nat || (totalErrors <? 3)%nat
  then partial_success
  else failure.

(** One entry of the list that [generateNextSteps] returns. *)
Record NextStep := {
  action : string;
  trigger : string
}.

Definition generateNextSteps {I C T}
    (interpretationResult : StageResult I)
    (connectionResult : StageResult C)
    (transformationResult : StageResult T)
    (publishingResult : StageResult (list ProcessingResult.t)) : list NextStep :=
  let nextSteps := [] in
  let allErrors := errors interpretationResult ++ errors connectionResult
                   ++ errors transformationResult ++ errors publishingResult in
  let nextSteps :=
    if (0 <? length allErrors)%nat
    then nextSteps ++ [{| action := "Review and resolve errors"; trigger := "immediate" |}]
    else nextSteps in
  let failedPublishing :=
    List.filter (fun r => negb (ProcessingResult.success r)) (product publishingResult) in
  let nextSteps :=
    if (0 <? length failedPublishing)%nat
    then nextSteps ++ [{| action := "Retry failed publishing operations";
                          trigger := "5_minutes" |}]
    else nextSteps in
  nextSteps ++ [{| action := "System health check"; trigger := "1_hour" |}].

(** *** [generateActions]

    The three [forEach] loops share the counter [actionId]; each action
    literal reads the counter for [dependencies] before [id] increments it.
    [activeConnections] holds connections that [manageConnection] accepted
    (they have a name), [transformedContents] is the [Map] from frontend
    name to transformed content (a [Record<string, any>]) in insertion
    order. The closing call to the logger is left out: the actions returned
    do not depend on it. *)

Definition actionName (actionId : Z) : string := "action_" +:+ numToString actionId.

Definition connectAction (actionId : Z) (connection : FrontendConnection.t)
    : FrameworkAction.t :=
  {| FrameworkAction.type := ActionType.connect;
     FrameworkAction.target := show (FrontendConnection.name connection);
     FrameworkAction.parameters :=
       [("status", JStr "connected");
        ("api_endpoint", match FrontendConnection.api_endpoint connection with
                         | Some api_endpoint => JStr api_endpoint
                         | None => JUndefined
                         end)];
     FrameworkAction.priority := Priority.high;
     FrameworkAction.dependencies := [];
     FrameworkAction.id := actionName actionId |}.

Definition transformAction (actionId : Z) (entry : string * list (string * JsVal))
    : FrameworkAction.t :=
  let '(frontend, content) := entry in
  {| FrameworkAction.type := ActionType.transform;
     FrameworkAction.target := frontend;
     FrameworkAction.parameters :=
       [("content_type", optGet (JObj content) "type");
        ("fields_transformed", JNum (Z.of_nat (length content)))];
     FrameworkAction.priority := Priority.medium;
     FrameworkAction.dependencies := [actionName (actionId - 1)];
     FrameworkAction.id := actionName actionId |}.

(** The action for [result], the [index]-th of [publishingResult.results]. *)
Definition publishAction (activeConnections : list FrontendConnection.t) (actionId : Z)
    (indexed : nat * ProcessingResult.t) : FrameworkAction.t :=
  let '(index, result) := indexed in
  {| FrameworkAction.type := if ProcessingResult.success result
                             then ActionType.publish else ActionType.error;
     FrameworkAction.target :=
       match activeConnections !! index with
       | Some connection =>
           if truthyStr (FrontendConnection.name connection)
           then show (FrontendConnection.name connection)
           else "unknown"
       | None => "unknown"
       end;
     FrameworkAction.parameters :=
       [("success", JBool (ProcessingResult.success result));
        ("execution_time", JNum (ProcessingResult.execution_time result));
        ("api_calls_count",
         JNum (Z.of_nat (length (ProcessingResult.api_requests result))))];
     FrameworkAction.priority := if ProcessingResult.success result
                                 then Priority.medium else Priority.high;
     FrameworkAction.dependencies := [actionName (actionId - 1)];
     FrameworkAction.id := actionName actionId |}.

(** One [forEach] loop: an action per element, the counter going up by
    one each time. *)
Fixpoint pushEach {A} (mk : Z -> A -> FrameworkAction.t) (actionId : Z) (l : list A)
    : list FrameworkAction.t * Z :=
  match l with
  | [] => ([], actionId)
  | x :: rest =>
      let '(actions, actionId') := pushEach mk (actionId + 1) rest in
      (mk actionId x :: actions, actionId')
  end.

Definition generateActions (activeConnections : list FrontendConnection.t)
    (transformedContents : list (string * list (string * JsVal)))
    (results : list ProcessingResult.t) : list FrameworkAction.t :=
  let actionId := 1 in
  let '(connects, actionId) := pushEach connectAction actionId activeConnections in
  let '(transforms, actionId) := pushEach transformAction actionId transformedContents in
  let '(publishes, actionId) :=
    pushEach (publishAction activeConnections) actionId
             (imap (fun index result => (index, result)) results) in
  connects ++ transforms ++ publishes.

End Controller.

(** ** Inputs used to run the services *)

Module Examples.

Definition blogPost : EmailInterpretation.EmailData :=
  {| EmailInterpretation.subject := "New Blog Post: X";
     EmailInterpretation.body := "content #blog priority: high publish now";
     EmailInterpretation.attachments := [];
     EmailInterpretation.sender := "editor@example.com";
     EmailInterpretation.timestamp := "2024-01-01T00:00:00.000Z" |}.

(** The same body under another subject. *)
Definition productNote : EmailInterpretation.EmailData :=
  {| EmailInterpretation.subject := "Product listing";
     EmailInterpretation.body := "content #blog priority: high publish now";
     EmailInterpretation.attachments := [];
     EmailInterpretation.sender := "editor@example.com";
     EmailInterpretation.timestamp := "2024-01-01T00:00:00.000Z" |}.

(** A log holding one error of the publishing service. *)
Definition publishFailure : SystemError.t :=
  {| SystemError.timestamp := "2024-01-01T00:00:01.000Z";
     SystemError.error := "Failed to execute request to blog: HTTP 500: Internal Server Error";
     SystemError.severity := Severity.high;
     SystemError.component := "PublishingExecutionService";
     SystemError.resolved := false |}.

Definition oneLogged : ErrorHandling.Fields :=
  ErrorHandling.setErrors [0%nat] (ErrorHandling.construct [publishFailure]).

(** A host whose clock advances by one millisecond per reading and whose
    network refuses every connection. *)
Definition deadNetwork : Env :=
  {| clock := fun k => 1700000000000 + Z.of_nat k;
     toISOString := fun t => "T" +:+ numToString t;
     network := fun _ => Rejected "connect ECONNREFUSED";
     random36 := fun _ => "k3j9x0q2m";
     urlParses := startsWith "http" |}.

(** Four errors of the coordinator itself, three of them in the log. *)
Definition recoveryFailure (k : Z) : SystemError.t :=
  {| SystemError.timestamp := "T" +:+ numToString k;
     SystemError.error := "Recovery failed for FrontendConnectionService: refused";
     SystemError.severity := Severity.high;
     SystemError.component := "ErrorHandlingService";
     SystemError.resolved := false |}.

Definition threeLogged : ErrorHandling.Fields :=
  ErrorHandling.setErrors [0%nat; 1%nat; 2%nat]
    (ErrorHandling.construct [recoveryFailure 0; recoveryFailure 1;
                              recoveryFailure 2; recoveryFailure 3]).

(** A host that answers every request with 200 OK. *)
Definition openNetwork : Env :=
  {| clock := fun k => 1700000000000 + Z.of_nat k;
     toISOString := fun t => "T" +:+ numToString t;
     network := fun _ => Responded {| ok := true; status := 200; statusText := "OK";
                                      text := "{}" |};
     random36 := fun _ => "k3j9x0q2m";
     urlParses := startsWith "http" |}.

(** A host that refuses the second to the ninth fetch; a publish run over
    three destinations, one request each, spends these on the second
    destination and its whole recovery chain. *)
Definition secondDestinationDown : Env :=
  {| clock := fun k => 1700000000000 + Z.of_nat k;
     toISOString := fun t => "T" +:+ numToString t;
     network := fun k => if ((1 <=? k) && (k <=? 8))%nat
                         then Rejected "connect ECONNREFUSED"
                         else Responded {| ok := true; status := 200; statusText := "OK";
                                           text := "{}" |};
     random36 := fun _ => "k3j9x0q2m";
     urlParses := startsWith "http" |}.

Definition article : ProcessedContent.t :=
  {| ProcessedContent.type := "article";
     ProcessedContent.intent := "immediate";
     ProcessedContent.target_frontends := ["all"];
     ProcessedContent.content := JObj [("title", JStr "X"); ("body", JStr "content")];
     ProcessedContent.media := [] |}.

(** The same content, kept as a draft. *)
Definition draft : ProcessedContent.t :=
  {| ProcessedContent.type := "article";
     ProcessedContent.intent := "draft";
     ProcessedContent.target_frontends := ["all"];
     ProcessedContent.content := JObj [("title", JStr "X"); ("body", JStr "content")];
     ProcessedContent.media := [] |}.

(** A status update, to be published at once. *)
Definition notice : ProcessedContent.t :=
  {| ProcessedContent.type := "update";
     ProcessedContent.intent := "immediate";
     ProcessedContent.target_frontends := ["all"];
     ProcessedContent.content := JObj [("title", JStr "X"); ("body", JStr "content")];
     ProcessedContent.media := [] |}.

Definition destination (name : string) : FrontendConnection.t :=
  {| FrontendConnection.name := Some name;
     FrontendConnection.api_endpoint := Some ("https://" +:+ name +:+ ".example.com/");
     FrontendConnection.auth_type := Some "api_key";
     FrontendConnection.credentials := Some "secret";
     FrontendConnection.api_schema := Some "";
     FrontendConnection.is_active := true;
     FrontendConnection.last_used := None |}.

Definition threeDestinations : list FrontendConnection.t :=
  [destination "site"; destination "blog"; destination "portal"].

Definition twoSchemas : gmap string FrontendSchema.t :=
  <["blog" := Connection.createDefaultSchema (Some "blog")]>
  (<["site" := Connection.createDefaultSchema (Some "site")]> ∅).

Definition threeSchemas : gmap string FrontendSchema.t :=
  <["portal" := Connection.createDefaultSchema (Some "portal")]> twoSchemas.

(** A request body that is the content as it stands. *)
Definition plainBody (processedContent : ProcessedContent.t) (endpoint : ApiEndpoint.t)
    : Result JsVal :=
  Ok (ProcessedContent.content processedContent).

(** A schema parser and a JSON codec that accept nothing. *)
Definition noParser (document : string) : Result FrontendSchema.t :=
  Throw "Failed to parse OpenAPI spec: Unexpected end of JSON input".
Definition noJson (document : string) : Result JsVal :=
  Throw "Unexpected end of JSON input".
Definition noStringify (v : JsVal) : string := "".

(** A destination without credentials. *)
Definition noCredentials : FrontendConnection.t :=
  {| FrontendConnection.name := Some "site";
     FrontendConnection.api_endpoint := Some "https://site.example.com/";
     FrontendConnection.auth_type := Some "api_key";
     FrontendConnection.credentials := None;
     FrontendConnection.api_schema := Some "";
     FrontendConnection.is_active := false;
     FrontendConnection.last_used := None |}.

(** A message in capitals. *)
Definition shouted (e : EmailInterpretation.EmailData) : EmailInterpretation.EmailData :=
  {| EmailInterpretation.subject := toUpperCase (EmailInterpretation.subject e);
     EmailInterpretation.body := toUpperCase (EmailInterpretation.body e);
     EmailInterpretation.attachments := EmailInterpretation.attachments e;
     EmailInterpretation.sender := EmailInterpretation.sender e;
     EmailInterpretation.timestamp := EmailInterpretation.timestamp e |}.

(** A strategy that always throws, registered for the publishing service
    in place of the built-in one. *)
Definition failingStrategy : ErrorHandling.RecoveryStrategy :=
  {| ErrorHandling.name := "Failing Recovery";
     ErrorHandling.recover := fun E error context => throw "refused" |}.

Definition oneLoggedFailing : ErrorHandling.Fields :=
  ErrorHandling.addRecoveryStrategy "PublishingExecutionService" failingStrategy oneLogged.

End Examples.

(** ** Vocabulary of the specification of the error coordinator *)

Module ErrorSpec.
Import ErrorHandling.

(** The "pause system" action raised for [component]. *)
Definition isPause (component : string) (a : FrameworkAction.t) : Prop :=
  FrameworkAction.type a = ActionType.error
  /\ FrameworkAction.target a = "system"
  /\ FrameworkAction.priority a = Priority.high
  /\ assocGet "action" (FrameworkAction.parameters a) = Some (JStr "pause_system")
  /\ assocGet "error" (FrameworkAction.parameters a)
     = Some (JStr ("Error threshold exceeded for " +:+ component +:+ ". System paused.")).

(** The notification to the administrator that carries [recent]. *)
Definition isAdminNotification (recent : list SystemError.t) (a : FrameworkAction.t) : Prop :=
  FrameworkAction.type a = ActionType.notify
  /\ FrameworkAction.target a = "admin"
  /\ FrameworkAction.priority a = Priority.high
  /\ exists count threshold,
       assocGet "details" (FrameworkAction.parameters a)
       = Some (JObj [("error_count", count); ("threshold", threshold);
                     ("recent_errors", JArr (map SystemError.toJs recent))]).

(** The last five entries of a list (all of them, if there are fewer). *)
Definition lastFive {A} (l : list A) : list A := drop (length l - 5) l.

(** Priority by severity: high for critical and high, medium for medium,
    low otherwise. *)
Definition priorityOf (severity : Severity.t) : Priority.t :=
  match severity with
  | Severity.critical | Severity.high => Priority.high
  | Severity.medium => Priority.medium
  | _ => Priority.low
  end.

(** The generic error notification for [e]. *)
Definition isErrorNotification (e : SystemError.t) (context : JsVal)
    (a : FrameworkAction.t) : Prop :=
  FrameworkAction.type a = ActionType.error
  /\ FrameworkAction.target a = "system"
  /\ FrameworkAction.priority a = priorityOf (SystemError.severity e)
  /\ FrameworkAction.parameters a
     = [("error", JStr (SystemError.error e));
        ("component", JStr (SystemError.component e));
        ("severity", JStr (Severity.toString (SystemError.severity e)));
        ("context", context)].

(** What the strategy registered for the component of [e], if any, yields
    when run in world [w]: nothing if there is none or if it throws. *)
Definition strategyYield (E : Env) (s : Fields) (e : SystemError.t) (context : JsVal)
    (w : World) : list FrameworkAction.t :=
  match recoveryStrategies s !! SystemError.component e with
  | None => []
  | Some strategy =>
      match recover strategy E e context (tt, w) with
      | (Ok actions, _) => actions
      | (Throw _, _) => []
      end
  end.

(** The object behind a reference keeps its message, component and
    severity. *)
Definition sameError (e e' : SystemError.t) : Prop :=
  SystemError.error e' = SystemError.error e
  /\ SystemError.component e' = SystemError.component e
  /\ SystemError.severity e' = SystemError.severity e.

(** The service with another table of strategies. *)
Definition withStrategies (strategies : gmap string RecoveryStrategy) (s : Fields) : Fields :=
  {| objects := objects s; errors := errors s;
     recoveryStrategies := strategies; errorThresholds := errorThresholds s |}.

(** The keywords that each built-in strategy looks for in the message of
    an error, by component, each with the name of the action that it
    triggers. *)
Definition builtinKeywords : list (string * list (string * string)) :=
  [("EmailInterpretationService",
    [("classification", "retry_classification"); ("attachment", "retry_without_attachments")]);
   ("FrontendConnectionService",
    [("authentication", "retry_with_alt_auth"); ("connection", "retry_with_extended_timeout")]);
   ("ContentTransformationService",
    [("transformation", "retry_with_defaults"); ("mapping", "use_fallback_mapping")]);
   ("PublishingExecutionService",
    [("HTTP", "retry_with_backoff"); ("timeout", "retry_with_timeout");
     ("validation", "retry_simplified")])].

(** What [resolveError] compares: timestamp and component. *)
Definition matches (objs : list SystemError.t) (errorTimestamp component : string)
    (a : nat) : bool :=
  String.eqb (SystemError.timestamp (deref objs a)) errorTimestamp
  && String.eqb (SystemError.component (deref objs a)) component.

(** The errors of [logged] that belong to [component]. *)
Definition ofGroup (component : string) (logged : list SystemError.t) : list SystemError.t :=
  List.filter (fun e => String.eqb (SystemError.component e) component) logged.

(** The entry that [byComponent] has for a component with these errors. *)
Definition groupOf (members : list SystemError.t) : option Group :=
  match members with
  | [] => None
  | _ :: _ =>
      Some {| groupTotal := length members;
              groupResolved := length (List.filter SystemError.resolved members);
              groupUnresolved :=
                length (List.filter (fun e => negb (SystemError.resolved e)) members) |}
  end.

(** The entry after counting [members] on top of an entry [g]. *)
Definition addGroup (g : option Group) (members : list SystemError.t) : option Group :=
  match members with
  | [] => g
  | _ :: _ =>
      let g0 := default {| groupTotal := 0; groupResolved := 0; groupUnresolved := 0 |} g in
      Some {| groupTotal := groupTotal g0 + length members;
              groupResolved := groupResolved g0
                               + length (List.filter SystemError.resolved members);
              groupUnresolved :=
                groupUnresolved g0
                + length (List.filter (fun e => negb (SystemError.resolved e)) members) |}
  end.

End ErrorSpec.

(** ** Vocabulary of the specification of the publisher's recovery chain *)

Module PublishSpec.

(** A fetch that did not come back with an ok response. *)
Definition failed (o : FetchOutcome) : bool :=
  match o with
  | Responded response => negb (ok response)
  | Rejected _ => true
  end.

(** Rounds are tried in order, against a host whose next fetch is its
    [n]-th, one fetch per round, until one does not fail: [performed] are
    the rounds tried, [exhausted] says that all were tried and failed. *)
Fixpoint performed {A} (E : Env) (n : nat) (rounds : list A) : list A :=
  match rounds with
  | [] => []
  | round :: rest => round :: (if failed (network E n) then performed E (S n) rest else [])
  end.

Fixpoint exhausted {A} (E : Env) (n : nat) (rounds : list A) : bool :=
  match rounds with
  | [] => true
  | _ :: rest => failed (network E n) && exhausted E (S n) rest
  end.

(** The request as [fetch] gets it, with 30 seconds of timeout. *)
Definition sent (request : APIRequest.t) (headers : list (string * string)) (body : JsVal)
    : Event :=
  Fetch {| Host.url := APIRequest.url request; Host.method := APIRequest.method request;
           Host.headers := headers; Host.body := Some body; Host.timeout := Some 30000 |}.

Definition resent (request : APIRequest.t) : Event :=
  sent request (APIRequest.headers request) (APIRequest.body request).

(** Backoff: the identical request after 1 s, after 3 s more, after 5 s
    more. *)
Definition backoffRounds (request : APIRequest.t) : list (list Event) :=
  [[Sleep 1000; resent request]; [Sleep 3000; resent request]; [Sleep 5000; resent request]].

(** Alternative authentication: the same body under three other sets of
    headers. *)
Definition alternativeAuthRounds (request : APIRequest.t) (connection : FrontendConnection.t)
    : list (list Event) :=
  map (fun header =>
         [sent request (Publishing.alternativeHeaders request connection header)
               (APIRequest.body request)])
      ["X-API-Key"; "Authorization"; "Authorization"].

(** Simplified content: the same headers, the body cut down. *)
Definition simplifiedRound (request : APIRequest.t) : list Event :=
  [sent request (APIRequest.headers request)
        (Publishing.simplifiedBody (APIRequest.body request))].

(** The chain: backoff; alternative authentication only once backoff is
    exhausted; simplified content only once that is exhausted too. *)
Definition recoveryChain (E : Env) (n : nat) (request : APIRequest.t)
    (connection : FrontendConnection.t) : list Event :=
  concat (performed E n (backoffRounds request))
  ++ (if exhausted E n (backoffRounds request)
      then concat (performed E (n + 3) (alternativeAuthRounds request connection))
           ++ (if exhausted E (n + 3) (alternativeAuthRounds request connection)
               then simplifiedRound request
               else [])
      else []).

(** What of a trace goes to the timer and the network. *)
Definition networkEvents (events : list Event) : list Event :=
  List.filter (fun ev => match ev with Sleep _ | Fetch _ => true | _ => false end) events.

(** A fetch that was refused outright, without any response. *)
Definition rejected (o : FetchOutcome) : bool :=
  match o with
  | Rejected _ => true
  | Responded _ => false
  end.

(** No round of the recovery chain recovers, against a host whose next
    fetch is its [n]-th: the six resends fail and the simplified request is
    refused outright. *)
Definition unrecovered (E : Env) (n : nat) : bool :=
  forallb (fun k => failed (network E k)) (seq n 6) && rejected (network E (n + 6)).

(** An entry of the service's own error list. *)
Definition ownError (e : SystemError.t) : Prop :=
  SystemError.component e = "PublishingExecutionService"
  /\ SystemError.resolved e = false
  /\ (SystemError.severity e = Severity.high \/ SystemError.severity e = Severity.critical).

(** A computation that leaves the fields, the network and the trace of
    effects alone, and whose result, if it returns one, satisfies [P]. *)
Definition quietly {A} (P : A -> Prop) (m : M Publishing.Fields A) : Prop :=
  forall s w,
    exists r w',
      m (s, w) = (r, (s, w')) /\ trace w' = trace w /\ fetches w' = fetches w
      /\ match r with
         | Ok a => P a
         | Throw _ => True
         end.

End PublishSpec.

(** ** Vocabulary of the specification of the connection manager *)

Module ConnectionSpec.

(** A field that is [undefined] or the empty string. *)
Definition absent (field : option string) : Prop := field = None \/ field = Some "".

(** A destination that validation turns down: a required field is absent,
    the auth type is none of the three, or the URL does not parse. *)
Definition invalid (E : Env) (connection : FrontendConnection.t) : Prop :=
  absent (FrontendConnection.name connection)
  \/ absent (FrontendConnection.api_endpoint connection)
  \/ absent (FrontendConnection.auth_type connection)
  \/ absent (FrontendConnection.credentials connection)
  \/ (exists auth_type, FrontendConnection.auth_type connection = Some auth_type
                        /\ ~ In auth_type ["oauth2"; "api_key"; "jwt"])
  \/ (exists api_endpoint, FrontendConnection.api_endpoint connection = Some api_endpoint
                           /\ urlParses E api_endpoint = false).

(** The paths that [discoverSchemaByProbing] asks for. *)
Definition commonEndpoints : list string :=
  ["/api/articles"; "/api/posts"; "/api/products"; "/api/content"; "/api/items"].

(** Of the paths probed from the host's [n]-th fetch on, one fetch each,
    those answered with an ok response. *)
Fixpoint answered (E : Env) (n : nat) (paths : list string) : list string :=
  match paths with
  | [] => []
  | path :: rest =>
      (if PublishSpec.failed (network E n) then [] else [path]) ++ answered E (S n) rest
  end.

(** A destination whose [api_schema] is neither a URL nor a JSON document
    (or is missing). *)
Definition undeclared (connection : FrontendConnection.t) : Prop :=
  match FrontendConnection.api_schema connection with
  | None => True
  | Some api_schema => startsWith "http" api_schema = false
                       /\ startsWith "{" api_schema = false
  end.

(** The check of [validateConnection] as one boolean. *)
Definition passes (E : Env) (connection : FrontendConnection.t) : bool :=
  truthyStr (FrontendConnection.name connection)
  && truthyStr (FrontendConnection.api_endpoint connection)
  && truthyStr (FrontendConnection.auth_type connection)
  && truthyStr (FrontendConnection.credentials connection)
  && arrIncludes (show (FrontendConnection.auth_type connection)) ["oauth2"; "api_key"; "jwt"]
  && urlParses E (show (FrontendConnection.api_endpoint connection)).

End ConnectionSpec.


(** * Properties *)

(** ** Classification *)

Section Classification.
Import EmailInterpretation.

(** C2, as the specification has it, does not hold: the body of the
    scenario's message contains the frontend keyword "blog" (in "#blog"),
    so the target list is not the sentinel. *)
Lemma blog_post_targets_not_all :
  ~ (type (interpretEmail Examples.blogPost) = "article"
     /\ intent (interpretEmail Examples.blogPost) = "immediate"
     /\ target_frontends (interpretEmail Examples.blogPost) = ["all"]).
Proof.
  intros (_ & _ & Htargets).
  vm_compute in Htargets.
  discriminate Htargets.
Qed.

(** C2, amended: the message with subject "New Blog Post: X" and body
    "content #blog priority: high publish now" is classified as an article
    with immediate intent, targeted at the frontend "blog". *)
Theorem blog_post_classification :
  type (interpretEmail Examples.blogPost) = "article"
  /\ intent (interpretEmail Examples.blogPost) = "immediate"
  /\ target_frontends (interpretEmail Examples.blogPost) = ["blog"].
Proof. repeat split; vm_compute; reflexivity. Qed.

(** C9: intent and target frontends are functions of the body alone: two
    messages with the same body get the same intent and the same target
    list, whatever their subjects (and senders, attachments, timestamps). *)
Theorem intent_and_targets_depend_on_body_only (e1 e2 : EmailData) :
  body e1 = body e2 ->
  intent (interpretEmail e1) = intent (interpretEmail e2)
  /\ target_frontends (interpretEmail e1) = target_frontends (interpretEmail e2).
Proof.
  intros Hbody. unfold interpretEmail; cbn [intent target_frontends].
  rewrite Hbody. split; reflexivity.
Qed.

Lemma intent_and_targets_depend_on_body_only_witness :
  subject Examples.blogPost <> subject Examples.productNote
  /\ intent (interpretEmail Examples.blogPost) = intent (interpretEmail Examples.productNote)
  /\ target_frontends (interpretEmail Examples.blogPost)
     = target_frontends (interpretEmail Examples.productNote).
Proof.
  split; [discriminate |].
  apply (intent_and_targets_depend_on_body_only Examples.blogPost Examples.productNote).
  reflexivity.
Defined.

(** The subject does reach the content type: the same body is an
    announcement under one subject and a product under another. *)
Example subject_changes_type :
  classifyContentType {| subject := "Company news"; body := "see attached";
                         attachments := []; sender := ""; timestamp := "" |}
  = "announcement"
  /\ classifyContentType {| subject := "Product sheet"; body := "see attached";
                            attachments := []; sender := ""; timestamp := "" |}
     = "product".
Proof. split; vm_compute; reflexivity. Qed.

End Classification.

(** ** Overall status *)

Section OverallStatus.
Import Controller.

Lemma filter_all_length {A} (p : A -> bool) (l : list A) :
  length (List.filter p l) = length l <-> Forall (fun x => p x = true) l.
Proof.
  induction l as [| x l IH]; cbn.
  - split; [constructor | reflexivity].
  - pose proof (List.filter_length_le p l) as Hle.
    destruct (p x) eqn:Hx; cbn.
    + split.
      * intros H. constructor; [exact Hx | apply IH; lia].
      * intros H. inversion H; subst. f_equal. apply IH. assumption.
    + split.
      * intros H. lia.
      * intros H. inversion H; subst. congruence.
Qed.

Lemma filter_none_length {A} (p : A -> bool) (l : list A) :
  length (List.filter p l) = 0%nat <-> Forall (fun x => p x = false) l.
Proof.
  induction l as [| x l IH]; cbn.
  - split; [constructor | reflexivity].
  - destruct (p x) eqn:Hx; cbn.
    + split; [discriminate |]. intros H. inversion H; subst. congruence.
    + split.
      * intros H. constructor; [exact Hx | apply IH; exact H].
      * intros H. inversion H; subst. apply IH. assumption.
Qed.

Context {I C T : Type}.
Variable interpretationResult : StageResult I.
Variable connectionResult : StageResult C.
Variable transformationResult : StageResult T.
Variable publishingResult : StageResult (list ProcessingResult.t).

(** The error count over the four stages. *)
Let totalErrors : nat :=
  (length (errors interpretationResult) + length (errors connectionResult)
   + length (errors transformationResult) + length (errors publishingResult))%nat.

Let status : OverallStatus :=
  determineOverallStatus interpretationResult connectionResult
                         transformationResult publishingResult.

(** C4: the overall status is [success] exactly when no stage reported an
    error and every publish attempt succeeded, [failure] exactly when no
    publish attempt succeeded and the stages reported at least three
    errors, and [partial_success] in every other case. *)
Theorem overall_status_cases :
  (status = success <->
     totalErrors = 0%nat
     /\ Forall (fun r => ProcessingResult.success r = true) (product publishingResult))
  /\ (status = failure <->
        Forall (fun r => ProcessingResult.success r = false) (product publishingResult)
        /\ (3 <= totalErrors)%nat)
  /\ (status = partial_success <->
        ~ (totalErrors = 0%nat
           /\ Forall (fun r => ProcessingResult.success r = true) (product publishingResult))
        /\ ~ (Forall (fun r => ProcessingResult.success r = false) (product publishingResult)
              /\ (3 <= totalErrors)%nat)).
Proof.
  subst status totalErrors. unfold determineOverallStatus. cbn [fold_left Nat.add].
  rewrite <- (filter_all_length ProcessingResult.success),
          <- (filter_none_length ProcessingResult.success).
  set (n := (length (errors interpretationResult) + length (errors connectionResult)
             + length (errors transformationResult) + length (errors publishingResult))%nat).
  set (k := length (List.filter ProcessingResult.success (product publishingResult))).
  set (m := length (product publishingResult)).
  assert (k <= m)%nat as Hkm by apply List.filter_length_le.
  destruct (Nat.eqb_spec n 0), (Nat.eqb_spec k m), (Nat.ltb_spec 0 k), (Nat.ltb_spec n 3);
    cbn [andb orb];
    intuition (try discriminate; try lia).
Qed.

End OverallStatus.

(** ** The error log *)

Section ErrorLog.
Import ErrorHandling.

Lemma filter_sublist {A} (p : A -> bool) (l : list A) : sublist (List.filter p l) l.
Proof.
  induction l as [| x l IH]; cbn.
  - constructor.
  - destruct (p x); [apply sublist_skip | apply sublist_cons]; exact IH.
Qed.

Lemma filter_count_occ (p : nat -> bool) (l : list nat) (a : nat) :
  count_occ Nat.eq_dec (List.filter p l) a
  = if p a then count_occ Nat.eq_dec l a else 0%nat.
Proof.
  induction l as [| x l IH]; cbn.
  - destruct (p a); reflexivity.
  - destruct (p x) eqn:Hx; cbn; destruct (Nat.eq_dec x a) as [-> | Hne].
    + rewrite IH, Hx. reflexivity.
    + exact IH.
    + rewrite IH, Hx. reflexivity.
    + exact IH.
Qed.

(** C10, as the specification has it, does not hold for the empty string:
    [clearErrors("")] takes the branch of the call without argument and
    drops the error of the publishing service as well, which the claim
    keeps. *)
Lemma clear_empty_name_drops_other_components :
  ~ (errors (clearErrors (Some "") Examples.oneLogged)
     = List.filter
         (fun a => negb (String.eqb (SystemError.component
                                       (deref (objects Examples.oneLogged) a)) ""))
         (errors Examples.oneLogged)).
Proof. vm_compute. discriminate. Qed.

(** C10, amended: for a component name other than the empty string,
    [clearErrors(component)] removes exactly the log entries whose object
    has that component: what remains is a subsequence of the old log (so
    relative order is kept), every entry of another component remains as
    often as it occurred, no entry of [component] remains, and no error
    object, strategy or threshold is touched. [clearErrors()] without
    argument, like [clearErrors("")], empties the log. *)
Theorem clearErrors_removes_component (s : Fields) (component : string) :
  component <> "" ->
  let s' := clearErrors (Some component) s in
  (objects s' = objects s
   /\ recoveryStrategies s' = recoveryStrategies s
   /\ errorThresholds s' = errorThresholds s)
  /\ sublist (errors s') (errors s)
  /\ (forall a : nat,
        count_occ Nat.eq_dec (errors s') a
        = if String.eqb (SystemError.component (deref (objects s) a)) component
          then 0%nat
          else count_occ Nat.eq_dec (errors s) a)
  /\ errors (clearErrors None s) = []
  /\ errors (clearErrors (Some "") s) = [].
Proof.
  intros Hne. cbn zeta.
  assert (truthyStr (Some component) = true) as Htruthy.
  { cbn. destruct (String.eqb_spec component ""); [contradiction | reflexivity]. }
  unfold clearErrors. rewrite Htruthy. cbn [setErrors objects errors recoveryStrategies
                                            errorThresholds truthyStr show default].
  repeat split.
  - apply filter_sublist.
  - intros a. rewrite filter_count_occ. unfold id.
    destruct (String.eqb _ component); reflexivity.
Qed.

Lemma clearErrors_removes_component_witness :
  "FrontendConnectionService" <> ""
  /\ sublist (errors (clearErrors (Some "FrontendConnectionService") Examples.oneLogged))
             (errors Examples.oneLogged)
  /\ count_occ Nat.eq_dec
       (errors (clearErrors (Some "FrontendConnectionService") Examples.oneLogged)) 0%nat
     = 1%nat.
Proof.
  assert ("FrontendConnectionService" <> "") as Hne by discriminate.
  destruct (clearErrors_removes_component Examples.oneLogged _ Hne)
    as (_ & Hsub & Hcount & _).
  split; [exact Hne |]. split; [exact Hsub |].
  rewrite Hcount. reflexivity.
Defined.

End ErrorLog.

(** ** The error coordinator *)

Section ErrorCoordinator.
Import ErrorHandling ErrorSpec.

(** The run of [logError]. *)
Lemma logError_run (error : nat) (context : JsVal) (s : Fields) (w : World) :
  exists kept w',
    logError error context (s, w) = (Ok tt, (setErrors kept s, w'))
    /\ kept = (if (1000 <? length (errors s ++ [error]))%nat
               then sliceFrom (-1000) (errors s ++ [error])
               else errors s ++ [error]).
Proof.
  unfold logError, bind, getFields, setFields, consoleError, emit, ret. cbn.
  destruct (truthy context); eauto.
Qed.

Lemma handleThresholdExceeded_run (E : Env) (error : nat) (s : Fields) (w : World) :
  exists pause notification w',
    handleThresholdExceeded E error (s, w) = (Ok [pause; notification], (s, w'))
    /\ isPause (SystemError.component (deref (objects s) error)) pause
    /\ isAdminNotification
         (map (deref (objects s))
              (getRecentErrors s (SystemError.component (deref (objects s) error)) 5))
         notification
    /\ fetches w' = fetches w /\ trace w' = trace w.
Proof.
  unfold handleThresholdExceeded, bind, getFields, dateNow, ret. cbn.
  do 3 eexists. split; [reflexivity |].
  split; [| split; [| split; reflexivity]].
  - repeat split.
  - repeat split. do 2 eexists. cbn. rewrite map_map. reflexivity.
Qed.

Lemma deref_insert_same (objs : list SystemError.t) (a : nat) (e : SystemError.t) :
  (a < length objs)%nat -> deref (<[a := e]> objs) a = e.
Proof. intros H. unfold deref. rewrite list_lookup_insert_eq by exact H. reflexivity. Qed.

Lemma deref_app_l (objs extra : list SystemError.t) (a : nat) :
  (a < length objs)%nat -> deref (objs ++ extra) a = deref objs a.
Proof. intros H. unfold deref. rewrite lookup_app_l by exact H. reflexivity. Qed.

Lemma updateErrorStatus_run (error : nat) (s : Fields) (w : World) :
  exists l, updateErrorStatus error (s, w) = (Ok tt, (setErrors l s, w))
            /\ length l = length (errors s).
Proof.
  unfold updateErrorStatus, bind, getFields, setFields, ret. cbn.
  destruct (findIndex _ (errors s)) as [i |]; cbn.
  - eexists. split; [reflexivity |]. apply length_insert.
  - exists (errors s). destruct s; split; reflexivity.
Qed.

Local Opaque updateErrorStatus logError.

Lemma attemptRecovery_run (E : Env) (error : nat) (context : JsVal) (s : Fields) (w : World) :
  (error < length (objects s))%nat ->
  exists s' w',
    attemptRecovery E error context (s, w)
    = (Ok (strategyYield E s (deref (objects s) error) context w), (s', w'))
    /\ sameError (deref (objects s) error) (deref (objects s') error).
Proof.
  intros Hin. unfold attemptRecovery, strategyYield, bind at 1, getFields. cbn [fst snd].
  destruct (recoveryStrategies s !! _) as [strategy |].
  - unfold tryCatch, hosted, bind at 1. cbn [fst snd].
    destruct (recover strategy E _ context (tt, w)) as [[actions | msg] [[] w1]].
    + destruct actions as [| a actions]; cbn.
      * do 2 eexists. split; [reflexivity |]. repeat split.
      * unfold bind, getFields, setFields, ret. cbn.
        destruct (updateErrorStatus_run error
                    (setObjects (<[error:=SystemError.markResolved (deref (objects s) error)]>
                                   (objects s)) s) w1) as (l & Hrun & _).
        rewrite Hrun. do 2 eexists. split; [reflexivity |].
        cbn. rewrite deref_insert_same by exact Hin. repeat split.
    + unfold bind, getFields, isoNow, allocate, bind, getFields, setFields, dateNow, ret. cbn.
      destruct (logError_run (length (objects s))
                  (JObj [("originalError", SystemError.toJs (deref (objects s) error))])
                  (setObjects (objects s ++ [{|
                       SystemError.timestamp := toISOString E (clock E (clockReads w1));
                       SystemError.error := "Recovery failed for "
                          +:+ SystemError.component (deref (objects s) error) +:+ ": " +:+ msg;
                       SystemError.severity := Severity.high;
                       SystemError.component := "ErrorHandlingService";
                       SystemError.resolved := false |}]) s)
                  {| clockReads := S (clockReads w1); fetches := fetches w1;
                     randoms := randoms w1; trace := trace w1 |}) as (kept & w' & Hrun & _).
      rewrite Hrun. do 2 eexists. split; [reflexivity |].
      cbn. rewrite deref_app_l by exact Hin. repeat split.
  - unfold ret. do 2 eexists. split; [reflexivity |]. repeat split.
Qed.

Lemma sliceFrom_negative {A} (n : Z) (l : list A) :
  0 < n -> sliceFrom (- n) l = drop (length l - Z.to_nat n) l.
Proof.
  intros Hn. unfold sliceFrom.
  destruct (Z.ltb_spec (- n) 0); [| lia].
  f_equal. lia.
Qed.

Lemma getRecentErrors_five (s : Fields) (component : string) :
  getRecentErrors s component 5 = lastFive (ofComponent s component).
Proof. unfold getRecentErrors, lastFive. rewrite sliceFrom_negative by lia. reflexivity. Qed.

Lemma getErrorPriority_by_severity (severity : Severity.t) :
  getErrorPriority (Severity.toString severity) = priorityOf severity.
Proof. destruct severity; reflexivity. Qed.

Local Opaque handleThresholdExceeded attemptRecovery.

(** C8: [handleError] always returns a non-empty list of actions. If the
    threshold of the error's component is reached (the error just logged
    included), these are exactly the pause action and the administrator's
    notification; otherwise, if the strategy registered for the component
    yields actions, exactly those; and in every other case (no strategy,
    none yielded, or the strategy threw) exactly one error notification,
    whose priority is high for a critical or high severity, medium for
    medium, and low otherwise. *)
Theorem handleError_actions (E : Env) (s : Fields) (w : World)
    (error : nat) (context : JsVal) :
  (error < length (objects s))%nat ->
  let e := deref (objects s) error in
  let logged := snd (logError error context (s, w)) in
  exists actions final,
    handleError E error context (s, w) = (Ok actions, final)
    /\ actions <> []
    /\ if isErrorThresholdExceeded (fst logged) (SystemError.component e)
       then exists pause notification,
              actions = [pause; notification]
              /\ isPause (SystemError.component e) pause
              /\ isAdminNotification
                   (map (deref (objects s))
                        (lastFive (ofComponent (fst logged) (SystemError.component e))))
                   notification
       else match strategyYield E (fst logged) e context (snd logged) with
            | [] => exists a, actions = [a] /\ isErrorNotification e context a
            | yielded => actions = yielded
            end.
Proof.
  intros Hin e logged. subst e logged.
  destruct (logError_run error context s w) as (kept & w1 & Hlog & _).
  unfold handleError, bind at 1. rewrite Hlog. cbn [snd fst].
  unfold bind at 1, getFields. cbn [fst snd setErrors objects].
  destruct (isErrorThresholdExceeded _ _).
  - destruct (handleThresholdExceeded_run E error (setErrors kept s) w1)
      as (pause & notification & w2 & Hrun & Hpause & Hnotify & _).
    rewrite Hrun. do 2 eexists. split; [reflexivity |]. split; [discriminate |].
    exists pause, notification. split; [reflexivity |]. split; [exact Hpause |].
    rewrite getRecentErrors_five in Hnotify. exact Hnotify.
  - destruct (attemptRecovery_run E error context (setErrors kept s) w1 Hin)
      as (s2 & w2 & Hrun & Hsame_e & Hsame_c & Hsame_s).
    unfold bind at 1. rewrite Hrun. cbn [setErrors objects] in *.
    destruct (strategyYield E _ _ context w1) as [| a yielded].
    + unfold bind, getFields, dateNow, randomSuffix, ret. cbn.
      do 2 eexists. split; [reflexivity |]. split; [discriminate |].
      eexists. split; [reflexivity |].
      unfold isErrorNotification, mkAction. cbn.
      rewrite Hsame_e, Hsame_c, Hsame_s, getErrorPriority_by_severity. repeat split.
    + cbn. do 2 eexists. split; [reflexivity |]. split; [discriminate |]. reflexivity.
Qed.

Local Transparent handleThresholdExceeded logError.

Lemma logError_strategies (strategies : gmap string RecoveryStrategy)
    (error : nat) (context : JsVal) (s : Fields) (w : World) :
  logError error context (withStrategies strategies s, w)
  = (fst (logError error context (s, w)),
     (withStrategies strategies (fst (snd (logError error context (s, w)))),
      snd (snd (logError error context (s, w))))).
Proof.
  unfold logError, bind, getFields, setFields, consoleError, emit, ret. cbn.
  destruct (truthy context); reflexivity.
Qed.

Lemma handleThresholdExceeded_strategies (E : Env)
    (strategies : gmap string RecoveryStrategy) (error : nat) (s : Fields) (w : World) :
  handleThresholdExceeded E error (withStrategies strategies s, w)
  = (fst (handleThresholdExceeded E error (s, w)),
     (withStrategies strategies (fst (snd (handleThresholdExceeded E error (s, w)))),
      snd (snd (handleThresholdExceeded E error (s, w))))).
Proof. reflexivity. Qed.

Local Opaque handleThresholdExceeded logError.

Lemma count_after_log (s : Fields) (error : nat) (component : string) :
  (length (errors s) <= 1000)%nat ->
  SystemError.component (deref (objects s) error) = component ->
  let pushed := errors s ++ [error] in
  let kept := if (1000 <? length pushed)%nat then sliceFrom (-1000) pushed else pushed in
  (getErrorCount s component < getErrorCount (setErrors kept s) component
   \/ (length (errors s) = 1000%nat
       /\ getErrorCount s component <= getErrorCount (setErrors kept s) component))%nat.
Proof.
  intros Hbound Hc. cbn zeta. unfold getErrorCount, ofComponent. cbn [setErrors objects errors].
  set (p := fun a => String.eqb (SystemError.component (deref (objects s) a)) component).
  assert (p error = true) as Hp by (subst p; cbn; rewrite Hc; apply String.eqb_refl).
  rewrite length_app. cbn [length].
  destruct (Nat.ltb_spec 1000 (length (errors s) + 1)) as [Hfull | Hroom].
  - right. split; [lia |].
    rewrite (sliceFrom_negative 1000) by lia. rewrite length_app. cbn [length].
    replace (length (errors s) + 1 - Z.to_nat 1000)%nat with 1%nat by lia.
    destruct (errors s) as [| x l]; [cbn in Hfull; lia |].
    cbn [app drop]. rewrite drop_0, List.filter_app. cbn [List.filter]. rewrite Hp.
    rewrite length_app. cbn [length]. destruct (p x); cbn [length]; lia.
  - left. rewrite List.filter_app. cbn [List.filter]. rewrite Hp.
    rewrite length_app. cbn [length]. lia.
Qed.

Lemma exceeded_of_count (s : Fields) (component : string) :
  thresholdOf s component <= Z.of_nat (getErrorCount s component) ->
  isErrorThresholdExceeded s component = true.
Proof.
  intros Hcount. unfold isErrorThresholdExceeded, getRecentErrors, getErrorCount in *.
  set (t := thresholdOf s component) in *. set (l := ofComponent s component) in *.
  apply Z.geb_le. unfold sliceFrom.
  destruct (Z.ltb_spec (- t) 0); rewrite length_drop; lia.
Qed.

(** The thresholds that the constructor configures. *)
Lemma configured_thresholds (objs : list SystemError.t) :
  thresholdOf (construct objs) "EmailInterpretationService" = 10
  /\ thresholdOf (construct objs) "FrontendConnectionService" = 5
  /\ thresholdOf (construct objs) "ContentTransformationService" = 8
  /\ thresholdOf (construct objs) "PublishingExecutionService" = 7
  /\ thresholdOf (construct objs) "ErrorHandlingService" = 3.
Proof. repeat split; vm_compute; reflexivity. Qed.

(** C3: once the log (bounded by its 1000 entries) holds as many errors of
    a component as the component's threshold, the next [handleError] for an
    error of that component returns exactly the high-priority pause action
    and the administrator's notification, which carries the last five
    errors of the component, the new one included; the service changes by
    the new log entry only, so that no error object is marked resolved; and
    the outcome is the same whatever strategies are registered: none is
    invoked. *)
Theorem threshold_reached_pauses (E : Env) (s : Fields) (w : World)
    (error : nat) (context : JsVal) :
  let component := SystemError.component (deref (objects s) error) in
  (length (errors s) <= 1000)%nat ->
  thresholdOf s component <= Z.of_nat (getErrorCount s component) ->
  exists pause notification s' w',
    handleError E error context (s, w) = (Ok [pause; notification], (s', w'))
    /\ isPause component pause
    /\ isAdminNotification
         (map (deref (objects s)) (lastFive (ofComponent s' component))) notification
    /\ s' = fst (snd (logError error context (s, w)))
    /\ objects s' = objects s
    /\ (forall strategies,
          handleError E error context (withStrategies strategies s, w)
          = (Ok [pause; notification], (withStrategies strategies s', w'))).
Proof.
  intros component Hbound Hcount.
  destruct (logError_run error context s w) as (kept & w1 & Hlog & Hkept).
  assert (isErrorThresholdExceeded (setErrors kept s) component = true) as Hexceeded.
  { apply exceeded_of_count.
    pose proof (count_after_log s error component Hbound eq_refl) as Hgrow.
    cbn zeta in Hgrow. rewrite <- Hkept in Hgrow.
    change (thresholdOf (setErrors kept s) component) with (thresholdOf s component).
    lia. }
  destruct (handleThresholdExceeded_run E error (setErrors kept s) w1)
    as (pause & notification & w2 & Hrun & Hpause & Hnotify & _).
  rewrite getRecentErrors_five in Hnotify.
  exists pause, notification, (setErrors kept s), w2.
  assert (forall strategies,
            handleError E error context (withStrategies strategies s, w)
            = (Ok [pause; notification], (withStrategies strategies (setErrors kept s), w2)))
    as Hany.
  { intros strategies. unfold handleError, bind at 1.
    rewrite logError_strategies, Hlog. cbn [fst snd].
    unfold bind at 1, getFields. cbn [fst snd withStrategies setErrors objects].
    change (isErrorThresholdExceeded _ _)
      with (isErrorThresholdExceeded (setErrors kept s) component).
    rewrite Hexceeded.
    change {| objects := objects s; errors := kept; recoveryStrategies := strategies;
              errorThresholds := errorThresholds s |}
      with (withStrategies strategies (setErrors kept s)).
    rewrite handleThresholdExceeded_strategies, Hrun. reflexivity. }
  split.
  - specialize (Hany (recoveryStrategies s)).
    replace (withStrategies (recoveryStrategies s) s) with s in Hany by (destruct s; reflexivity).
    rewrite Hany. destruct s; reflexivity.
  - split; [exact Hpause |]. split; [exact Hnotify |].
    split; [rewrite Hlog; reflexivity |]. split; [reflexivity | exact Hany].
Qed.

Lemma handleError_actions_witness :
  (0 < length (objects Examples.oneLogged))%nat
  /\ exists actions final,
       handleError Examples.deadNetwork 0%nat JUndefined (Examples.oneLogged, initialWorld)
       = (Ok actions, final)
       /\ actions <> [].
Proof.
  assert (0 < length (objects Examples.oneLogged))%nat as Hin by (cbn; lia).
  split; [exact Hin |].
  destruct (handleError_actions Examples.deadNetwork Examples.oneLogged initialWorld
              0%nat JUndefined Hin) as (actions & final & Hrun & Hne & _).
  exists actions, final. split; [exact Hrun | exact Hne].
Defined.

Lemma threshold_reached_pauses_witness :
  (length (errors Examples.threeLogged) <= 1000)%nat
  /\ thresholdOf Examples.threeLogged "ErrorHandlingService"
     <= Z.of_nat (getErrorCount Examples.threeLogged "ErrorHandlingService")
  /\ exists pause notification s' w',
       handleError Examples.deadNetwork 3%nat JUndefined (Examples.threeLogged, initialWorld)
       = (Ok [pause; notification], (s', w'))
       /\ objects s' = objects Examples.threeLogged.
Proof.
  assert (length (errors Examples.threeLogged) <= 1000)%nat as Hbound by (cbn; lia).
  assert (thresholdOf Examples.threeLogged "ErrorHandlingService"
          <= Z.of_nat (getErrorCount Examples.threeLogged "ErrorHandlingService")) as Hcount
    by (vm_compute; discriminate).
  split; [exact Hbound |]. split; [exact Hcount |].
  destruct (threshold_reached_pauses Examples.deadNetwork Examples.threeLogged initialWorld
              3%nat JUndefined Hbound Hcount)
    as (pause & notification & s' & w' & Hrun & _ & _ & _ & Hobjects & _).
  exists pause, notification, s', w'. split; [exact Hrun | exact Hobjects].
Defined.

Local Transparent updateErrorStatus logError handleThresholdExceeded attemptRecovery.

End ErrorCoordinator.

(** ** The bound of the error log *)

Section LogBound.
Import ErrorHandling ErrorSpec.

Lemma logError_bounded (error : nat) (context : JsVal) (s : Fields) (w : World) :
  (length (errors (fst (snd (logError error context (s, w))))) <= 1000)%nat.
Proof.
  destruct (logError_run error context s w) as (kept & w' & Hrun & Hkept).
  rewrite Hrun. cbn [fst snd setErrors errors]. subst kept.
  destruct (Nat.ltb_spec 1000 (length (errors s ++ [error]))) as [Hfull | Hroom].
  - rewrite (sliceFrom_negative 1000) by lia. rewrite length_drop. lia.
  - exact Hroom.
Qed.

Local Opaque updateErrorStatus logError.

Lemma attemptRecovery_bounded (E : Env) (error : nat) (context : JsVal)
    (s : Fields) (w : World) :
  (length (errors s) <= 1000)%nat ->
  (length (errors (fst (snd (attemptRecovery E error context (s, w))))) <= 1000)%nat.
Proof.
  intros Hbound. unfold attemptRecovery, bind at 1, getFields. cbn [fst snd].
  destruct (recoveryStrategies s !! _) as [strategy |]; [| exact Hbound].
  unfold tryCatch, hosted, bind at 1. cbn [fst snd].
  destruct (recover strategy E _ context (tt, w)) as [[actions | msg] [[] w1]].
  - destruct actions as [| a actions]; cbn; [exact Hbound |].
    unfold bind, getFields, setFields, ret. cbn.
    match goal with |- context [updateErrorStatus error (?s1, w1)] =>
      destruct (updateErrorStatus_run error s1 w1) as (l & Hrun & Hlen) end.
    rewrite Hrun. cbn. rewrite Hlen. exact Hbound.
  - unfold bind at 1, getFields. cbn [fst snd].
    unfold bind at 1, isoNow, bind at 1, dateNow. cbn [fst snd ret].
    unfold bind at 1, allocate, bind at 1, getFields. cbn [fst snd].
    unfold bind at 1, setFields. cbn [fst snd ret].
    unfold bind at 1.
    match goal with |- context [logError ?a ?c ?sw] =>
      pose proof (logError_bounded a c (fst sw) (snd sw)) as Hlog;
      cbn [fst snd] in Hlog; destruct (logError a c sw) as [[[] | m] [s2 w2]] end;
      exact Hlog.
Qed.

Local Opaque handleThresholdExceeded attemptRecovery.

(** X24: every [handleError] leaves the log within its bound of 1000
    entries, whatever the log held before and whichever way the call goes
    (pause, recovery, failed recovery with its second log entry, plain
    notification). *)
Lemma handleError_bounded (E : Env) (error : nat) (context : JsVal) (s : Fields) (w : World) :
  (length (errors (fst (snd (handleError E error context (s, w))))) <= 1000)%nat.
Proof.
  pose proof (logError_bounded error context s w) as Hlog.
  destruct (logError_run error context s w) as (kept & w1 & Hrun & _).
  rewrite Hrun in Hlog. cbn [fst snd setErrors errors] in Hlog.
  unfold handleError, bind at 1. rewrite Hrun. cbn [fst snd].
  unfold bind at 1, getFields. cbn [fst snd].
  destruct (isErrorThresholdExceeded _ _).
  - destruct (handleThresholdExceeded_run E error (setErrors kept s) w1)
      as (pause & notification & w2 & Hthreshold & _).
    rewrite Hthreshold. exact Hlog.
  - pose proof (attemptRecovery_bounded E error context (setErrors kept s) w1 Hlog) as Hrec.
    unfold bind at 1.
    destruct (attemptRecovery E error context (setErrors kept s, w1))
      as [[actions | m] [s2 w2]]; cbn [fst snd] in Hrec; [| exact Hrec].
    destruct actions as [| a actions]; cbn; exact Hrec.
Qed.

Local Transparent updateErrorStatus logError handleThresholdExceeded attemptRecovery.

(** An error of the publishing service below its threshold, whose message
    mentions HTTP: the strategy of the component yields the backoff action,
    and the error object is marked resolved. *)
Example handleError_recovers_http_failure :
  exists action s' w',
    handleError Examples.deadNetwork 0%nat (JObj [("frontend_name", JStr "blog")])
      (Examples.oneLogged, initialWorld)
    = (Ok [action], (s', w'))
    /\ FrameworkAction.type action = ActionType.publish
    /\ assocGet "action" (FrameworkAction.parameters action) = Some (JStr "retry_with_backoff")
    /\ assocGet "frontend_name" (FrameworkAction.parameters action) = Some (JStr "blog")
    /\ SystemError.resolved (deref (objects s') 0%nat) = true
    /\ errors s' = [0%nat; 0%nat].
Proof. do 3 eexists. split; [vm_compute; reflexivity |]. repeat split. Qed.

End LogBound.

(** ** The publisher: recovery chain *)

Section RecoveryChain.
Import Publishing PublishSpec.

Variable E : Env.
Variable request : APIRequest.t.
Variable connection : FrontendConnection.t.

Lemma exhausted_performed {A} (n : nat) (rounds : list A) :
  exhausted E n rounds = true -> performed E n rounds = rounds.
Proof.
  revert n. induction rounds as [| round rest IH]; intros n H; cbn in *.
  - reflexivity.
  - apply andb_prop in H as [Hfailed Hrest]. rewrite Hfailed, (IH _ Hrest). reflexivity.
Qed.

Lemma performed_bounds {A} (n : nat) (rounds : list A) :
  performed E n rounds `prefix_of` rounds
  /\ (length (performed E n rounds) <= length rounds)%nat
  /\ (rounds <> [] -> performed E n rounds <> []).
Proof.
  revert n. induction rounds as [| round rest IH]; intros n; cbn.
  - repeat split; [reflexivity | lia | congruence].
  - destruct (IH (S n)) as (Hprefix & Hlen & _).
    destruct (failed (network E n)); cbn.
    + repeat split; [apply prefix_cons; exact Hprefix | lia | discriminate].
    + repeat split; [apply prefix_cons, prefix_nil | lia | discriminate].
Qed.

(** Closes goals that compare traces and counters after a step. *)
Ltac trace_solved :=
  repeat split; cbn [length concat]; rewrite <- ?app_assoc, ?app_nil_r;
  try reflexivity; try lia.

Lemma backoffLoop_run (delays : list Z) (s : Fields) (w : World) :
  let rounds := map (fun delay => [Sleep delay; resent request]) delays in
  exists w',
    backoffLoop E delays request (s, w)
    = (if exhausted E (fetches w) rounds then Throw "Retry with backoff failed" else Ok tt,
       (s, w'))
    /\ trace w' = trace w ++ concat (performed E (fetches w) rounds)
    /\ fetches w' = (fetches w + length (performed E (fetches w) rounds))%nat
    /\ clockReads w' = clockReads w.
Proof.
  cbn zeta. revert w. induction delays as [| delay rest IH]; intros w.
  - exists w. cbn. rewrite app_nil_r, Nat.add_0_r. repeat split.
  - cbn [backoffLoop map performed exhausted concat].
    unfold sleep, emit, bind at 1. cbn [fst snd].
    unfold bind at 1, tryCatch, bind at 1, send, fetch.
    cbn [fst snd fetches trace clockReads randoms recorded].
    destruct (network E (fetches w)) as [response | message]; cbn [failed].
    + destruct (ok response); cbn [negb andb ret].
      * eexists. split; [reflexivity |]. cbn. trace_solved.
      * match goal with |- context [backoffLoop E rest request (s, ?w1)] =>
          destruct (IH w1) as (w' & Hrun & Htrace & Hfetches & Hclock) end.
        cbn [fetches trace clockReads] in *.
        exists w'. split; [exact Hrun |]. rewrite Htrace, Hfetches, Hclock.
        trace_solved.
    + cbn [andb ret].
      match goal with |- context [backoffLoop E rest request (s, ?w1)] =>
        destruct (IH w1) as (w' & Hrun & Htrace & Hfetches & Hclock) end.
      cbn [fetches trace clockReads] in *.
      exists w'. split; [exact Hrun |]. rewrite Htrace, Hfetches, Hclock.
      trace_solved.
Qed.


Lemma alternativeAuthLoop_run (alternativeAuths : list (string * string))
    (s : Fields) (w : World) :
  let rounds := map (fun auth : string * string =>
                       [sent request (alternativeHeaders request connection (snd auth))
                             (APIRequest.body request)])
                    alternativeAuths in
  exists w',
    alternativeAuthLoop E alternativeAuths request connection (s, w)
    = (if exhausted E (fetches w) rounds then Throw "Alternative authentication failed"
       else Ok tt,
       (s, w'))
    /\ trace w' = trace w ++ concat (performed E (fetches w) rounds)
    /\ fetches w' = (fetches w + length (performed E (fetches w) rounds))%nat
    /\ clockReads w' = clockReads w.
Proof.
  cbn zeta. revert w. induction alternativeAuths as [| [type header] rest IH]; intros w.
  - exists w. cbn. trace_solved.
  - cbn [alternativeAuthLoop map performed exhausted concat snd].
    unfold bind at 1, tryCatch, bind at 1, send, fetch.
    cbn [fst snd fetches trace clockReads randoms].
    destruct (network E (fetches w)) as [response | message]; cbn [failed].
    + destruct (ok response); cbn [negb andb ret].
      * eexists. split; [reflexivity |]. cbn. trace_solved.
      * match goal with |- context [alternativeAuthLoop E rest request connection (s, ?w1)] =>
          destruct (IH w1) as (w' & Hrun & Htrace & Hfetches & Hclock) end.
        cbn [fetches trace clockReads] in *.
        exists w'. split; [exact Hrun |]. rewrite Htrace, Hfetches, Hclock.
        trace_solved.
    + cbn [andb ret].
      match goal with |- context [alternativeAuthLoop E rest request connection (s, ?w1)] =>
        destruct (IH w1) as (w' & Hrun & Htrace & Hfetches & Hclock) end.
      cbn [fetches trace clockReads] in *.
      exists w'. split; [exact Hrun |]. rewrite Htrace, Hfetches, Hclock.
      trace_solved.
Qed.

Lemma retryWithSimplifiedContent_run (s : Fields) (w : World) :
  exists w',
    retryWithSimplifiedContent E request connection (s, w)
    = (match network E (fetches w) with
       | Responded _ => Ok tt
       | Rejected _ => Throw "Simplified content retry failed"
       end,
       (s, w'))
    /\ trace w' = trace w ++ simplifiedRound request
    /\ clockReads w' = clockReads w.
Proof.
  unfold retryWithSimplifiedContent, tryCatch, bind, send, fetch, throw, simplifiedRound, sent.
  cbn [fst snd].
  destruct (network E (fetches w)) as [response | message].
  - destruct (ok response); eexists; (split; [reflexivity |]); split; reflexivity.
  - eexists. split; [reflexivity |]. split; reflexivity.
Qed.

Lemma networkEvents_app (a b : list Event) :
  networkEvents (a ++ b) = networkEvents a ++ networkEvents b.
Proof. apply List.filter_app. Qed.

Lemma networkEvents_performed (n : nat) (rounds : list (list Event)) :
  Forall (fun round => networkEvents round = round) rounds ->
  networkEvents (concat (performed E n rounds)) = concat (performed E n rounds).
Proof.
  revert n. induction rounds as [| round rest IH]; intros n Hall; [reflexivity |].
  inversion Hall as [| ? ? Hround Hrest]; subst.
  cbn [performed concat]. rewrite networkEvents_app, Hround. f_equal.
  destruct (failed (network E n)); [apply IH; exact Hrest | reflexivity].
Qed.

Lemma backoffRounds_network : Forall (fun round => networkEvents round = round)
                                     (backoffRounds request).
Proof. repeat constructor. Qed.

Lemma alternativeAuthRounds_network :
  Forall (fun round => networkEvents round = round) (alternativeAuthRounds request connection).
Proof. repeat constructor. Qed.


Lemma strategyLoop_step (strategy : M Fields unit) (rest : list (M Fields unit))
    (errorMessage : string) (s s1 : Fields) (w w1 : World) (r : Result unit) :
  strategy (s, w) = (r, (s1, w1)) ->
  strategyLoop E (strategy :: rest) connection errorMessage (s, w)
  = match r with
    | Ok _ =>
        (Ok tt, (s1, recorded (ConsoleLog ("Recovery successful for "
                                           +:+ show (FrontendConnection.name connection))) w1))
    | Throw recoveryErrorMessage =>
        strategyLoop E rest connection errorMessage
          (s1, recorded (ConsoleLog ("Recovery strategy failed for "
                                     +:+ show (FrontendConnection.name connection)
                                     +:+ ": " +:+ recoveryErrorMessage)) w1)
    end.
Proof.
  intros Hrun. cbn [strategyLoop]. unfold bind at 1, tryCatch, bind at 1. rewrite Hrun.
  destruct r as [[] | message]; reflexivity.
Qed.

Lemma exhausted_length {A} (n : nat) (rounds : list A) :
  exhausted E n rounds = true -> length (performed E n rounds) = length rounds.
Proof. intros H. rewrite (exhausted_performed n rounds H). reflexivity. Qed.

(** C5: after a failed publish request the recovery chain first resends
    the identical request at most three times, each time after its delay of
    exactly 1000, 3000 and 5000 ms, and stops at the first ok response; only
    when all three resends have failed does it send the request under the
    alternative authentication headers, and only when those are exhausted
    too does it send the simplified content: timer and network see exactly
    [recoveryChain], in that order. *)
Theorem recovery_chain_order (errorMessage : string) (s : Fields) (w : World) :
  let n := fetches w in
  (exists w',
     retryWithBackoff E request connection (s, w)
     = (if exhausted E n (backoffRounds request)
        then Throw "Retry with backoff failed" else Ok tt,
        (s, w'))
     /\ trace w' = trace w ++ concat (performed E n (backoffRounds request)))
  /\ (performed E n (backoffRounds request) `prefix_of`
        [[Sleep 1000; resent request]; [Sleep 3000; resent request];
         [Sleep 5000; resent request]]
      /\ (length (performed E n (backoffRounds request)) <= 3)%nat)
  /\ (exists s' w' new,
        attemptRecovery E request connection errorMessage (s, w) = (Ok tt, (s', w'))
        /\ trace w' = trace w ++ new
        /\ networkEvents new = recoveryChain E n request connection).
Proof.
  cbn zeta.
  destruct (backoffLoop_run [1000; 3000; 5000] s w) as (w1 & Hb & Htrace1 & Hfetches1 & _).
  cbn [map] in Hb, Htrace1, Hfetches1.
  change [[Sleep 1000; resent request]; [Sleep 3000; resent request];
          [Sleep 5000; resent request]] with (backoffRounds request) in *.
  split; [exists w1; split; [exact Hb | exact Htrace1] |].
  split; [destruct (performed_bounds (fetches w) (backoffRounds request)) as (? & ? & _);
          split; assumption |].
  unfold attemptRecovery, recoveryChain.
  rewrite (strategyLoop_step _ _ errorMessage s s w w1 _ Hb).
  destruct (exhausted E (fetches w) (backoffRounds request)) eqn:Hex1; cbv beta iota.
  - rewrite (exhausted_length _ _ Hex1) in Hfetches1. cbn [length backoffRounds] in Hfetches1.
    set (w1' := recorded _ w1).
    destruct (alternativeAuthLoop_run
                [("api_key", "X-API-Key"); ("api_key", "Authorization");
                 ("jwt", "Authorization")] s w1')
      as (w2 & Ha & Htrace2 & Hfetches2 & _).
    cbn [map snd] in Ha, Htrace2, Hfetches2.
    change (map _ ["X-API-Key"; "Authorization"; "Authorization"])
      with (alternativeAuthRounds request connection) in *.
    replace (fetches w1') with (fetches w + 3)%nat in * by (subst w1'; cbn; lia).
    rewrite (strategyLoop_step _ _ errorMessage s s w1' w2 _ Ha).
    change (exhausted E (fetches w + 3) _)
      with (exhausted E (fetches w + 3) (alternativeAuthRounds request connection)).
    destruct (exhausted E (fetches w + 3) (alternativeAuthRounds request connection)) eqn:Hex2;
      cbv beta iota.
    + set (w2' := recorded _ w2).
      destruct (retryWithSimplifiedContent_run s w2') as (w3 & Hs & Htrace3 & _).
      rewrite (strategyLoop_step _ _ errorMessage s s w2' w3 _ Hs).
      assert (forall final : Result unit * (Fields * World),
                (exists s' w', final = (Ok tt, (s', w'))
                               /\ exists tail, trace w' = trace w3 ++ tail
                                               /\ networkEvents tail = []) ->
                exists s' w' new,
                  final = (Ok tt, (s', w'))
                  /\ trace w' = trace w ++ new
                  /\ networkEvents new
                     = concat (performed E (fetches w) (backoffRounds request))
                       ++ concat (performed E (fetches w + 3)
                                    (alternativeAuthRounds request connection))
                       ++ simplifiedRound request) as Hwrap.
      { intros final (s' & w' & -> & tail & Htail & Hnone).
        exists s', w'. eexists. split; [reflexivity |]. split.
        - rewrite Htail, Htrace3. subst w2'. cbn [trace recorded]. rewrite Htrace2.
          subst w1'. cbn [trace recorded]. rewrite Htrace1. rewrite <- !app_assoc. reflexivity.
        - rewrite !networkEvents_app, Hnone.
          rewrite (networkEvents_performed _ _ backoffRounds_network).
          rewrite (networkEvents_performed _ _ alternativeAuthRounds_network).
          cbn. rewrite ?app_nil_r. reflexivity. }
      apply Hwrap.
      destruct (network E (fetches w2')) as [response | message]; cbv beta iota.
      * do 2 eexists. split; [reflexivity |]. eexists. split; [reflexivity | reflexivity].
      * cbn [strategyLoop]. unfold bind, isoNow, bind, dateNow, ret, pushError, bind,
          getFields, setFields. cbn.
        do 2 eexists. split; [reflexivity |]. exists [ConsoleLog
          ("Recovery strategy failed for " +:+ show (FrontendConnection.name connection)
           +:+ ": Simplified content retry failed")].
        split; reflexivity.
    + do 3 eexists. split; [reflexivity |]. split.
      * cbn [trace recorded]. rewrite Htrace2. subst w1'. cbn [trace recorded].
        rewrite Htrace1. rewrite <- !app_assoc. reflexivity.
      * rewrite !networkEvents_app.
        rewrite (networkEvents_performed _ _ backoffRounds_network).
        rewrite (networkEvents_performed _ _ alternativeAuthRounds_network).
        cbn. rewrite ?app_nil_r. reflexivity.
  - do 3 eexists. split; [reflexivity |]. split.
    + cbn [trace recorded]. rewrite Htrace1. rewrite <- !app_assoc. reflexivity.
    + rewrite !networkEvents_app.
      rewrite (networkEvents_performed _ _ backoffRounds_network).
      cbn. rewrite ?app_nil_r. reflexivity.
Qed.

(** The chain against a network that refuses everything: three resends
    after their delays, three alternative authentications, the simplified
    content. *)
Example recovery_chain_when_all_fails (r : APIRequest.t) (c : FrontendConnection.t) :
  recoveryChain Examples.deadNetwork 1 r c
  = [Sleep 1000; resent r; Sleep 3000; resent r; Sleep 5000; resent r;
     sent r (alternativeHeaders r c "X-API-Key") (APIRequest.body r);
     sent r (alternativeHeaders r c "Authorization") (APIRequest.body r);
     sent r (alternativeHeaders r c "Authorization") (APIRequest.body r);
     sent r (APIRequest.headers r) (simplifiedBody (APIRequest.body r))].
Proof. reflexivity. Qed.

(** The chain against a network that answers: one resend after one second. *)
Example recovery_chain_when_first_resend_succeeds (r : APIRequest.t)
    (c : FrontendConnection.t) :
  recoveryChain Examples.openNetwork 1 r c = [Sleep 1000; resent r].
Proof. reflexivity. Qed.

End RecoveryChain.

(** ** The publisher: the publish run *)

Section PublishRun.
Import Publishing.

Variable E : Env.
Variable prepareRequestBody : ProcessedContent.t -> ApiEndpoint.t -> Result JsVal.
Variable processedContent : ProcessedContent.t.
Variable schemas : gmap string FrontendSchema.t.

Lemma publishTo_returns (locals : list APIRequest.t * list SystemError.t)
    (connection : FrontendConnection.t) (s : Fields) (w : World) :
  exists locals' s' w',
    publishTo E prepareRequestBody processedContent schemas locals connection (s, w)
    = (Ok locals', (s', w')).
Proof.
  unfold publishTo. destruct locals as [apiRequests errors]. unfold tryCatch at 1.
  match goal with |- context [match ?body (s, w) with _ => _ end] =>
    destruct (body (s, w)) as [[locals' | message] [s1 w1]] end.
  - eauto.
  - unfold recordFailure, bind, isoNow, bind, dateNow, ret. cbn. eauto.
Qed.

Lemma publishAll_returns (targetConnections : list FrontendConnection.t)
    (locals : list APIRequest.t * list SystemError.t) (s : Fields) (w : World) :
  exists locals' s' w',
    publishAll E prepareRequestBody processedContent schemas locals targetConnections (s, w)
    = (Ok locals', (s', w')).
Proof.
  revert locals s w. induction targetConnections as [| connection rest IH]; intros locals s w.
  - cbn. unfold ret. eauto.
  - cbn [publishAll]. unfold bind at 1.
    destruct (publishTo_returns locals connection s w) as (locals1 & s1 & w1 & Hrun).
    rewrite Hrun. apply IH.
Qed.

Variable frontendConnections : list FrontendConnection.t.

(** C1: a publish run with at least one eligible target connection returns
    a result whose [success] is true exactly when the run recorded no error
    or fewer errors than there are eligible target connections; with three
    eligible connections and one recorded error it is true. The result is
    the last entry of the execution history. *)
Theorem publish_success_rule (s : Fields) (w : World) :
  let targetConnections := targetConnectionsOf processedContent frontendConnections in
  targetConnections <> [] ->
  exists result s' w',
    executePublishing E prepareRequestBody processedContent frontendConnections schemas (s, w)
    = (Ok result, (s', w'))
    /\ (ProcessingResult.success result = true
        <-> length (ProcessingResult.errors result) = 0%nat
            \/ (length (ProcessingResult.errors result) < length targetConnections)%nat)
    /\ (length targetConnections = 3%nat ->
        length (ProcessingResult.errors result) = 1%nat ->
        ProcessingResult.success result = true)
    /\ last (executionHistory s') = Some result.
Proof.
  intros targetConnections Hsome.
  unfold executePublishing, bind at 1, dateNow. cbn [fst snd].
  unfold tryCatch. fold targetConnections.
  destruct (Nat.eqb_spec (length targetConnections) 0) as [Hzero | _].
  { destruct targetConnections; [contradiction | discriminate]. }
  unfold bind at 1.
  match goal with |- context [publishAll _ _ _ _ ?locals _ ?sw] =>
    destruct (publishAll_returns targetConnections locals (fst sw) (snd sw))
      as ([apiRequests errors] & s1 & w1 & Hrun); cbn [fst snd] in Hrun; rewrite Hrun end.
  unfold bind, dateNow, pushHistory, bind, getFields, setFields, ret. cbn.
  do 3 eexists. split; [reflexivity |]. cbn.
  assert (((length errors =? 0)%nat || (length errors <? length targetConnections)%nat) = true
          <-> length errors = 0%nat \/ (length errors < length targetConnections)%nat) as Hrule.
  { rewrite orb_true_iff, Nat.eqb_eq, Nat.ltb_lt. reflexivity. }
  split; [exact Hrule |]. split; [| apply last_snoc].
  intros H3 H1. apply Hrule. right. lia.
Qed.

(** C6, amended: when no connection is both active and targeted, the run
    sends nothing and returns a [ProcessingResult] with [success = false], no
    API request and exactly one error, of critical severity; this result is
    appended to the execution history like any other. *)
Theorem no_target_connection (s : Fields) (w : World) :
  targetConnectionsOf processedContent frontendConnections = [] ->
  exists result w',
    executePublishing E prepareRequestBody processedContent frontendConnections schemas (s, w)
    = (Ok result,
       ({| errors := errors s; executionHistory := executionHistory s ++ [result] |}, w'))
    /\ ProcessingResult.success result = false
    /\ ProcessingResult.api_requests result = []
    /\ (exists e,
          ProcessingResult.errors result = [e]
          /\ SystemError.severity e = Severity.critical
          /\ SystemError.component e = "PublishingExecutionService"
          /\ SystemError.error e
             = "Publishing execution failed: No active frontend connections found for publishing")
    /\ trace w' = trace w
    /\ fetches w' = fetches w.
Proof.
  intros Hnone.
  unfold executePublishing, bind at 1, dateNow. cbn [fst snd].
  unfold tryCatch. rewrite Hnone. cbn [length Nat.eqb throw].
  unfold bind, isoNow, bind, dateNow, pushHistory, bind, getFields, setFields, ret. cbn.
  do 2 eexists. split; [reflexivity |]. cbn.
  repeat split. eexists. repeat split.
Qed.

End PublishRun.

Section PublishScenarios.
Import Publishing.

Lemma publish_success_rule_witness :
  targetConnectionsOf Examples.article Examples.threeDestinations <> []
  /\ exists result s' w',
       executePublishing Examples.openNetwork Examples.plainBody Examples.article
         Examples.threeDestinations Examples.twoSchemas (construct, initialWorld)
       = (Ok result, (s', w'))
       /\ (length (targetConnectionsOf Examples.article Examples.threeDestinations) = 3%nat ->
           length (ProcessingResult.errors result) = 1%nat ->
           ProcessingResult.success result = true).
Proof.
  assert (targetConnectionsOf Examples.article Examples.threeDestinations <> []) as Hsome
    by (vm_compute; discriminate).
  split; [exact Hsome |].
  destruct (publish_success_rule Examples.openNetwork Examples.plainBody Examples.article
              Examples.twoSchemas Examples.threeDestinations construct initialWorld Hsome)
    as (result & s' & w' & Hrun & _ & Hscenario & _).
  exists result, s', w'. split; [exact Hrun | exact Hscenario].
Defined.

(** Three active destinations, the third without a schema: one error is
    recorded, two requests are built and sent, and the run succeeds. *)
Example three_destinations_one_without_schema :
  exists result final,
    executePublishing Examples.openNetwork Examples.plainBody Examples.article
      Examples.threeDestinations Examples.twoSchemas (construct, initialWorld)
    = (Ok result, final)
    /\ length (targetConnectionsOf Examples.article Examples.threeDestinations) = 3%nat
    /\ length (ProcessingResult.errors result) = 1%nat
    /\ length (ProcessingResult.api_requests result) = 2%nat
    /\ ProcessingResult.success result = true.
Proof. do 2 eexists. split; [vm_compute; reflexivity |]. repeat split. Qed.

(** Three active destinations, the second unreachable throughout its
    recovery chain: the failure goes to the service's own error list (one
    high, one critical entry), the run's error list stays empty, and the run
    succeeds. *)
Example three_destinations_one_unreachable :
  exists result s' w',
    executePublishing Examples.secondDestinationDown Examples.plainBody Examples.article
      Examples.threeDestinations Examples.threeSchemas (construct, initialWorld)
    = (Ok result, (s', w'))
    /\ ProcessingResult.errors result = []
    /\ map SystemError.severity (errors s') = [Severity.high; Severity.critical]
    /\ fetches w' = 10%nat
    /\ ProcessingResult.success result = true.
Proof. do 3 eexists. split; [vm_compute; reflexivity |]. repeat split. Qed.

(** C6, as the specification has it, does not hold: with no connection at
    all the run still contributes a [ProcessingResult], the failed one that
    it returns and appends to the execution history. *)
Lemma no_target_still_contributes_result :
  ~ (executionHistory
       (fst (snd (executePublishing Examples.deadNetwork Examples.plainBody
                    Examples.article [] ∅ (construct, initialWorld))))
     = executionHistory construct).
Proof. vm_compute. discriminate. Qed.

Lemma no_target_connection_witness :
  targetConnectionsOf Examples.article [] = []
  /\ exists result w',
       executePublishing Examples.deadNetwork Examples.plainBody Examples.article [] ∅
         (construct, initialWorld)
       = (Ok result, ({| errors := []; executionHistory := [result] |}, w'))
       /\ ProcessingResult.success result = false
       /\ length (ProcessingResult.errors result) = 1%nat.
Proof.
  split; [reflexivity |].
  destruct (no_target_connection Examples.deadNetwork Examples.plainBody Examples.article
              ∅ [] construct initialWorld eq_refl)
    as (result & w' & Hrun & Hfailure & _ & (e & He & _) & _).
  exists result, w'. split; [exact Hrun |]. split; [exact Hfailure |].
  rewrite He. reflexivity.
Defined.

End PublishScenarios.

(** ** The connection manager *)

Section ConnectionManager.
Import Connection ConnectionSpec.

Variable E : Env.
Variable parseOpenAPISchema : string -> Result FrontendSchema.t.
Variable jsonParse : string -> Result JsVal.
Variable jsonStringify : JsVal -> string.

Lemma absent_falsy (field : option string) : absent field -> truthyStr field = false.
Proof. intros [-> | ->]; reflexivity. Qed.

Lemma arrIncludes_In (x : string) (l : list string) : arrIncludes x l = true <-> In x l.
Proof.
  unfold arrIncludes. rewrite existsb_exists. split.
  - intros (y & Hy & Heq). apply String.eqb_eq in Heq. subst. exact Hy.
  - intros H. exists x. split; [exact H | apply String.eqb_refl].
Qed.

Lemma invalid_fails (connection : FrontendConnection.t) :
  invalid E connection -> passes E connection = false.
Proof.
  unfold invalid, passes.
  intros [H | [H | [H | [H | [(a & Ha & Hnot) | (u & Hu & Hbad)]]]]].
  - rewrite (absent_falsy _ H). reflexivity.
  - rewrite (absent_falsy _ H), andb_false_r. reflexivity.
  - rewrite (absent_falsy _ H), !andb_false_r. reflexivity.
  - rewrite (absent_falsy _ H), !andb_false_r. reflexivity.
  - rewrite Ha. cbn [show default]. unfold id.
    destruct (arrIncludes a _) eqn:Hin; [| rewrite !andb_false_r; reflexivity].
    apply arrIncludes_In in Hin. contradiction.
  - rewrite Hu. cbn [show default]. unfold id. rewrite Hbad, !andb_false_r. reflexivity.
Qed.

Lemma validateConnection_run (connection : FrontendConnection.t) (s : Fields) (w : World) :
  if passes E connection
  then validateConnection E connection (s, w) = (Ok true, (s, w))
  else exists e w',
         validateConnection E connection (s, w)
         = (Ok false,
            ({| connections := connections s; schemas := schemas s;
                errors := errors s ++ [e] |}, w'))
         /\ SystemError.severity e = Severity.high
         /\ SystemError.component e = "FrontendConnectionService"
         /\ trace w' = trace w
         /\ fetches w' = fetches w.
Proof.
  unfold passes, validateConnection. cbn [List.find snd].
  destruct (truthyStr (FrontendConnection.name connection)); cbn [negb andb].
  2: { unfold bind, pushError, bind, isoNow, bind, dateNow, getFields, setFields, ret. cbn.
       do 2 eexists. split; [reflexivity |]. repeat split. }
  destruct (truthyStr (FrontendConnection.api_endpoint connection)); cbn [negb andb].
  2: { unfold bind, pushError, bind, isoNow, bind, dateNow, getFields, setFields, ret. cbn.
       do 2 eexists. split; [reflexivity |]. repeat split. }
  destruct (truthyStr (FrontendConnection.auth_type connection)); cbn [negb andb].
  2: { unfold bind, pushError, bind, isoNow, bind, dateNow, getFields, setFields, ret. cbn.
       do 2 eexists. split; [reflexivity |]. repeat split. }
  destruct (truthyStr (FrontendConnection.credentials connection)); cbn [negb andb].
  2: { unfold bind, pushError, bind, isoNow, bind, dateNow, getFields, setFields, ret. cbn.
       do 2 eexists. split; [reflexivity |]. repeat split. }
  destruct (arrIncludes _ _); cbn [negb andb].
  2: { unfold bind, pushError, bind, isoNow, bind, dateNow, getFields, setFields, ret. cbn.
       do 2 eexists. split; [reflexivity |]. repeat split. }
  destruct (urlParses E _).
  - reflexivity.
  - unfold bind, pushError, bind, isoNow, bind, dateNow, getFields, setFields, ret. cbn.
    do 2 eexists. split; [reflexivity |]. repeat split.
Qed.

(** C7: [manageConnection] never throws, it returns a boolean whatever the
    destination, the host and the schema parser do; and for a destination
    that lacks a required field, names an auth type other than oauth2,
    api_key and jwt, or has a URL that does not parse, it returns [false]
    after recording one high-severity error, without any fetch (the trace
    of effects is unchanged). *)
Theorem manageConnection_validates (connection : FrontendConnection.t)
    (s : Fields) (w : World) :
  (exists b s' w',
     manageConnection E parseOpenAPISchema jsonParse jsonStringify connection (s, w)
     = (Ok b, (s', w')))
  /\ (invalid E connection ->
      exists e w',
        manageConnection E parseOpenAPISchema jsonParse jsonStringify connection (s, w)
        = (Ok false,
           ({| connections := connections s; schemas := schemas s;
               errors := errors s ++ [e] |}, w'))
        /\ SystemError.severity e = Severity.high
        /\ SystemError.component e = "FrontendConnectionService"
        /\ trace w' = trace w
        /\ fetches w' = fetches w).
Proof.
  split.
  - unfold manageConnection, tryCatch.
    match goal with |- context [match ?body (s, w) with _ => _ end] =>
      destruct (body (s, w)) as [[b | message] [s1 w1]] end.
    + eauto.
    + unfold bind, pushError, bind, isoNow, bind, dateNow, getFields, setFields, ret. cbn.
      eauto.
  - intros Hinvalid. apply invalid_fails in Hinvalid.
    pose proof (validateConnection_run connection s w) as Hrun. rewrite Hinvalid in Hrun.
    destruct Hrun as (e & w' & Hrun & Hrest).
    exists e, w'. split; [| exact Hrest].
    unfold manageConnection, tryCatch, bind at 1. rewrite Hrun. reflexivity.
Qed.

End ConnectionManager.

Section ConnectionScenarios.
Import Connection ConnectionSpec.

Lemma manageConnection_validates_witness :
  invalid Examples.deadNetwork Examples.noCredentials
  /\ exists e w',
       manageConnection Examples.deadNetwork Examples.noParser Examples.noJson
         Examples.noStringify Examples.noCredentials (construct, initialWorld)
       = (Ok false, ({| connections := ∅; schemas := ∅; errors := [e] |}, w'))
       /\ SystemError.severity e = Severity.high
       /\ trace w' = [].
Proof.
  assert (invalid Examples.deadNetwork Examples.noCredentials) as Hinvalid.
  { right. right. right. left. left. reflexivity. }
  split; [exact Hinvalid |].
  destruct (manageConnection_validates Examples.deadNetwork Examples.noParser
              Examples.noJson Examples.noStringify Examples.noCredentials
              construct initialWorld) as (_ & Hfalse).
  destruct (Hfalse Hinvalid) as (e & w' & Hrun & Hsev & _ & Htrace & _).
  exists e, w'. split; [exact Hrun |]. split; [exact Hsev | exact Htrace].
Defined.

(** A well-formed destination behind a network that answers is probed
    once, its schema is discovered by probing the five common paths, and it
    is stored as active. *)
Example manageConnection_accepts_site :
  exists s' w',
    manageConnection Examples.openNetwork Examples.noParser Examples.noJson
      Examples.noStringify (Examples.destination "site") (construct, initialWorld)
    = (Ok true, (s', w'))
    /\ fetches w' = 6%nat
    /\ errors s' = []
    /\ (FrontendConnection.is_active <$> connections s' !! "site") = Some true
    /\ (length ∘ FrontendSchema.endpoints <$> schemas s' !! "site") = Some 10%nat.
Proof. do 2 eexists. split; [vm_compute; reflexivity |]. repeat split. Qed.

End ConnectionScenarios.

(** ** Classification: letter case and ranges *)

Section Casing.
Import EmailInterpretation.

Lemma lowerAscii_upperAscii (c : ascii) : lowerAscii (upperAscii c) = lowerAscii c.
Proof. destruct c as [[] [] [] [] [] [] [] []]; reflexivity. Qed.

Lemma toLowerCase_toUpperCase (s : string) : toLowerCase (toUpperCase s) = toLowerCase s.
Proof.
  induction s as [| c s IH]; cbn [toLowerCase toUpperCase]; [reflexivity |].
  rewrite lowerAscii_upperAscii, IH. reflexivity.
Qed.

Lemma toLowerCase_app (a b : string) :
  toLowerCase (a +:+ b) = toLowerCase a +:+ toLowerCase b.
Proof.
  induction a as [| c a IH]; simpl; [reflexivity |]. rewrite IH. reflexivity.
Qed.

(** X1: the classification is blind to the case of ASCII letters: two
    messages whose subjects agree and whose bodies agree once lower-cased
    get the same type, intent and target frontends. *)
Theorem classification_ignores_case (e1 e2 : EmailData) :
  toLowerCase (subject e1) = toLowerCase (subject e2) ->
  toLowerCase (body e1) = toLowerCase (body e2) ->
  interpretEmail e1 = interpretEmail e2.
Proof.
  intros Hsubject Hbody.
  unfold interpretEmail, classifyContentType, determineIntent, extractTargetFrontends.
  rewrite !toLowerCase_app, Hsubject, Hbody. reflexivity.
Qed.

Lemma classification_ignores_case_witness :
  body (Examples.shouted Examples.blogPost) = "CONTENT #BLOG PRIORITY: HIGH PUBLISH NOW"
  /\ interpretEmail (Examples.shouted Examples.blogPost) = interpretEmail Examples.blogPost.
Proof.
  split; [reflexivity |].
  apply (classification_ignores_case (Examples.shouted Examples.blogPost) Examples.blogPost);
    reflexivity.
Defined.

Ltac sublist_solved :=
  repeat first [apply sublist_nil | apply sublist_skip | apply sublist_cons].

(** X2: whatever the message, the type is one of the five content types,
    the intent one of the three intents, and the target list is either the
    sentinel ["all"] alone or a non-empty selection of the four frontend
    names in their fixed order (so without repetition, and never mixed with
    the sentinel). *)
Theorem classification_ranges (e : EmailData) :
  In (type (interpretEmail e)) ["article"; "product"; "update"; "announcement"; "other"]
  /\ In (intent (interpretEmail e)) ["immediate"; "scheduled"; "draft"]
  /\ (target_frontends (interpretEmail e) = ["all"]
      \/ (target_frontends (interpretEmail e) <> []
          /\ sublist (target_frontends (interpretEmail e))
                     ["main_site"; "developer_portal"; "blog"; "admin_panel"])).
Proof.
  unfold interpretEmail, classifyContentType, determineIntent, extractTargetFrontends.
  cbn [type intent target_frontends].
  split; [| split].
  - repeat match goal with |- context [if ?b then _ else _] => destruct b end;
      cbn; tauto.
  - repeat match goal with |- context [if ?b then _ else _] => destruct b end;
      cbn; tauto.
  - set (text := toLowerCase (body e)).
    destruct (includes "main site" text || includes "website" text || includes "homepage" text);
    destruct (includes "developer portal" text || includes "dev portal" text
              || includes "api docs" text);
    destruct (includes "blog" text || includes "news site" text);
    destruct (includes "admin panel" text || includes "dashboard" text);
    cbn; first [left; reflexivity | right; split; [discriminate | sublist_solved]].
Qed.

End Casing.

(** ** Attachments *)

Section Attachments.
Import EmailAttachments.

(** Whatever the payload, the sniffed content type is a key of the
    extension table. *)
Lemma detectContentType_known (base64Data : string) :
  exists extension, assocGet (detectContentType base64Data) extensions = Some extension
                    /\ getFileExtension (detectContentType base64Data) = extension.
Proof.
  unfold detectContentType, getFileExtension.
  repeat match goal with |- context [if ?b then _ else _] => destruct b end;
    cbn; eauto.
Qed.

Lemma processFrom_run (E : Env) (attachments : list string) (i : nat)
    (mediaFiles : list MediaFile.t) (s : Fields) (w : World) :
  processFrom E i attachments mediaFiles (s, w)
  = (Ok (mediaFiles ++ imap (fun k a => processSingleAttachment a (i + k)) attachments), (s, w)).
Proof.
  revert i mediaFiles. induction attachments as [| a rest IH]; intros i mediaFiles.
  - cbn. rewrite app_nil_r. reflexivity.
  - cbn [processFrom imap]. unfold bind at 1, tryCatch, ret at 1. cbn [fst snd].
    rewrite IH. rewrite <- app_assoc. cbn [app].
    rewrite Nat.add_0_r. do 4 f_equal.
    apply imap_ext. intros k x _. cbn. f_equal. lia.
Qed.

(** X3: [processAttachments] never fails and never records an error: it
    returns one media file per attachment, in order, the k-th (from 0) named
    "attachment_<k+1>.<ext>" with the attachment itself as data, a content
    type for which the extension table has the entry <ext>, a size of three
    quarters of the length rounded to the nearest integer, and dimensions
    exactly for images. *)
Theorem processAttachments_one_per_attachment (E : Env) (attachments : list string)
    (s : Fields) (w : World) :
  exists mediaFiles,
    processAttachments E attachments (s, w) = (Ok mediaFiles, (s, w))
    /\ length mediaFiles = length attachments
    /\ forall (k : nat) (attachment : string),
         attachments !! k = Some attachment ->
         exists m extension,
           mediaFiles !! k = Some m
           /\ MediaFile.data m = attachment
           /\ assocGet (MediaFile.content_type m) extensions = Some extension
           /\ MediaFile.filename m
              = "attachment_" +:+ numToString (Z.of_nat k + 1) +:+ "." +:+ extension
           /\ (4 * MediaFile.size m - 2 <= 3 * Z.of_nat (String.length attachment)
               <= 4 * MediaFile.size m + 1)
           /\ (MediaFile.dimensions m <> None
               <-> startsWith "image/" (MediaFile.content_type m) = true).
Proof.
  unfold processAttachments. rewrite processFrom_run. cbn [app].
  eexists. split; [reflexivity |]. split; [apply length_imap |].
  intros k attachment Hk.
  destruct (detectContentType_known attachment) as (extension & Hext & Hget).
  exists (processSingleAttachment attachment k), extension.
  split; [rewrite list_lookup_imap, Hk; reflexivity |].
  unfold processSingleAttachment. cbn [MediaFile.data MediaFile.content_type
    MediaFile.filename MediaFile.size MediaFile.dimensions].
  rewrite Hget. repeat split; try assumption.
  - unfold threeQuarters. pose proof (Z.div_mod (3 * Z.of_nat (String.length attachment) + 2) 4).
    pose proof (Z.mod_pos_bound (3 * Z.of_nat (String.length attachment) + 2) 4). lia.
  - unfold threeQuarters. pose proof (Z.div_mod (3 * Z.of_nat (String.length attachment) + 2) 4).
    pose proof (Z.mod_pos_bound (3 * Z.of_nat (String.length attachment) + 2) 4). lia.
  - destruct (startsWith "image/" _); [reflexivity | congruence].
  - intros ->. discriminate.
Qed.

End Attachments.

(** ** The error coordinator: log, thresholds and recovery *)

Section ErrorLogMore.
Import ErrorHandling ErrorSpec.

Local Opaque logError.

(** The log after [logError]. *)
Lemma logError_trims (error : nat) (context : JsVal) (s : Fields) (w : World) :
  exists s' w',
    logError error context (s, w) = (Ok tt, (s', w'))
    /\ errors s' `suffix_of` (errors s ++ [error])
    /\ last (errors s') = Some error
    /\ length (errors s') = Nat.min (length (errors s) + 1) 1000
    /\ objects s' = objects s.
Proof.
  destruct (logError_run error context s w) as (kept & w' & Hrun & Hkept).
  exists (setErrors kept s), w'. split; [exact Hrun |]. cbn [setErrors errors objects].
  assert (length (errors s ++ [error]) = (length (errors s) + 1)%nat) as Hlen
    by (rewrite length_app; reflexivity).
  subst kept. destruct (Nat.ltb_spec 1000 (length (errors s ++ [error]))) as [Hfull | Hroom].
  - rewrite (sliceFrom_negative 1000) by lia.
    split; [apply suffix_drop |]. split; [| split; [rewrite length_drop; lia | reflexivity]].
    rewrite drop_app_le by lia. apply last_snoc.
  - split; [reflexivity |]. split; [apply last_snoc |]. split; [lia | reflexivity].
Qed.

(** X4: [logError] appends the error and keeps the last 1000 entries: the
    new log is the end of the old log followed by the error, its last entry
    is the error, its length is the old length plus one, capped at 1000,
    and no error object changes. *)
Theorem logError_keeps_last_thousand (error : nat) (context : JsVal)
    (s : Fields) (w : World) :
  exists s' w',
    logError error context (s, w) = (Ok tt, (s', w'))
    /\ errors s' `suffix_of` (errors s ++ [error])
    /\ last (errors s') = Some error
    /\ length (errors s') = Nat.min (length (errors s) + 1) 1000
    /\ objects s' = objects s.
Proof. exact (logError_trims error context s w). Qed.

Lemma exceeded_iff_count (s : Fields) (component : string) :
  isErrorThresholdExceeded s component = true
  <-> thresholdOf s component <= Z.of_nat (getErrorCount s component).
Proof.
  split; [| apply exceeded_of_count].
  unfold isErrorThresholdExceeded, getRecentErrors, getErrorCount.
  set (t := thresholdOf s component). set (l := ofComponent s component).
  intros H. apply Z.geb_le in H. revert H. unfold sliceFrom.
  destruct (Z.ltb_spec (- t) 0); rewrite length_drop; lia.
Qed.

(** X5: a component counts as over its threshold exactly when the number of
    its logged errors is at least the threshold in force; that threshold is
    never 0, because [setErrorThreshold(component, 0)] is read back as the
    default 10 (any other value is taken as given, and other components keep
    theirs). *)
Theorem threshold_exceeded_iff (s : Fields) (component other : string) (threshold : Z) :
  (isErrorThresholdExceeded s component = true
   <-> thresholdOf s component <= Z.of_nat (getErrorCount s component))
  /\ thresholdOf s component <> 0
  /\ thresholdOf (setErrorThreshold component threshold s) component
     = (if threshold =? 0 then 10 else threshold)
  /\ (other <> component ->
      thresholdOf (setErrorThreshold component threshold s) other = thresholdOf s other).
Proof.
  split; [| split; [| split]].
  - apply exceeded_iff_count.
  - unfold thresholdOf. destruct (errorThresholds s !! component) as [t |]; [| lia].
    destruct (Z.eqb_spec t 0); lia.
  - unfold thresholdOf, setErrorThreshold. cbn [errorThresholds].
    rewrite lookup_insert_eq. reflexivity.
  - intros Hne. unfold thresholdOf, setErrorThreshold. cbn [errorThresholds].
    rewrite lookup_insert_ne by congruence. reflexivity.
Qed.


Lemma updateErrorStatus_keeps (error : nat) (s : Fields) (w : World) :
  exists l, updateErrorStatus error (s, w) = (Ok tt, (setErrors l s, w))
            /\ length l = length (errors s)
            /\ (error ∈ errors s -> error ∈ l).
Proof.
  unfold updateErrorStatus, bind, getFields, setFields, ret. cbn.
  destruct (findIndex _ (errors s)) as [i |] eqn:Hfind; cbn.
  - eexists. split; [reflexivity |]. split; [apply length_insert |].
    intros Hin. apply list_elem_of_lookup in Hin as (j & Hj).
    destruct (decide (i = j)) as [-> | Hne].
    + apply list_elem_of_lookup. exists j. apply list_lookup_insert_eq.
      eapply lookup_lt_Some; eassumption.
    + apply list_elem_of_lookup. exists j. rewrite list_lookup_insert_ne by exact Hne.
      exact Hj.
  - exists (errors s). destruct s; repeat split; auto.
Qed.
Local Opaque updateErrorStatus.

(** The outcome of [attemptRecovery], by what the registered strategy
    does. *)
Lemma attemptRecovery_detail (E : Env) (error : nat) (context : JsVal)
    (s : Fields) (w : World) :
  match recoveryStrategies s !! SystemError.component (deref (objects s) error) with
  | None => attemptRecovery E error context (s, w) = (Ok [], (s, w))
  | Some strategy =>
      match recover strategy E (deref (objects s) error) context (tt, w) with
      | (Ok [], (_, w1)) => attemptRecovery E error context (s, w) = (Ok [], (s, w1))
      | (Ok (a :: actions), (_, w1)) =>
          exists l,
            attemptRecovery E error context (s, w)
            = (Ok (a :: actions),
               (setErrors l
                  (setObjects (<[error := SystemError.markResolved (deref (objects s) error)]>
                                 (objects s)) s), w1))
            /\ length l = length (errors s)
            /\ (error ∈ errors s -> error ∈ l)
      | (Throw message, (_, w1)) =>
          exists s' w',
            attemptRecovery E error context (s, w) = (Ok [], (s', w'))
            /\ logError (length (objects s))
                 (JObj [("originalError", SystemError.toJs (deref (objects s) error))])
                 (setObjects
                    (objects s ++
                     [{| SystemError.timestamp := toISOString E (clock E (clockReads w1));
                         SystemError.error :=
                           "Recovery failed for "
                           +:+ SystemError.component (deref (objects s) error)
                           +:+ ": " +:+ message;
                         SystemError.severity := Severity.high;
                         SystemError.component := "ErrorHandlingService";
                         SystemError.resolved := false |}]) s,
                  {| clockReads := S (clockReads w1); fetches := fetches w1;
                     randoms := randoms w1; trace := trace w1 |})
               = (Ok tt, (s', w'))
      end
  end.
Proof.
  destruct (recoveryStrategies s !! _) as [strategy |] eqn:Hstrategy.
  2: { unfold attemptRecovery, bind at 1, getFields. cbn [fst snd]. rewrite Hstrategy.
       reflexivity. }
  destruct (recover strategy E _ context (tt, w)) as [[actions | msg] [[] w1]] eqn:Hrecover.
  - destruct actions as [| a actions].
    + unfold attemptRecovery, bind at 1, getFields. cbn [fst snd]. rewrite Hstrategy.
      unfold tryCatch, hosted, bind at 1. cbn [fst snd]. rewrite Hrecover. reflexivity.
    + match goal with |- context [setObjects ?o s] =>
        destruct (updateErrorStatus_keeps error (setObjects o s) w1)
          as (l & Hrun & Hlen & Hkeep) end.
      exists l. split; [| split; [exact Hlen | exact Hkeep]].
      unfold attemptRecovery, bind at 1, getFields. cbn [fst snd]. rewrite Hstrategy.
      unfold tryCatch, hosted, bind at 1. cbn [fst snd]. rewrite Hrecover.
      cbn. unfold bind, getFields, setFields, ret. cbn. rewrite Hrun. reflexivity.
  - match goal with |- context [logError ?a ?c ?sw] =>
      destruct (logError_run a c (fst sw) (snd sw)) as (kept & w' & Hrun & _);
      cbn [fst snd] in Hrun end.
    do 2 eexists. split; [| exact Hrun].
    unfold attemptRecovery, bind at 1, getFields. cbn [fst snd]. rewrite Hstrategy.
    unfold tryCatch, hosted, bind at 1. cbn [fst snd]. rewrite Hrecover.
    unfold bind, getFields, isoNow, allocate, bind, getFields, setFields, dateNow, ret. cbn.
    rewrite Hrun. reflexivity.
Qed.


Local Opaque attemptRecovery handleThresholdExceeded.

(** [handleError] below the threshold, by what [attemptRecovery] returns. *)
Lemma handleError_below (E : Env) (error : nat) (context : JsVal) (s s1 s2 : Fields)
    (w w1 w2 : World) (actions : list FrameworkAction.t) :
  logError error context (s, w) = (Ok tt, (s1, w1)) ->
  isErrorThresholdExceeded s1 (SystemError.component (deref (objects s1) error)) = false ->
  attemptRecovery E error context (s1, w1) = (Ok actions, (s2, w2)) ->
  match actions with
  | [] => exists notification w3,
            handleError E error context (s, w) = (Ok [notification], (s2, w3))
            /\ isErrorNotification (deref (objects s2) error) context notification
  | _ :: _ => handleError E error context (s, w) = (Ok actions, (s2, w2))
  end.
Proof.
  intros Hlog Hbelow Hrecovery.
  assert (handleError E error context (s, w)
          = (recoveryActions <- attemptRecovery E error context ;;
             if (0 <? length recoveryActions)%nat
             then ret recoveryActions
             else
               s1 <- getFields ;;
               let e := deref (objects s1) error in
               now <- dateNow E ;;
               suffix <- randomSuffix E ;;
               ret [mkAction ActionType.error "system"
                      [("error", JStr (SystemError.error e));
                       ("component", JStr (SystemError.component e));
                       ("severity", JStr (Severity.toString (SystemError.severity e)));
                       ("context", context)]
                      (getErrorPriority (Severity.toString (SystemError.severity e)))
                      ("error_" +:+ numToString now +:+ "_" +:+ suffix)]) (s1, w1)) as Hstep.
  { unfold handleError, bind at 1. rewrite Hlog. cbn [fst snd].
    unfold bind at 1, getFields. cbn [fst snd]. rewrite Hbelow. reflexivity. }
  destruct actions as [| a actions]; rewrite Hstep; unfold bind at 1; rewrite Hrecovery;
    cbn; [| reflexivity].
  unfold bind, getFields, dateNow, randomSuffix, ret. cbn.
  do 2 eexists. split; [reflexivity |].
  unfold isErrorNotification, mkAction. cbn.
  rewrite getErrorPriority_by_severity. repeat split.
Qed.

(** X6: when an error below its component's threshold is handled and the
    component's strategy yields actions, these are returned and the error
    object is marked resolved, every other object staying as it was: the
    error no longer shows among the unresolved errors. *)
Theorem recovery_marks_resolved (E : Env) (s : Fields) (w : World)
    (error : nat) (context : JsVal) :
  let e := deref (objects s) error in
  let logged := snd (logError error context (s, w)) in
  (error < length (objects s))%nat ->
  isErrorThresholdExceeded (fst logged) (SystemError.component e) = false ->
  strategyYield E (fst logged) e context (snd logged) <> [] ->
  exists s' w',
    handleError E error context (s, w)
    = (Ok (strategyYield E (fst logged) e context (snd logged)), (s', w'))
    /\ objects s' = <[error := SystemError.markResolved e]> (objects s)
    /\ SystemError.resolved (deref (objects s') error) = true
    /\ ~ In error (getUnresolvedErrors s').
Proof.
  intros e logged Hin Hbelow Hyield. subst e logged.
  destruct (logError_run error context s w) as (kept & w1 & Hlog & _).
  rewrite Hlog in *. cbn [fst snd] in *.
  pose proof (attemptRecovery_detail E error context (setErrors kept s) w1) as Hdetail.
  unfold strategyYield in *. cbn [setErrors objects recoveryStrategies] in *.
  destruct (recoveryStrategies s !! _) as [strategy |]; [| contradiction].
  destruct (recover strategy E _ context (tt, w1)) as [[[| a actions] | message] [[] w2]];
    try contradiction.
  destruct Hdetail as (l & Hrecovery & _).
  pose proof (handleError_below E error context s _ _ w w1 w2 _ Hlog Hbelow Hrecovery) as Hrun.
  cbn in Hrun. do 2 eexists. split; [exact Hrun |].
  cbn [setErrors setObjects objects errors]. split; [reflexivity |].
  assert (SystemError.resolved
            (deref (<[error:=SystemError.markResolved (deref (objects s) error)]> (objects s))
                   error) = true) as Hresolved
    by (rewrite deref_insert_same by exact Hin; reflexivity).
  split; [exact Hresolved |].
  unfold getUnresolvedErrors. cbn [setErrors setObjects objects errors].
  intros Hmember. apply List.filter_In in Hmember as [_ Hopen].
  rewrite Hresolved in Hopen. discriminate.
Qed.

Lemma recovery_marks_resolved_witness :
  exists actions s' w',
    handleError Examples.deadNetwork 0 JUndefined (Examples.oneLogged, initialWorld)
    = (Ok actions, (s', w'))
    /\ actions <> []
    /\ SystemError.resolved (deref (objects s') 0) = true
    /\ ~ In 0%nat (getUnresolvedErrors s').
Proof.
  destruct (recovery_marks_resolved Examples.deadNetwork Examples.oneLogged initialWorld
              0 JUndefined) as (s' & w' & Hrun & _ & Hresolved & Hclosed).
  - cbn. lia.
  - reflexivity.
  - vm_compute. discriminate.
  - eexists _, s', w'. split; [exact Hrun |]. split; [vm_compute; discriminate |].
    split; assumption.
Defined.

(** X7: when the strategy of the error's component throws, the failure is
    itself put on record: a new, unresolved, high-severity error of the
    component "ErrorHandlingService" with the message "Recovery failed for
    <component>: <message>" becomes the newest log entry (so it counts
    towards the coordinator's own threshold), the original error stays
    unresolved, and the caller gets the one generic error notification. *)
Theorem recovery_failure_is_logged (E : Env) (s : Fields) (w w2 : World)
    (error : nat) (context : JsVal) (strategy : RecoveryStrategy) (message : string) :
  let e := deref (objects s) error in
  let logged := snd (logError error context (s, w)) in
  (error < length (objects s))%nat ->
  isErrorThresholdExceeded (fst logged) (SystemError.component e) = false ->
  recoveryStrategies s !! SystemError.component e = Some strategy ->
  recover strategy E e context (tt, snd logged) = (Throw message, (tt, w2)) ->
  exists notification failure s' w',
    handleError E error context (s, w) = (Ok [notification], (s', w'))
    /\ isErrorNotification e context notification
    /\ objects s' = objects s ++ [failure]
    /\ last (errors s') = Some (length (objects s))
    /\ SystemError.component failure = "ErrorHandlingService"
    /\ SystemError.severity failure = Severity.high
    /\ SystemError.resolved failure = false
    /\ SystemError.error failure
       = "Recovery failed for " +:+ SystemError.component e +:+ ": " +:+ message.
Proof.
  intros e logged Hin Hbelow Hstrategy Hthrow. subst e logged.
  destruct (logError_run error context s w) as (kept & w1 & Hlog & _).
  rewrite Hlog in *. cbn [fst snd] in *.
  pose proof (attemptRecovery_detail E error context (setErrors kept s) w1) as Hdetail.
  cbn [setErrors objects recoveryStrategies] in Hdetail.
  rewrite Hstrategy, Hthrow in Hdetail.
  destruct Hdetail as (s2 & w3 & Hrecovery & Hlog2).
  match type of Hlog2 with logError ?a ?c (?s0, ?w0) = _ =>
    destruct (logError_trims a c s0 w0)
      as (s2' & w3' & Hlog2' & _ & Hlast & _ & Hobjects) end.
  pose proof (handleError_below E error context s _ _ w w1 w3 _ Hlog Hbelow Hrecovery) as Hrun.
  cbn beta iota in Hrun. destruct Hrun as (notification & w4 & Hrun & Hnotification).
  rewrite Hlog2' in Hlog2. injection Hlog2 as <- <-.
  cbn [setObjects setErrors objects errors] in Hobjects.
  eexists notification, _, s2', w4. split; [exact Hrun |].
  split.
  { unfold isErrorNotification in *. rewrite Hobjects in Hnotification.
    rewrite deref_app_l in Hnotification by exact Hin. exact Hnotification. }
  split; [exact Hobjects |]. split; [exact Hlast |]. repeat split.
Qed.

Lemma recovery_failure_is_logged_witness :
  exists notification failure s' w',
    handleError Examples.deadNetwork 0 JUndefined (Examples.oneLoggedFailing, initialWorld)
    = (Ok [notification], (s', w'))
    /\ objects s' = [Examples.publishFailure; failure]
    /\ SystemError.error failure
       = "Recovery failed for PublishingExecutionService: refused".
Proof.
  destruct (recovery_failure_is_logged Examples.deadNetwork Examples.oneLoggedFailing
              initialWorld
              (snd (snd (logError 0 JUndefined (Examples.oneLoggedFailing, initialWorld))))
              0 JUndefined Examples.failingStrategy "refused")
    as (notification & failure & s' & w' & Hrun & _ & Hobjects & _ & _ & _ & _ & Herror).
  - cbn. lia.
  - reflexivity.
  - reflexivity.
  - reflexivity.
  - exists notification, failure, s', w'. split; [exact Hrun |]. split; [exact Hobjects |].
    exact Herror.
Defined.

Lemma in_trimmed_log (l : list nat) (x y : nat) :
  last l = Some x -> (length l <= 1000)%nat ->
  In x (if (1000 <? length (l ++ [y]))%nat then sliceFrom (-1000) (l ++ [y]) else l ++ [y]).
Proof.
  intros Hlast Hbound.
  apply last_Some in Hlast as (l0 & ->).
  rewrite !length_app in *. cbn [length] in *.
  destruct (Nat.ltb_spec 1000 (length l0 + 1 + 1)) as [Hfull | Hroom].
  - rewrite (sliceFrom_negative 1000) by lia. rewrite !length_app. cbn [length].
    rewrite <- app_assoc. rewrite drop_app_le by lia.
    apply in_or_app. right. left. reflexivity.
  - apply in_or_app. left. apply in_or_app. right. left. reflexivity.
Qed.

(** X8: every error handed to [handleError] is in the log when the call
    returns, whichever way the call goes (pause, recovery, failed recovery,
    plain notification). *)
Theorem handled_error_is_logged (E : Env) (s : Fields) (w : World)
    (error : nat) (context : JsVal) :
  exists result s' w',
    handleError E error context (s, w) = (result, (s', w'))
    /\ In error (errors s').
Proof.
  destruct (logError_trims error context s w)
    as (s1 & w1 & Hlog & _ & Hlast & Hlength & Hobjects).
  assert (In error (errors s1)) as Hlogged.
  { apply last_Some in Hlast as (l0 & ->). apply in_or_app. right. left. reflexivity. }
  destruct (isErrorThresholdExceeded s1 (SystemError.component (deref (objects s1) error)))
    eqn:Hexceeded.
  - destruct (handleThresholdExceeded_run E error s1 w1)
      as (pause & notification & w2 & Hrun & _).
    exists (Ok [pause; notification]), s1, w2. split; [| exact Hlogged].
    unfold handleError, bind at 1. rewrite Hlog. cbn [fst snd].
    unfold bind at 1, getFields. cbn [fst snd]. rewrite Hexceeded. exact Hrun.
  - pose proof (attemptRecovery_detail E error context s1 w1) as Hdetail.
    assert (forall actions s2 w2,
              attemptRecovery E error context (s1, w1) = (Ok actions, (s2, w2)) ->
              In error (errors s2) ->
              exists result s' w',
                handleError E error context (s, w) = (result, (s', w'))
                /\ In error (errors s')) as Hfinish.
    { intros actions s2 w2 Hrecovery Hkept.
      pose proof (handleError_below E error context s s1 s2 w w1 w2 actions
                    Hlog Hexceeded Hrecovery) as Hrun.
      destruct actions as [| a actions].
      - destruct Hrun as (notification & w3 & Hrun & _). eauto.
      - eauto. }
    destruct (recoveryStrategies s1 !! _) as [strategy |];
      [| exact (Hfinish _ _ _ Hdetail Hlogged)].
    destruct (recover strategy E _ context (tt, w1)) as [[[| a actions] | message] [[] w2]].
    + exact (Hfinish _ _ _ Hdetail Hlogged).
    + destruct Hdetail as (l & Hrecovery & _ & Hkeep).
      apply (Hfinish _ _ _ Hrecovery). cbn [setErrors errors].
      apply list_elem_of_In, Hkeep, list_elem_of_In, Hlogged.
    + destruct Hdetail as (s2 & w3 & Hrecovery & Hlog2).
      apply (Hfinish _ _ _ Hrecovery).
      match type of Hlog2 with logError ?a ?c (?s0, ?w0) = _ =>
        destruct (logError_run a c s0 w0) as (kept & w4 & Hrun & Hkept) end.
      rewrite Hrun in Hlog2. injection Hlog2 as <- <-.
      cbn [setErrors setObjects errors] in *. subst kept.
      apply in_trimmed_log; [exact Hlast | lia].
Qed.

Local Transparent updateErrorStatus logError handleThresholdExceeded attemptRecovery.

End ErrorLogMore.

(** ** Manual resolution *)

Section Resolution.
Import ErrorHandling ErrorSpec.

Lemma deref_insert (objs : list SystemError.t) (a b : nat) (e : SystemError.t) :
  deref (<[a := e]> objs) b
  = if decide (a = b /\ (a < length objs)%nat) then e else deref objs b.
Proof.
  unfold deref. destruct (decide (a = b /\ (a < length objs)%nat)) as [[-> Hlt] | Hno].
  - rewrite list_lookup_insert_eq by exact Hlt. reflexivity.
  - destruct (decide (a = b)) as [-> | Hne].
    + rewrite list_insert_ge by lia. reflexivity.
    + rewrite list_lookup_insert_ne by exact Hne. reflexivity.
Qed.

Lemma matches_after_resolving (objs : list SystemError.t) (ts c : string) (a b : nat) :
  matches (<[a := SystemError.markResolved (deref objs a)]> objs) ts c b = matches objs ts c b.
Proof.
  unfold matches. rewrite deref_insert.
  destruct (decide _) as [[-> _] | _]; reflexivity.
Qed.

Lemma find_pointwise {A} (p q : A -> bool) (l : list A) :
  (forall x, p x = q x) -> List.find p l = List.find q l.
Proof.
  intros H. induction l as [| x l IH]; cbn; [reflexivity |]. rewrite H, IH. reflexivity.
Qed.

(** X9: [resolveError(timestamp, component)] answers true exactly when
    some logged error has that timestamp and component; it then marks one
    such error resolved and changes nothing else (the log, every other
    object, strategies and thresholds stay), and answers false without any
    change otherwise. Resolving the same error again gives the same answer
    and the same service. *)
Theorem resolveError_marks_one (errorTimestamp component : string) (s : Fields) :
  let found := fst (resolveError errorTimestamp component s) in
  let s' := snd (resolveError errorTimestamp component s) in
  (found = true <-> exists a, In a (errors s)
                              /\ matches (objects s) errorTimestamp component a = true)
  /\ (found = false -> s' = s)
  /\ (found = true ->
      exists a, In a (errors s)
                /\ matches (objects s) errorTimestamp component a = true
                /\ objects s' = <[a := SystemError.markResolved (deref (objects s) a)]> (objects s)
                /\ ((a < length (objects s))%nat ->
                    SystemError.resolved (deref (objects s') a) = true))
  /\ errors s' = errors s
  /\ recoveryStrategies s' = recoveryStrategies s
  /\ errorThresholds s' = errorThresholds s
  /\ resolveError errorTimestamp component s' = (found, s').
Proof.
  cbn zeta. unfold resolveError.
  change (fun a => (SystemError.timestamp (deref (objects s) a) =? errorTimestamp)%string
                   && (SystemError.component (deref (objects s) a) =? component)%string)
    with (matches (objects s) errorTimestamp component).
  destruct (List.find (matches (objects s) errorTimestamp component) (errors s))
    as [a |] eqn:Hfind; cbn [fst snd setObjects objects errors recoveryStrategies errorThresholds].
  - pose proof (List.find_some _ _ Hfind) as [Hin Hmatch].
    split; [split; [intros _; exists a; auto | reflexivity] |].
    split; [discriminate |].
    split.
    { intros _. exists a. repeat split; try assumption.
      intros Hlt. rewrite deref_insert_same by exact Hlt. reflexivity. }
    repeat split.
    change (fun a0 => (SystemError.timestamp (deref ?o a0) =? errorTimestamp)%string
                      && (SystemError.component (deref ?o a0) =? component)%string)
      with (matches o errorTimestamp component).
    rewrite (find_pointwise _ (matches (objects s) errorTimestamp component))
      by (intros x; apply matches_after_resolving).
    rewrite Hfind. unfold setObjects. cbn [objects errors recoveryStrategies errorThresholds].
    do 2 f_equal. rewrite deref_insert.
    destruct (decide _) as [[_ Hlt] | Hno].
    + rewrite list_insert_insert_eq. reflexivity.
    + rewrite list_insert_insert_eq. reflexivity.
  - split.
    { split; [discriminate |]. intros (a & Hin & Hmatch).
      pose proof (List.find_none _ _ Hfind a Hin) as Hno. congruence. }
    split; [reflexivity |]. split; [discriminate |]. repeat split.
    unfold matches in Hfind. rewrite Hfind. reflexivity.
Qed.

End Resolution.

(** ** Statistics *)

Section Statistics.
Import ErrorHandling ErrorSpec.

Lemma fold_countByComponent (logged : list SystemError.t) (table : gmap string Group)
    (component : string) :
  arrIncludes component inheritedKeys = false ->
  fold_left countByComponent logged table !! component
  = addGroup (table !! component) (ofGroup component logged).
Proof.
  intros Hown. revert table. induction logged as [| e logged IH]; intros table.
  - reflexivity.
  - cbn [fold_left]. rewrite IH. unfold ofGroup. cbn [List.filter].
    unfold countByComponent.
    destruct (String.eqb_spec (SystemError.component e) component) as [-> | Hne].
    + rewrite Hown, lookup_insert_eq.
      set (members := List.filter _ logged).
      unfold addGroup.
      destruct (table !! component) as [g |]; cbn [default]; unfold id;
        destruct (SystemError.resolved e) eqn:Hresolved;
        (destruct members as [| m members'] eqn:Hmembers; cbv beta iota zeta;
         [| rewrite <- Hmembers]);
        cbn [List.filter length groupTotal groupResolved groupUnresolved];
        rewrite ?Hresolved; cbn [negb length]; f_equal; f_equal; lia.
    + destruct (arrIncludes (SystemError.component e) inheritedKeys); [reflexivity |].
      rewrite lookup_insert_ne by exact Hne. reflexivity.
Qed.

Lemma fold_countByComponent_inherited (logged : list SystemError.t)
    (table : gmap string Group) (component : string) :
  arrIncludes component inheritedKeys = true ->
  fold_left countByComponent logged table !! component = table !! component.
Proof.
  intros Hinherited. revert table. induction logged as [| e logged IH]; intros table.
  - reflexivity.
  - cbn [fold_left]. rewrite IH. unfold countByComponent.
    destruct (arrIncludes (SystemError.component e) inheritedKeys) eqn:He; [reflexivity |].
    rewrite lookup_insert_ne; [reflexivity |]. intros Heq. congruence.
Qed.

Lemma fold_countBySeverity (logged : list SystemError.t) (table : gmap string nat)
    (severity : Severity.t) :
  let n := length (List.filter
                     (fun e => String.eqb (Severity.toString (SystemError.severity e))
                                          (Severity.toString severity)) logged) in
  fold_left countBySeverity logged table !! Severity.toString severity
  = match n with
    | 0%nat => table !! Severity.toString severity
    | _ => Some (default 0%nat (table !! Severity.toString severity) + n)%nat
    end.
Proof.
  cbn zeta. revert table. induction logged as [| e logged IH]; intros table.
  - reflexivity.
  - cbn [fold_left List.filter]. rewrite IH. unfold countBySeverity.
    destruct (String.eqb_spec (Severity.toString (SystemError.severity e))
                              (Severity.toString severity)) as [-> | Hne].
    + rewrite lookup_insert_eq. cbn [length default]. unfold id.
      destruct (length (List.filter _ logged)); f_equal; lia.
    + rewrite lookup_insert_ne by exact Hne. reflexivity.
Qed.

Lemma filter_partition_length {A} (p : A -> bool) (l : list A) :
  length l = (length (List.filter p l) + length (List.filter (fun x => negb (p x)) l))%nat.
Proof.
  induction l as [| x l IH]; cbn; [reflexivity |].
  destruct (p x); cbn; lia.
Qed.

(** X10: the statistics agree with the log: [total] is the number of
    logged errors and the sum of [resolved] and [unresolved]; [byComponent]
    has an entry exactly for the components with at least one logged error
    (other than the names of members of Object.prototype, which never get
    an entry), holding that component's count and its split into resolved
    and unresolved; [bySeverity] has an entry exactly for the severities
    that occur, holding their count. *)
Theorem getErrorStats_agrees_with_log (s : Fields) :
  let logged := map (deref (objects s)) (errors s) in
  let stats := getErrorStats s in
  total stats = length (errors s)
  /\ total stats = (resolved stats + unresolved stats)%nat
  /\ (forall component,
        byComponent stats !! component
        = if arrIncludes component inheritedKeys then None
          else groupOf (ofGroup component logged))
  /\ (forall component g,
        byComponent stats !! component = Some g ->
        groupTotal g = (groupResolved g + groupUnresolved g)%nat /\ (0 < groupTotal g)%nat)
  /\ (forall severity,
        bySeverity stats !! Severity.toString severity
        = match length (List.filter
                          (fun e => String.eqb (Severity.toString (SystemError.severity e))
                                               (Severity.toString severity)) logged) with
          | 0%nat => None
          | n => Some n
          end).
Proof.
  cbn zeta. unfold getErrorStats. cbn [total resolved unresolved byComponent bySeverity].
  set (logged := map (deref (objects s)) (errors s)).
  assert (forall component,
            fold_left countByComponent logged ∅ !! component
            = if arrIncludes component inheritedKeys then None
              else groupOf (ofGroup component logged)) as Hgroups.
  { intros component. destruct (arrIncludes component inheritedKeys) eqn:Hkey.
    - rewrite fold_countByComponent_inherited by exact Hkey. apply lookup_empty.
    - rewrite fold_countByComponent by exact Hkey. rewrite lookup_empty.
      unfold addGroup, groupOf. destruct (ofGroup component logged); reflexivity. }
  split; [subst logged; apply length_map |].
  split; [apply filter_partition_length |].
  split; [exact Hgroups |].
  split.
  - intros component g Hg. rewrite Hgroups in Hg.
    destruct (arrIncludes component inheritedKeys); [discriminate |].
    unfold groupOf in Hg. destruct (ofGroup component logged) as [| m members] eqn:Hm;
      [discriminate |].
    apply (inj Some) in Hg. subst g. cbn [groupTotal groupResolved groupUnresolved].
    split; [exact (filter_partition_length SystemError.resolved (m :: members))
           | cbn [length]; lia].
  - intros severity. rewrite fold_countBySeverity. rewrite lookup_empty.
    destruct (length _); reflexivity.
Qed.

End Statistics.

(** ** Clearing and the pause *)

Section ClearAndPause.
Import ErrorHandling ErrorSpec.

Lemma filter_filter_negb {A} (p : A -> bool) (l : list A) :
  List.filter p (List.filter (fun x => negb (p x)) l) = [].
Proof.
  induction l as [| x l IH]; cbn; [reflexivity |].
  destruct (p x) eqn:Hx; cbn; [exact IH |]. rewrite Hx. exact IH.
Qed.

Lemma filter_suffix_length {A} (p : A -> bool) (l k : list A) :
  l `suffix_of` k -> (length (List.filter p l) <= length (List.filter p k))%nat.
Proof.
  intros (prefix & ->). rewrite List.filter_app, length_app. lia.
Qed.

(** X11: clearing a component's errors lifts its pause: after
    [clearErrors(component)] with a non-empty name the component has no
    logged error, and if its threshold is at least 2, the next error is
    logged without the component reaching its threshold, so that
    [handleError] goes on to recovery instead of pausing. *)
Theorem clearErrors_lifts_pause (s : Fields) (w : World) (component : string)
    (error : nat) (context : JsVal) :
  component <> "" ->
  2 <= thresholdOf s component ->
  let cleared := clearErrors (Some component) s in
  getErrorCount cleared component = 0%nat
  /\ isErrorThresholdExceeded (fst (snd (logError error context (cleared, w)))) component
     = false.
Proof.
  intros Hname Hthreshold cleared.
  assert (truthyStr (Some component) = true) as Htruthy.
  { cbn. destruct (String.eqb_spec component ""); [contradiction | reflexivity]. }
  assert (ofComponent cleared component = []) as Hnone.
  { subst cleared. unfold clearErrors. rewrite Htruthy. unfold ofComponent.
    cbn [setErrors errors objects show default]. unfold id.
    apply (filter_filter_negb
             (fun a => String.eqb (SystemError.component (deref (objects s) a)) component)). }
  assert (objects cleared = objects s /\ errorThresholds cleared = errorThresholds s)
    as [Hobjects Hthresholds].
  { subst cleared. unfold clearErrors. rewrite Htruthy. split; reflexivity. }
  split; [unfold getErrorCount; rewrite Hnone; reflexivity |].
  destruct (logError_run error context cleared w) as (kept & w' & Hrun & Hkept).
  rewrite Hrun. cbn [fst snd].
  destruct (isErrorThresholdExceeded (setErrors kept cleared) component) eqn:Hexceeded;
    [| reflexivity].
  apply exceeded_iff_count in Hexceeded.
  assert (thresholdOf (setErrors kept cleared) component = thresholdOf s component)
    as Hsame by (unfold thresholdOf; cbn [setErrors errorThresholds]; rewrite Hthresholds;
                 reflexivity).
  rewrite Hsame in Hexceeded.
  assert (getErrorCount (setErrors kept cleared) component <= 1)%nat as Hone.
  { unfold getErrorCount, ofComponent. cbn [setErrors errors objects].
    assert (kept `suffix_of` (errors cleared ++ [error])) as Hsuffix.
    { subst kept. destruct (_ <? _)%nat; [| reflexivity].
      rewrite (sliceFrom_negative 1000) by lia. apply suffix_drop. }
    etransitivity; [apply filter_suffix_length; exact Hsuffix |].
    rewrite List.filter_app, length_app.
    unfold ofComponent in Hnone. rewrite Hnone. cbn [length List.filter]. destruct (_ =? _)%string; cbn; lia. }
  lia.
Qed.

Lemma clearErrors_lifts_pause_witness :
  let cleared := clearErrors (Some "ErrorHandlingService") Examples.threeLogged in
  getErrorCount Examples.threeLogged "ErrorHandlingService" = 3%nat
  /\ getErrorCount cleared "ErrorHandlingService" = 0%nat
  /\ isErrorThresholdExceeded
       (fst (snd (logError 3 JUndefined (cleared, initialWorld)))) "ErrorHandlingService"
     = false.
Proof.
  split; [reflexivity |].
  apply (clearErrors_lifts_pause Examples.threeLogged initialWorld "ErrorHandlingService"
           3 JUndefined); [discriminate | vm_compute; discriminate].
Defined.

End ClearAndPause.

(** ** The publisher: the simplified body *)

Section Simplified.
Import Publishing.

Lemma assocGet_assocSet {A} (k k' : string) (v : A) (o : list (string * A)) :
  assocGet k (assocSet k' v o) = if String.eqb k k' then Some v else assocGet k o.
Proof.
  induction o as [| [k0 v0] o IH]; cbn.
  - destruct (String.eqb k k'); reflexivity.
  - destruct (String.eqb_spec k' k0) as [-> | Hne]; cbn.
    + destruct (String.eqb k k0); reflexivity.
    + rewrite IH. destruct (String.eqb_spec k k0) as [-> | Hne']; [| reflexivity].
      destruct (String.eqb_spec k0 k'); [congruence | reflexivity].
Qed.

(** One turn of the [forEach] of [retryWithSimplifiedContent]. *)
Let keep (body : JsVal) (simplified : list (string * JsVal)) (field : string) :=
  if truthy (optGet body field)
  then assocSet field (optGet body field) simplified
  else simplified.

Lemma assocGet_keep (body : JsVal) (fields : list string) (k : string)
    (simplified : list (string * JsVal)) :
  assocGet k (fold_left (keep body) fields simplified)
  = if arrIncludes k fields && truthy (optGet body k)
    then Some (optGet body k)
    else assocGet k simplified.
Proof.
  revert simplified. induction fields as [| f fields IH]; intros simplified; [reflexivity |].
  cbn [fold_left arrIncludes existsb]. rewrite IH. unfold arrIncludes. cbn [existsb].
  destruct (existsb (String.eqb k) fields) eqn:Hlater; cbn [orb andb].
  - rewrite orb_true_r. cbn [andb].
    destruct (truthy (optGet body k)) eqn:Hk; [reflexivity |].
    unfold keep. destruct (truthy (optGet body f)) eqn:Hf; [| reflexivity].
    rewrite assocGet_assocSet. destruct (String.eqb_spec k f) as [-> | _]; [congruence |].
    reflexivity.
  - rewrite orb_false_r. unfold keep.
    destruct (String.eqb_spec k f) as [-> | Hne]; cbn [andb].
    + destruct (truthy (optGet body f)) eqn:Hf; [| reflexivity].
      rewrite assocGet_assocSet, String.eqb_refl. reflexivity.
    + destruct (truthy (optGet body f)); [| reflexivity].
      rewrite assocGet_assocSet. destruct (String.eqb_spec k f); [congruence | reflexivity].
Qed.

Lemma fold_keep_agree (body body' : JsVal) (fields : list string)
    (simplified : list (string * JsVal)) :
  (forall f, In f fields ->
             optGet body' f = if truthy (optGet body f) then optGet body f else JUndefined) ->
  fold_left (keep body') fields simplified = fold_left (keep body) fields simplified.
Proof.
  revert simplified. induction fields as [| f fields IH]; intros simplified Hsame;
    [reflexivity |].
  cbn [fold_left]. rewrite IH by (intros g Hg; apply Hsame; right; exact Hg).
  f_equal. unfold keep. rewrite (Hsame f) by (left; reflexivity).
  destruct (truthy (optGet body f)) eqn:Hf; [rewrite Hf |]; reflexivity.
Qed.

Lemma simplifiedBody_fold (body : JsVal) :
  simplifiedBody body
  = JObj (if truthy body
          then fold_left (keep body) ["title"; "body"; "type"; "name"; "description"] []
          else []).
Proof. reflexivity. Qed.

(** X12: the simplified body is an object that has, of the five essential
    fields, exactly those whose value in the original body is truthy, with
    that value, and no other field; simplifying twice changes nothing
    more. *)
Theorem simplifiedBody_keeps_essentials (body : JsVal) (field : string) :
  optGet (simplifiedBody body) field
  = (if arrIncludes field ["title"; "body"; "type"; "name"; "description"]
        && truthy (optGet body field)
     then optGet body field
     else JUndefined)
  /\ simplifiedBody (simplifiedBody body) = simplifiedBody body.
Proof.
  assert (forall k,
            optGet (simplifiedBody body) k
            = if arrIncludes k ["title"; "body"; "type"; "name"; "description"]
                 && truthy (optGet body k)
              then optGet body k
              else JUndefined) as Hget.
  { intros k. destruct (truthy body) eqn:Hbody.
    - rewrite simplifiedBody_fold, Hbody. cbn [optGet].
      rewrite assocGet_keep. destruct (_ && _); reflexivity.
    - rewrite simplifiedBody_fold, Hbody. cbn [optGet assocGet default].
      assert (optGet body k = JUndefined) as ->
        by (destruct body as [| | | | | |]; try reflexivity; discriminate).
      cbn [truthy]. rewrite andb_false_r. reflexivity. }
  split; [apply Hget |].
  rewrite (simplifiedBody_fold (simplifiedBody body)).
  replace (truthy (simplifiedBody body)) with true by reflexivity.
  rewrite (simplifiedBody_fold body) at 2. f_equal.
  destruct (truthy body) eqn:Hbody.
  - apply fold_keep_agree. intros f Hf. rewrite Hget.
    apply arrIncludes_In in Hf. rewrite Hf. cbn [andb]. reflexivity.
  - assert (forall f, optGet body f = JUndefined) as Hnone
      by (intros f; destruct body as [| | | | | |]; try reflexivity; discriminate).
    rewrite (fold_keep_agree body) by (intros f _; rewrite Hget, !Hnone, andb_false_r; reflexivity).
    unfold keep. cbn [fold_left]. rewrite !Hnone. reflexivity.
Qed.
End Simplified.

(** ** The publisher: the outcome of recovery *)

Section RecoveryOutcome.
Import Publishing PublishSpec.

Variable E : Env.
Variable request : APIRequest.t.
Variable connection : FrontendConnection.t.

Lemma exhausted_forallb {A} (n : nat) (rounds : list A) :
  exhausted E n rounds
  = forallb (fun k => failed (network E k)) (seq n (length rounds)).
Proof.
  revert n. induction rounds as [| round rest IH]; intros n; [reflexivity |].
  cbn [exhausted length seq forallb]. rewrite IH. reflexivity.
Qed.

Lemma performed_nonempty {A} (n : nat) (rounds : list A) :
  rounds <> [] -> (1 <= length (performed E n rounds))%nat.
Proof. destruct rounds; [congruence |]. intros _. cbn. lia. Qed.

Lemma retryWithSimplifiedContent_fetches (s : Fields) (w : World) :
  exists w',
    retryWithSimplifiedContent E request connection (s, w)
    = (if rejected (network E (fetches w))
       then Throw "Simplified content retry failed" else Ok tt,
       (s, w'))
    /\ fetches w' = S (fetches w)
    /\ clockReads w' = clockReads w.
Proof.
  unfold retryWithSimplifiedContent, tryCatch, bind, send, fetch, throw.
  cbn [fst snd].
  destruct (network E (fetches w)) as [response | message]; cbn [rejected].
  - destruct (ok response); eexists; (split; [reflexivity |]); split; reflexivity.
  - eexists. split; [reflexivity |]. split; reflexivity.
Qed.

(** The outcome of the recovery chain. *)
Lemma attemptRecovery_outcome (errorMessage : string) (s : Fields) (w : World) :
  exists w',
    attemptRecovery E request connection errorMessage (s, w)
    = (Ok tt,
       (if unrecovered E (fetches w)
        then {| errors := errors s ++
                  [mkError (toISOString E (clock E (clockReads w)))
                     ("All recovery strategies failed for "
                      +:+ show (FrontendConnection.name connection)
                      +:+ ": " +:+ errorMessage)
                     Severity.critical];
                executionHistory := executionHistory s |}
        else s,
        w'))
    /\ (fetches w < fetches w' <= fetches w + 7)%nat
    /\ (unrecovered E (fetches w) = true -> fetches w' = (fetches w + 7)%nat).
Proof.
  destruct (backoffLoop_run E request [1000; 3000; 5000] s w)
    as (w1 & Hb & _ & Hfetches1 & Hclock1).
  cbn [map] in Hb, Hfetches1.
  change [[Sleep 1000; resent request]; [Sleep 3000; resent request];
          [Sleep 5000; resent request]] with (backoffRounds request) in *.
  pose proof (performed_bounds E (fetches w) (backoffRounds request)) as (_ & Hle1 & _).
  pose proof (performed_nonempty (fetches w) (backoffRounds request)) as Hge1.
  cbn [backoffRounds length] in Hle1. specialize (Hge1 ltac:(discriminate)).
  unfold attemptRecovery.
  rewrite (strategyLoop_step E connection _ _ errorMessage s s w w1 _ Hb).
  unfold unrecovered.
  change (seq (fetches w) 6) with (seq (fetches w) (3 + 3)). rewrite seq_app, forallb_app.
  change (forallb _ (seq (fetches w) 3))
    with (forallb (fun k => failed (network E k))
            (seq (fetches w) (length (backoffRounds request)))).
  rewrite <- (exhausted_forallb (fetches w) (backoffRounds request)).
  destruct (exhausted E (fetches w) (backoffRounds request)) eqn:Hex1; cbv beta iota.
  2: { cbn [andb]. eexists. split; [reflexivity |]. cbn [fetches recorded]. split; [lia | discriminate]. }
  rewrite (exhausted_length E _ _ Hex1) in Hfetches1. cbn [length backoffRounds] in Hfetches1.
  remember (recorded (ConsoleLog ("Recovery strategy failed for "
                                   +:+ show (FrontendConnection.name connection)
                                   +:+ ": " +:+ "Retry with backoff failed")) w1)
    as w1' eqn:Hw1'.
  assert (fetches w1' = (fetches w + 3)%nat /\ clockReads w1' = clockReads w)
    as [Hf1 Hc1] by (subst w1'; cbn; split; lia).
  destruct (alternativeAuthLoop_run E request connection
              [("api_key", "X-API-Key"); ("api_key", "Authorization");
               ("jwt", "Authorization")] s w1')
    as (w2 & Ha & _ & Hfetches2 & Hclock2).
  cbn [map snd] in Ha, Hfetches2.
  change (map _ ["X-API-Key"; "Authorization"; "Authorization"])
    with (alternativeAuthRounds request connection) in *.
  rewrite Hf1 in *.
  pose proof (performed_bounds E (fetches w + 3) (alternativeAuthRounds request connection))
    as (_ & Hle2 & _).
  pose proof (performed_nonempty (fetches w + 3) (alternativeAuthRounds request connection))
    as Hge2.
  cbn [alternativeAuthRounds length map] in Hle2. specialize (Hge2 ltac:(discriminate)).
  rewrite (strategyLoop_step E connection _ _ errorMessage s s w1' w2 _ Ha).
  assert (forallb (fun k => failed (network E k)) (seq (fetches w + 3) 3)
          = exhausted E (fetches w + 3) (alternativeAuthRounds request connection)) as ->.
  { rewrite exhausted_forallb. reflexivity. }
  change (exhausted E (fetches w + 3) _)
    with (exhausted E (fetches w + 3) (alternativeAuthRounds request connection)).
  destruct (exhausted E (fetches w + 3) (alternativeAuthRounds request connection)) eqn:Hex2;
    cbv beta iota.
  2: { cbn [andb]. eexists. split; [reflexivity |]. cbn [fetches recorded]. split; [lia | discriminate]. }
  change (length (performed E (fetches w + 3) _))
    with (length (performed E (fetches w + 3) (alternativeAuthRounds request connection)))
    in Hfetches2.
  rewrite (exhausted_length E _ _ Hex2) in Hfetches2.
  cbn [length alternativeAuthRounds map] in Hfetches2.
  remember (recorded (ConsoleLog ("Recovery strategy failed for "
                                   +:+ show (FrontendConnection.name connection)
                                   +:+ ": " +:+ "Alternative authentication failed")) w2)
    as w2' eqn:Hw2'.
  assert (fetches w2' = (fetches w + 6)%nat /\ clockReads w2' = clockReads w)
    as [Hf2 Hc2] by (subst w2'; cbn; split; lia).
  destruct (retryWithSimplifiedContent_fetches s w2') as (w3 & Hs & Hfetches3 & Hclock3).
  rewrite Hf2 in *.
  rewrite (strategyLoop_step E connection _ _ errorMessage s s w2' w3 _ Hs).
  cbn [andb].
  destruct (rejected (network E (fetches w + 6))) eqn:Hlast; cbv beta iota.
  - cbn [strategyLoop]. unfold bind, isoNow, bind, dateNow, ret, pushError, bind,
      getFields, setFields. cbn.
    eexists. split.
    + do 4 f_equal. rewrite Hclock3, Hc2. reflexivity.
    + cbn. split; lia.
  - eexists. split; [reflexivity |]. cbn [fetches recorded]. split; [lia | discriminate].
Qed.

(** X13: the recovery chain never throws and leaves the execution history
    alone. It gives up, adding one critical error "All recovery strategies
    failed for <name>: <message>" to the service's error list, exactly when
    the six resends fail and the simplified request is refused outright; a
    response to the simplified request, whatever its status, counts as a
    recovery. The chain issues between one and seven fetches, seven when it
    gives up. *)
Theorem recovery_gives_up_only_when_refused (errorMessage : string) (s : Fields)
    (w : World) :
  exists s' w' iso,
    attemptRecovery E request connection errorMessage (s, w) = (Ok tt, (s', w'))
    /\ executionHistory s' = executionHistory s
    /\ errors s'
       = errors s ++
         (if unrecovered E (fetches w)
          then [mkError iso ("All recovery strategies failed for "
                             +:+ show (FrontendConnection.name connection)
                             +:+ ": " +:+ errorMessage)
                        Severity.critical]
          else [])
    /\ (fetches w < fetches w' <= fetches w + 7)%nat
    /\ (unrecovered E (fetches w) = true -> fetches w' = (fetches w + 7)%nat).
Proof.
  destruct (attemptRecovery_outcome errorMessage s w) as (w' & Hrun & Hfetches & Hseven).
  eexists _, w', (toISOString E (clock E (clockReads w))). split; [exact Hrun |].
  destruct (unrecovered E (fetches w)); cbn [errors executionHistory].
  - split; [reflexivity |]. split; [reflexivity |]. split; [lia | exact Hseven].
  - rewrite app_nil_r. split; [reflexivity |]. split; [reflexivity |].
    split; [lia | discriminate].
Qed.

End RecoveryOutcome.

(** ** The publisher: sending *)

Section SendOutcome.
Import Publishing PublishSpec.

Variable E : Env.
Variable connection : FrontendConnection.t.

Lemma ownError_mkError (iso message : string) (severity : Severity.t) :
  severity = Severity.high \/ severity = Severity.critical ->
  ownError (mkError iso message severity).
Proof. intros H. repeat split. exact H. Qed.

Local Opaque attemptRecovery.

Lemma executeRequests_cons (request : APIRequest.t) (rest : list APIRequest.t)
    (s : Fields) (w : World) :
  exists new w1,
    executeRequests E (request :: rest) connection (s, w)
    = executeRequests E rest connection
        ({| errors := errors s ++ new; executionHistory := executionHistory s |}, w1)
    /\ Forall ownError new
    /\ (length new <= 2)%nat
    /\ (fetches w + 1 <= fetches w1 <= fetches w + 8)%nat
    /\ (failed (network E (fetches w)) = false
        -> new = [] /\ fetches w1 = (fetches w + 1)%nat).
Proof.
  assert (forall errorMessage w0,
            fetches w0 = S (fetches w) ->
            exists new w1,
              (iso <- isoNow E ;;
               pushError (mkError iso ("Failed to execute request to "
                                       +:+ show (FrontendConnection.name connection)
                                       +:+ ": " +:+ errorMessage)
                                  Severity.high) ;;;
               attemptRecovery E request connection errorMessage) (s, w0)
              = (Ok tt, ({| errors := errors s ++ new;
                            executionHistory := executionHistory s |}, w1))
              /\ Forall ownError new
              /\ (length new <= 2)%nat
              /\ (fetches w + 1 <= fetches w1 <= fetches w + 8)%nat) as Hcatch.
  { intros errorMessage w0 Hw0.
    unfold bind at 1, isoNow, bind at 1, dateNow, ret. cbn [fst snd].
    unfold bind at 1, pushError, bind at 1, getFields, setFields. cbn [fst snd].
    match goal with |- context [attemptRecovery E request connection errorMessage (?s1, ?w1)] =>
      destruct (attemptRecovery_outcome E request connection errorMessage s1 w1)
        as (w2 & Hrun & Hfetches & _); cbn [fetches errors executionHistory] in Hrun, Hfetches
    end.
    rewrite Hrun.
    destruct (unrecovered E _).
    - eexists [_; _], w2. cbn [errors executionHistory]. rewrite <- app_assoc.
      split; [reflexivity |].
      split; [repeat constructor; apply ownError_mkError; auto |]. cbn [length]. split; lia.
    - eexists [_], w2. split; [reflexivity |].
      split; [repeat constructor; apply ownError_mkError; auto |]. cbn [length]. split; lia. }
  cbn [executeRequests]. unfold bind at 1, tryCatch, bind at 1, send, fetch.
  cbn [fst snd].
  destruct (network E (fetches w)) as [response | message]; cbn [failed].
  - destruct (ok response); cbn [negb].
    + unfold bind, isoNow, bind, dateNow, ret, emit, consoleLog, emit. cbn [fst snd].
      exists []. eexists. rewrite app_nil_r.
      split; [destruct s; reflexivity |].
      split; [constructor |]. cbn. repeat split; lia.
    + unfold throw at 1. cbn [fst snd].
      match goal with |- context [pushError _ ;;; _] => idtac end.
      match goal with |- context [Build_World ?c ?f ?r ?t] =>
        destruct (Hcatch ("HTTP " +:+ numToString (status response) +:+ ": "
                          +:+ statusText response) (Build_World c f r t) eq_refl)
          as (new & w1 & Hrun & Hown & Hlen & Hfetches) end.
      rewrite Hrun. exists new, w1. split; [reflexivity |]. repeat split; try assumption; try lia;
        discriminate.
  - match goal with |- context [Build_World ?c ?f ?r ?t] =>
      destruct (Hcatch message (Build_World c f r t) eq_refl)
        as (new & w1 & Hrun & Hown & Hlen & Hfetches) end.
    rewrite Hrun. exists new, w1. split; [reflexivity |]. repeat split; try assumption; try lia;
      discriminate.
Qed.

Lemma executeRequests_run (requests : list APIRequest.t) (s : Fields) (w : World) :
  exists new w',
    executeRequests E requests connection (s, w)
    = (Ok tt, ({| errors := errors s ++ new; executionHistory := executionHistory s |}, w'))
    /\ Forall ownError new
    /\ (length new <= 2 * length requests)%nat
    /\ (fetches w + length requests <= fetches w' <= fetches w + 8 * length requests)%nat.
Proof.
  revert s w. induction requests as [| request rest IH]; intros s w.
  - exists [], w. cbn. rewrite app_nil_r. destruct s. repeat split; try lia. constructor.
  - destruct (executeRequests_cons request rest s w)
      as (new1 & w1 & Hstep & Hown1 & Hlen1 & Hfetches1 & _).
    rewrite Hstep.
    destruct (IH {| errors := errors s ++ new1; executionHistory := executionHistory s |} w1)
      as (new2 & w2 & Hrun & Hown2 & Hlen2 & Hfetches2).
    cbn [errors executionHistory] in Hrun. rewrite <- app_assoc in Hrun.
    exists (new1 ++ new2), w2. split; [exact Hrun |].
    split; [apply Forall_app; split; assumption |].
    rewrite length_app. cbn [length]. split; lia.
Qed.

Local Transparent attemptRecovery.

(** X14: [executeRequests] never throws, whatever the network does. It
    leaves the execution history alone and only appends to the service's
    error list: at most two entries per request, each an unresolved error of
    the publishing service of high or critical severity. It issues at least
    one and at most eight fetches per request. *)
Theorem executeRequests_never_throws (requests : list APIRequest.t) (s : Fields)
    (w : World) :
  exists s' w' new,
    executeRequests E requests connection (s, w) = (Ok tt, (s', w'))
    /\ executionHistory s' = executionHistory s
    /\ errors s' = errors s ++ new
    /\ Forall ownError new
    /\ (length new <= 2 * length requests)%nat
    /\ (fetches w + length requests <= fetches w' <= fetches w + 8 * length requests)%nat.
Proof.
  destruct (executeRequests_run requests s w) as (new & w' & Hrun & Hown & Hlen & Hfetches).
  do 3 eexists. split; [exact Hrun |]. cbn [errors executionHistory].
  repeat split; try assumption; lia.
Qed.

End SendOutcome.

(** ** The publisher: what a run reports *)

Section PublishAccounting.
Import Publishing PublishSpec.

Variable E : Env.
Variable prepareRequestBody : ProcessedContent.t -> ApiEndpoint.t -> Result JsVal.
Variable processedContent : ProcessedContent.t.
Variable schemas : gmap string FrontendSchema.t.

Lemma quietly_ret {A} (P : A -> Prop) (a : A) : P a -> quietly P (ret a).
Proof. intros H s w. exists (Ok a), w. repeat split. exact H. Qed.

Lemma quietly_throw {A} (P : A -> Prop) (message : string) : quietly P (throw message).
Proof. intros s w. exists (Throw message), w. repeat split. Qed.

Lemma quietly_bind {A B} (P : A -> Prop) (Q : B -> Prop) (m : M Fields A)
    (k : A -> M Fields B) :
  quietly P m -> (forall a, P a -> quietly Q (k a)) -> quietly Q (bind m k).
Proof.
  intros Hm Hk s w. destruct (Hm s w) as (r & w1 & Hrun & Htrace & Hfetches & HP).
  unfold bind. rewrite Hrun. destruct r as [a | message].
  - destruct (Hk a HP s w1) as (r2 & w2 & Hrun2 & Htrace2 & Hfetches2 & HQ).
    exists r2, w2. split; [exact Hrun2 |]. split; [congruence |]. split; [congruence |].
    exact HQ.
  - exists (Throw message), w1. repeat split; assumption.
Qed.

Lemma quietly_dateNow : quietly (fun _ => True) (dateNow E).
Proof. intros s w. do 2 eexists. unfold dateNow. split; [reflexivity |]. repeat split. Qed.

Ltac quiet :=
  repeat first
    [ apply quietly_ret
    | apply quietly_throw
    | apply quietly_dateNow
    | eapply (quietly_bind (fun _ => True)); [| intros ? _]
    | match goal with
      | |- quietly _ (if ?b then _ else _) => destruct b
      | |- quietly _ (match ?x with _ => _ end) => destruct x
      end
    | exact I
    | reflexivity ].

Lemma createRequest_quiet (connection : FrontendConnection.t) (endpoint : ApiEndpoint.t)
    (method : string) :
  quietly (fun _ => True)
          (createPostRequest prepareRequestBody processedContent connection endpoint)
  /\ quietly (fun _ => True)
             (createRequestWithId E prepareRequestBody method processedContent connection
                                  endpoint).
Proof.
  split.
  - unfold createPostRequest, createAuthHeaders, baseUrl, prepareBody. quiet.
  - unfold createRequestWithId, createAuthHeaders, baseUrl, prepareBody, contentId, getProp.
    quiet.
Qed.

(** Building the requests for one connection touches neither the fields
    nor the network, and gives exactly one request. *)
Lemma generateAPIRequests_one (connection : FrontendConnection.t)
    (schema : FrontendSchema.t) :
  quietly (fun requests => length requests = 1%nat)
          (generateAPIRequests E prepareRequestBody processedContent connection schema).
Proof.
  unfold generateAPIRequests.
  eapply (quietly_bind (fun _ => True)).
  { unfold findEndpointForContentType. quiet. }
  intros [endpoint |] _; [| apply quietly_throw].
  destruct (createRequest_quiet connection endpoint "PUT") as [Hpost Hput].
  destruct (createRequest_quiet connection endpoint "PATCH") as [_ Hpatch].
  repeat match goal with |- quietly _ (if ?b then _ else _) => destruct b end;
    try apply quietly_throw;
    (eapply quietly_bind; [eassumption | intros ? _; apply quietly_ret; reflexivity]).
Qed.

Local Opaque generateAPIRequests executeRequests.

Lemma publishTo_step (locals : list APIRequest.t * list SystemError.t)
    (connection : FrontendConnection.t) (s : Fields) (w : World) :
  exists locals' new w',
    publishTo E prepareRequestBody processedContent schemas locals connection (s, w)
    = (Ok locals',
       ({| errors := errors s ++ new; executionHistory := executionHistory s |}, w'))
    /\ ((exists r, locals' = (fst locals ++ [r], snd locals))
        \/ (exists e, locals' = (fst locals, snd locals ++ [e])
                      /\ SystemError.severity e = Severity.high
                      /\ new = [] /\ trace w' = trace w /\ fetches w' = fetches w))
    /\ Forall ownError new
    /\ (String.eqb (ProcessedContent.intent processedContent) "immediate" = false
        -> new = [] /\ trace w' = trace w /\ fetches w' = fetches w).
Proof.
  destruct locals as [apiRequests errs]. unfold publishTo. cbn [fst snd].
  assert (forall message w0,
            trace w0 = trace w -> fetches w0 = fetches w ->
            exists locals' new w',
              recordFailure E connection apiRequests errs message (s, w0)
              = (Ok locals',
                 ({| errors := errors s ++ new; executionHistory := executionHistory s |}, w'))
              /\ ((exists r, locals' = (apiRequests ++ [r], errs))
                  \/ (exists e, locals' = (apiRequests, errs ++ [e])
                                /\ SystemError.severity e = Severity.high
                                /\ new = [] /\ trace w' = trace w /\ fetches w' = fetches w))
              /\ Forall ownError new
              /\ (String.eqb (ProcessedContent.intent processedContent) "immediate" = false
                  -> new = [] /\ trace w' = trace w /\ fetches w' = fetches w)) as Hfail.
  { intros message w0 Htrace Hfetches.
    unfold recordFailure, bind, isoNow, bind, dateNow, ret. cbn [fst snd].
    eexists _, [], _. rewrite app_nil_r. split; [destruct s; reflexivity |].
    split; [right; eexists; repeat split; cbn; assumption |].
    split; [constructor |]. intros _. cbn. auto. }
  unfold tryCatch at 1.
  destruct (schemaOf schemas connection) as [schema |]; [| apply Hfail; reflexivity].
  unfold bind at 1.
  destruct (generateAPIRequests_one connection schema s w)
    as (r & w1 & Hgen & Htrace1 & Hfetches1 & Hone).
  rewrite Hgen. destruct r as [requests | message]; [| apply Hfail; assumption].
  destruct requests as [| request [| ? ?]]; try discriminate.
  unfold tryCatch, bind at 1.
  destruct (String.eqb (ProcessedContent.intent processedContent) "immediate") eqn:Hintent.
  - destruct (executeRequests_run E connection [request] s w1)
      as (new & w2 & Hrun & Hown & _).
    rewrite Hrun. unfold ret. exists (apiRequests ++ [request], errs), new, w2.
    split; [reflexivity |]. split; [left; eauto |]. split; [exact Hown | discriminate].
  - unfold ret. exists (apiRequests ++ [request], errs), [], w1. rewrite app_nil_r.
    split; [destruct s; reflexivity |]. split; [left; eauto |].
    split; [constructor | auto].
Qed.

Local Opaque publishTo.

Lemma publishAll_run (targetConnections : list FrontendConnection.t)
    (locals : list APIRequest.t * list SystemError.t) (s : Fields) (w : World) :
  exists locals' new w',
    publishAll E prepareRequestBody processedContent schemas locals targetConnections (s, w)
    = (Ok locals',
       ({| errors := errors s ++ new; executionHistory := executionHistory s |}, w'))
    /\ (length (fst locals') + length (snd locals')
        = length (fst locals) + length (snd locals) + length targetConnections)%nat
    /\ (exists added, snd locals' = snd locals ++ added
                      /\ Forall (fun e => SystemError.severity e = Severity.high) added)
    /\ Forall ownError new
    /\ (String.eqb (ProcessedContent.intent processedContent) "immediate" = false
        -> new = [] /\ trace w' = trace w /\ fetches w' = fetches w).
Proof.
  revert locals s w. induction targetConnections as [| connection rest IH]; intros locals s w.
  - exists locals, [], w. cbn. rewrite app_nil_r.
    split; [destruct s; reflexivity |]. split; [lia |].
    split; [exists []; rewrite app_nil_r; split; [reflexivity | constructor] |].
    split; [constructor | auto].
  - cbn [publishAll]. unfold bind at 1.
    destruct (publishTo_step locals connection s w)
      as (locals1 & new1 & w1 & Hstep & Hcase & Hown1 & Hquiet1).
    rewrite Hstep.
    destruct (IH locals1 {| errors := errors s ++ new1;
                            executionHistory := executionHistory s |} w1)
      as (locals2 & new2 & w2 & Hrun & Hcount & (added & Hadded & Hhigh) & Hown2 & Hquiet2).
    cbn [errors executionHistory] in Hrun. rewrite <- app_assoc in Hrun.
    exists locals2, (new1 ++ new2), w2. split; [exact Hrun |].
    split.
    { destruct Hcase as [(r & ->) | (e & -> & _)]; cbn [fst snd] in *;
        rewrite ?length_app in *; cbn [length] in *; lia. }
    split.
    { destruct Hcase as [(r & ->) | (e & -> & Hsev & _)]; cbn [fst snd] in *.
      - exists added. split; assumption.
      - exists (e :: added). rewrite Hadded, <- app_assoc. split; [reflexivity |].
        constructor; assumption. }
    split; [apply Forall_app; split; assumption |].
    intros Hintent. destruct (Hquiet1 Hintent) as (-> & Htrace1 & Hfetches1).
    destruct (Hquiet2 Hintent) as (-> & Htrace2 & Hfetches2).
    repeat split; congruence.
Qed.

Local Transparent generateAPIRequests executeRequests publishTo.
Local Opaque publishAll.

Variable frontendConnections : list FrontendConnection.t.

(** X15: in a publish run with at least one target, every target
    contributes either one request to [api_requests] or one error, of high
    severity, to [errors], never both: the two lengths add up to the number
    of targets. So the run is reported successful exactly when a request
    could be built for at least one target; what the network answered does
    not enter the result, it goes to the service's own error list. *)
Theorem publish_run_accounting (s : Fields) (w : World) :
  let targetConnections := targetConnectionsOf processedContent frontendConnections in
  targetConnections <> [] ->
  exists result new w',
    executePublishing E prepareRequestBody processedContent frontendConnections schemas (s, w)
    = (Ok result,
       ({| errors := errors s ++ new;
           executionHistory := executionHistory s ++ [result] |}, w'))
    /\ (length (ProcessingResult.api_requests result)
        + length (ProcessingResult.errors result) = length targetConnections)%nat
    /\ (ProcessingResult.success result = true
        <-> ProcessingResult.api_requests result <> [])
    /\ Forall (fun e => SystemError.severity e = Severity.high)
              (ProcessingResult.errors result)
    /\ Forall ownError new.
Proof.
  intros targetConnections Hsome.
  unfold executePublishing, bind at 1, dateNow. cbn [fst snd].
  unfold tryCatch. fold targetConnections.
  destruct (Nat.eqb_spec (length targetConnections) 0) as [Hzero | Hpositive].
  { destruct targetConnections; [contradiction | discriminate]. }
  unfold bind at 1.
  match goal with |- context [publishAll _ _ _ _ ?locals _ (?s0, ?w0)] =>
    destruct (publishAll_run targetConnections locals s0 w0)
      as ([apiRequests errs] & new & w1 & Hrun & Hcount & (added & Hadded & Hhigh) & Hown & _)
  end.
  rewrite Hrun. cbn [fst snd length app] in Hcount, Hadded. subst errs.
  unfold bind, dateNow, pushHistory, bind, getFields, setFields, ret. cbn.
  do 3 eexists. split; [reflexivity |]. cbn.
  split; [lia |]. split; [| split; assumption].
  change (match length targetConnections with
          | 0%nat => false
          | S m' => (length added <=? m')%nat
          end) with (length added <? length targetConnections)%nat.
  rewrite orb_true_iff, Nat.eqb_eq, Nat.ltb_lt.
  destruct apiRequests; cbn [length] in *; split; intros H; try congruence; try lia.
Qed.

(** X16: content whose intent is not "immediate" is never sent: the run
    builds the requests and reports them, but leaves the network, the timer
    and the console untouched and adds nothing to the service's error
    list. *)
Theorem deferred_content_is_not_sent (s : Fields) (w : World) :
  ProcessedContent.intent processedContent <> "immediate" ->
  exists result w',
    executePublishing E prepareRequestBody processedContent frontendConnections schemas (s, w)
    = (Ok result,
       ({| errors := errors s; executionHistory := executionHistory s ++ [result] |}, w'))
    /\ trace w' = trace w
    /\ fetches w' = fetches w.
Proof.
  intros Hintent. apply String.eqb_neq in Hintent.
  unfold executePublishing, bind at 1, dateNow. cbn [fst snd].
  unfold tryCatch.
  destruct (length (targetConnectionsOf processedContent frontendConnections) =? 0)%nat.
  { cbn [throw]. unfold bind, isoNow, bind, dateNow, pushHistory, bind, getFields,
      setFields, ret. cbn. do 2 eexists. split; [reflexivity |]. split; reflexivity. }
  unfold bind at 1.
  match goal with |- context [publishAll _ _ _ _ ?locals ?targets (?s0, ?w0)] =>
    destruct (publishAll_run targets locals s0 w0)
      as ([apiRequests errs] & new & w1 & Hrun & _ & _ & _ & Hquiet)
  end.
  rewrite Hrun. destruct (Hquiet Hintent) as (-> & Htrace & Hfetches).
  unfold bind, dateNow, pushHistory, bind, getFields, setFields, ret. cbn.
  rewrite app_nil_r. do 2 eexists. split; [reflexivity |]. cbn in *. split; assumption.
Qed.

Local Transparent publishAll.

End PublishAccounting.

Section PublishAccountingScenarios.
Import Publishing PublishSpec.

Lemma publish_run_accounting_witness :
  exists result s' w',
    executePublishing Examples.openNetwork Examples.plainBody Examples.article
      Examples.threeDestinations Examples.twoSchemas (construct, initialWorld)
    = (Ok result, (s', w'))
    /\ (length (ProcessingResult.api_requests result)
        + length (ProcessingResult.errors result) = 3)%nat.
Proof.
  destruct (publish_run_accounting Examples.openNetwork Examples.plainBody Examples.article
              Examples.twoSchemas Examples.threeDestinations construct initialWorld)
    as (result & new & w' & Hrun & Hcount & _).
  - vm_compute. discriminate.
  - exists result. do 2 eexists. split; [exact Hrun | exact Hcount].
Defined.

Lemma deferred_content_is_not_sent_witness :
  exists result w',
    executePublishing Examples.openNetwork Examples.plainBody Examples.draft
      Examples.threeDestinations Examples.threeSchemas (construct, initialWorld)
    = (Ok result, ({| errors := []; executionHistory := [result] |}, w'))
    /\ trace w' = []
    /\ fetches w' = 0%nat.
Proof.
  apply (deferred_content_is_not_sent Examples.openNetwork Examples.plainBody Examples.draft
           Examples.threeSchemas Examples.threeDestinations construct initialWorld).
  vm_compute. discriminate.
Defined.

End PublishAccountingScenarios.

(** ** The connection manager: schema discovery *)

Section SchemaDiscovery.
Import Connection ConnectionSpec PublishSpec.

Variable E : Env.
Variable parseOpenAPISchema : string -> Result FrontendSchema.t.
Variable jsonParse : string -> Result JsVal.
Variable jsonStringify : JsVal -> string.

Lemma probeLoop_run (paths : list string) (baseUrl : string)
    (headers : list (string * string)) (endpoints : list ApiEndpoint.t)
    (s : Fields) (w : World) :
  exists w',
    probeLoop E paths baseUrl headers endpoints (s, w)
    = (Ok (endpoints ++ flat_map probed (answered E (fetches w) paths)), (s, w'))
    /\ fetches w' = (fetches w + length paths)%nat
    /\ clockReads w' = clockReads w.
Proof.
  revert endpoints w. induction paths as [| path rest IH]; intros endpoints w.
  - exists w. cbn. rewrite app_nil_r, Nat.add_0_r. repeat split.
  - cbn [probeLoop answered]. unfold bind at 1, tryCatch, bind at 1, fetch. cbn [fst snd].
    destruct (network E (fetches w)) as [response | message]; cbn [failed].
    + destruct (ok response); cbn [negb ret].
      * match goal with |- context [probeLoop E rest baseUrl headers ?e (s, ?w1)] =>
          destruct (IH e w1) as (w' & Hrun & Hfetches & Hclock) end.
        exists w'. rewrite Hrun. cbn [fetches clockReads length] in *.
        rewrite flat_map_app, <- app_assoc. cbn [flat_map app]. rewrite app_nil_r.
        repeat split; [lia | exact Hclock].
      * match goal with |- context [probeLoop E rest baseUrl headers ?e (s, ?w1)] =>
          destruct (IH e w1) as (w' & Hrun & Hfetches & Hclock) end.
        exists w'. rewrite Hrun. cbn [fetches clockReads length app] in *.
        repeat split; [lia | exact Hclock].
    + cbn [ret]. match goal with |- context [probeLoop E rest baseUrl headers ?e (s, ?w1)] =>
        destruct (IH e w1) as (w' & Hrun & Hfetches & Hclock) end.
      exists w'. rewrite Hrun. cbn [fetches clockReads length app] in *.
      repeat split; [lia | exact Hclock].
Qed.

Lemma discoverSchemaByProbing_run (connection : FrontendConnection.t) (s : Fields)
    (w : World) :
  match FrontendConnection.api_endpoint connection with
  | None =>
      discoverSchemaByProbing E connection (s, w)
      = (Throw "Cannot read properties of undefined (reading 'replace')", (s, w))
  | Some _ =>
      exists w',
        discoverSchemaByProbing E connection (s, w)
        = (Ok {| FrontendSchema.name := show (FrontendConnection.name connection);
                 FrontendSchema.version := "1.0.0";
                 FrontendSchema.endpoints :=
                   flat_map probed (answered E (fetches w) commonEndpoints);
                 FrontendSchema.content_types :=
                   extractContentTypes
                     (flat_map probed (answered E (fetches w) commonEndpoints)) |},
           (s, w'))
        /\ fetches w' = (fetches w + 5)%nat
        /\ clockReads w' = clockReads w
  end.
Proof.
  unfold discoverSchemaByProbing, createAuthHeaders, Publishing.baseUrl.
  unfold bind at 1, ret at 1. cbn [fst snd].
  destruct (FrontendConnection.api_endpoint connection) as [url |]; [| reflexivity].
  unfold bind at 1, ret at 1. cbn [fst snd]. unfold bind at 1.
  match goal with |- context [probeLoop E ?p ?b ?h ?e (s, w)] =>
    destruct (probeLoop_run p b h e s w) as (w' & Hrun & Hfetches & Hclock) end.
  rewrite Hrun. exists w'. split; [reflexivity |]. split; assumption.
Qed.

Lemma answered_In (n : nat) (paths : list string) (path : string) :
  In path (answered E n paths) -> In path paths.
Proof.
  revert n. induction paths as [| p rest IH]; intros n; cbn; [tauto |].
  destruct (failed (network E n)); cbn; [right | intros [? | ?]; [left | right]]; eauto.
Qed.


Lemma probed_paths (paths : list string) :
  Forall (fun e => In (ApiEndpoint.path e) paths) (flat_map probed paths).
Proof.
  apply List.Forall_forall. intros e He. apply in_flat_map in He as (path & Hpath & He).
  destruct He as [<- | [<- | []]]; exact Hpath.
Qed.

Lemma answered_paths (n : nat) :
  Forall (fun e => In (ApiEndpoint.path e) commonEndpoints)
         (flat_map probed (answered E n commonEndpoints)).
Proof.
  eapply Forall_impl; [apply probed_paths |]. intros e He. cbn beta in He.
  eapply answered_In, He.
Qed.

(** The outcome of [discoverAPISchema]. *)
Lemma discoverAPISchema_run (connection : FrontendConnection.t) (s : Fields) (w : World) :
  exists schema new w',
    discoverAPISchema E parseOpenAPISchema jsonParse jsonStringify connection (s, w)
    = (Ok schema,
       ({| connections := connections s; schemas := schemas s;
           errors := errors s ++ new |}, w'))
    /\ (new = []
        \/ exists e, new = [e]
                     /\ SystemError.severity e = Severity.medium
                     /\ SystemError.component e = "FrontendConnectionService"
                     /\ schema = createDefaultSchema (FrontendConnection.name connection))
    /\ (fetches w <= fetches w' <= fetches w + 5)%nat
    /\ (undeclared connection ->
        Forall (fun e => In (ApiEndpoint.path e) commonEndpoints)
               (FrontendSchema.endpoints schema)).
Proof.
  assert (forall message w1,
            (fetches w <= fetches w1 <= fetches w + 5)%nat ->
            exists schema new w',
              (pushError E ("Schema discovery failed for "
                            +:+ show (FrontendConnection.name connection)
                            +:+ ": " +:+ message) Severity.medium ;;;
               ret (createDefaultSchema (FrontendConnection.name connection))) (s, w1)
              = (Ok schema,
                 ({| connections := connections s; schemas := schemas s;
                     errors := errors s ++ new |}, w'))
              /\ (new = []
                  \/ exists e, new = [e]
                               /\ SystemError.severity e = Severity.medium
                               /\ SystemError.component e = "FrontendConnectionService"
                               /\ schema
                                  = createDefaultSchema (FrontendConnection.name connection))
              /\ (fetches w <= fetches w' <= fetches w + 5)%nat
              /\ (undeclared connection ->
                  Forall (fun e => In (ApiEndpoint.path e) commonEndpoints)
                         (FrontendSchema.endpoints schema))) as Hcatch.
  { intros message w1 Hfetches.
    unfold bind, pushError, bind, isoNow, bind, dateNow, getFields, setFields, ret.
    cbn [fst snd]. do 3 eexists. split; [reflexivity |].
    split; [right; eexists; repeat split |]. cbn [fetches]. split; [exact Hfetches |].
    intros _. constructor; [| constructor]. cbn [ApiEndpoint.path]. unfold commonEndpoints.
    cbn [In]. tauto. }
  assert (forall schema w1,
            (fetches w <= fetches w1 <= fetches w + 5)%nat ->
            (undeclared connection ->
             Forall (fun e => In (ApiEndpoint.path e) commonEndpoints)
                    (FrontendSchema.endpoints schema)) ->
            exists schema' new w',
              (Ok schema, (s, w1))
              = (Ok schema',
                 ({| connections := connections s; schemas := schemas s;
                     errors := errors s ++ new |}, w'))
              /\ (new = []
                  \/ exists e, new = [e]
                               /\ SystemError.severity e = Severity.medium
                               /\ SystemError.component e = "FrontendConnectionService"
                               /\ schema'
                                  = createDefaultSchema (FrontendConnection.name connection))
              /\ (fetches w <= fetches w' <= fetches w + 5)%nat
              /\ (undeclared connection ->
                  Forall (fun e => In (ApiEndpoint.path e) commonEndpoints)
                         (FrontendSchema.endpoints schema'))) as Hpass.
  { intros schema w1 Hfetches Hpaths. exists schema, [], w1. rewrite app_nil_r.
    split; [destruct s; reflexivity |]. split; [left; reflexivity |].
    split; assumption. }
  unfold discoverAPISchema, tryCatch, undeclared in *.
  destruct (FrontendConnection.api_schema connection) as [api_schema |].
  2: { cbn [throw]. apply Hcatch. lia. }
  destruct (startsWith "http" api_schema) eqn:Hhttp.
  { unfold fetchOpenAPISchema, bind at 1, fetch. cbn [fst snd].
    destruct (network E (fetches w)) as [response | message].
    - unfold bind at 1, lift.
      destruct (jsonParse (text response)) as [openApiSpec | message]; cbn [ret throw].
      + destruct (parseOpenAPISchema (jsonStringify openApiSpec)) as [schema | message];
          cbn [ret throw].
        * apply Hpass; [cbn; lia | intros [? _]; discriminate].
        * apply Hcatch. cbn. lia.
      + apply Hcatch. cbn. lia.
    - apply Hcatch. cbn. lia. }
  destruct (startsWith "{" api_schema) eqn:Hbrace.
  { unfold lift. destruct (parseOpenAPISchema api_schema) as [schema | message];
      cbn [ret throw].
    - apply Hpass; [lia | intros [_ ?]; discriminate].
    - apply Hcatch. lia. }
  pose proof (discoverSchemaByProbing_run connection s w) as Hprobe.
  destruct (FrontendConnection.api_endpoint connection) as [url |].
  - destruct Hprobe as (w' & Hrun & Hfetches & _). rewrite Hrun.
    apply Hpass; [lia |]. intros _. apply answered_paths.
  - rewrite Hprobe. apply Hcatch. lia.
Qed.

(** Paths that only the tables for "update" and "announcement" name are
    not among the probed ones. *)
Lemma no_endpoint_for_updates (schema : FrontendSchema.t) (contentType : string)
    (s : Publishing.Fields) (w : World) :
  Forall (fun e => In (ApiEndpoint.path e) commonEndpoints) (FrontendSchema.endpoints schema) ->
  In contentType ["update"; "announcement"] ->
  Publishing.findEndpointForContentType schema contentType (s, w) = (Ok None, (s, w)).
Proof.
  intros Hpaths Htype.
  assert (forall possiblePaths,
            In possiblePaths [["/updates"; "/news"; "/announcements"];
                              ["/announcements"; "/news"; "/updates"]] ->
            List.find
              (fun endpoint =>
                 existsb (fun path => includes path (ApiEndpoint.path endpoint)) possiblePaths
                 && arrIncludes (ApiEndpoint.method endpoint) ["POST"; "PUT"; "PATCH"])
              (FrontendSchema.endpoints schema) = None) as Hnone.
  { intros possiblePaths Hpossible.
    induction Hpaths as [| e rest He _ IH]; [reflexivity |].
    cbn [List.find]. rewrite IH.
    replace (existsb (fun path => includes path (ApiEndpoint.path e)) possiblePaths)
      with false; [reflexivity |].
    destruct Hpossible as [<- | [<- | []]];
      destruct He as [<- | [<- | [<- | [<- | [<- | []]]]]]; reflexivity. }
  unfold Publishing.findEndpointForContentType.
  destruct Htype as [<- | [<- | []]].
  - change (arrIncludes "update" Publishing.objectPrototypeKeys) with false. cbv iota.
    change (default ["/content"] (assocGet "update" Publishing.typeToEndpointMap))
      with ["/updates"; "/news"; "/announcements"].
    cbv zeta. rewrite Hnone by (left; reflexivity). reflexivity.
  - change (arrIncludes "announcement" Publishing.objectPrototypeKeys) with false. cbv iota.
    change (default ["/content"] (assocGet "announcement" Publishing.typeToEndpointMap))
      with ["/announcements"; "/news"; "/updates"].
    cbv zeta. rewrite Hnone by (right; left; reflexivity). reflexivity.
Qed.

(** X17: schema discovery never throws and never touches the stored
    connections and schemas. It either returns a schema without recording
    anything, or records exactly one error, of medium severity, and returns
    the default schema with the single endpoint POST /api/content. It
    issues at most five fetches. *)
Theorem discoverAPISchema_never_throws (connection : FrontendConnection.t)
    (s : Fields) (w : World) :
  exists schema s' w',
    discoverAPISchema E parseOpenAPISchema jsonParse jsonStringify connection (s, w)
    = (Ok schema, (s', w'))
    /\ connections s' = connections s
    /\ schemas s' = schemas s
    /\ (errors s' = errors s
        \/ exists e, errors s' = errors s ++ [e]
                     /\ SystemError.severity e = Severity.medium
                     /\ SystemError.component e = "FrontendConnectionService"
                     /\ schema = createDefaultSchema (FrontendConnection.name connection))
    /\ (fetches w <= fetches w' <= fetches w + 5)%nat.
Proof.
  destruct (discoverAPISchema_run connection s w)
    as (schema & new & w' & Hrun & Hnew & Hfetches & _).
  do 3 eexists. split; [exact Hrun |]. cbn [connections schemas errors].
  split; [reflexivity |]. split; [reflexivity |]. split; [| exact Hfetches].
  destruct Hnew as [-> | (e & -> & Hrest)]; [left; apply app_nil_r | right; eauto].
Qed.


(** X19: a destination whose schema was not declared (its [api_schema] is
    neither a URL nor a JSON document, so that the schema comes from probing
    or is the default one) never gets content of type "update" or
    "announcement": for any such schema, building the requests fails with
    "No suitable endpoint found for content type: <type>". *)
Theorem undeclared_schema_takes_no_updates (connection : FrontendConnection.t)
    (prepareRequestBody : ProcessedContent.t -> ApiEndpoint.t -> Result JsVal)
    (processedContent : ProcessedContent.t) (s : Fields) (w : World) :
  undeclared connection ->
  In (ProcessedContent.type processedContent) ["update"; "announcement"] ->
  exists schema s' w',
    discoverAPISchema E parseOpenAPISchema jsonParse jsonStringify connection (s, w)
    = (Ok schema, (s', w'))
    /\ forall (host : Env) (target : FrontendConnection.t) (ps : Publishing.Fields)
              (pw : World),
         Publishing.generateAPIRequests host prepareRequestBody processedContent target
           schema (ps, pw)
         = (Throw ("No suitable endpoint found for content type: "
                   +:+ ProcessedContent.type processedContent), (ps, pw)).
Proof.
  intros Hundeclared Htype.
  destruct (discoverAPISchema_run connection s w)
    as (schema & new & w' & Hrun & _ & _ & Hpaths).
  do 3 eexists. split; [exact Hrun |]. intros host target ps pw.
  unfold Publishing.generateAPIRequests, bind at 1.
  rewrite (no_endpoint_for_updates schema _ ps pw (Hpaths Hundeclared) Htype).
  reflexivity.
Qed.

End SchemaDiscovery.

(** ** The connection manager: acceptance, removal and refresh *)

Section ConnectionOutcome.
Import Connection ConnectionSpec PublishSpec.

Variable E : Env.
Variable parseOpenAPISchema : string -> Result FrontendSchema.t.
Variable jsonParse : string -> Result JsVal.
Variable jsonStringify : JsVal -> string.



Local Opaque validateConnection testConnection discoverAPISchema.


Local Transparent validateConnection testConnection discoverAPISchema.
Local Opaque manageConnection.

Lemma refreshConnection_unknown (name : string) (s : Fields) (w : World) :
  connections s !! name = None ->
  exists e w',
    refreshConnection E parseOpenAPISchema jsonParse jsonStringify name (s, w)
    = (Ok false,
       ({| connections := connections s; schemas := schemas s;
           errors := errors s ++ [e] |}, w'))
    /\ SystemError.error e = "Connection " +:+ name +:+ " not found"
    /\ SystemError.severity e = Severity.medium
    /\ trace w' = trace w
    /\ fetches w' = fetches w.
Proof.
  intros Hnone. unfold refreshConnection, bind at 1, getFields. cbn [fst snd].
  rewrite Hnone.
  unfold bind, pushError, bind, isoNow, bind, dateNow, getFields, setFields, ret.
  cbn [fst snd]. do 2 eexists. split; [reflexivity |]. repeat split.
Qed.

(** X21: [removeConnection(name)] answers whether the name was stored and
    forgets both the connection and its schema, leaving the other names and
    the error list as they were; removing again answers false. After the
    removal a refresh of that name fails without any request: it answers
    false and records one medium error "Connection <name> not found". *)
Theorem removed_connection_is_gone (name : string) (s : Fields) (w : World) :
  let removed := snd (removeConnection name s) in
  (fst (removeConnection name s) = true <-> is_Some (getConnection name s))
  /\ getConnection name removed = None
  /\ getSchema name removed = None
  /\ (forall other, other <> name ->
        getConnection other removed = getConnection other s
        /\ getSchema other removed = getSchema other s)
  /\ errors removed = errors s
  /\ fst (removeConnection name removed) = false
  /\ exists e w',
       refreshConnection E parseOpenAPISchema jsonParse jsonStringify name (removed, w)
       = (Ok false,
          ({| connections := connections removed; schemas := schemas removed;
              errors := errors s ++ [e] |}, w'))
       /\ SystemError.error e = "Connection " +:+ name +:+ " not found"
       /\ SystemError.severity e = Severity.medium
       /\ trace w' = trace w
       /\ fetches w' = fetches w.
Proof.
  cbn zeta. unfold removeConnection, getConnection, getSchema.
  cbn [fst snd connections schemas errors].
  split.
  { destruct (connections s !! name) as [c |]; split; intros H; try reflexivity;
      try discriminate; [eauto | destruct H; discriminate]. }
  split; [apply lookup_delete_eq |]. split; [apply lookup_delete_eq |].
  split; [intros other Hne; split; apply lookup_delete_ne; congruence |].
  split; [reflexivity |].
  split; [rewrite lookup_delete_eq; reflexivity |].
  destruct (refreshConnection_unknown name
              {| connections := delete name (connections s);
                 schemas := delete name (schemas s); errors := errors s |} w)
    as (e & w' & Hrun & Hrest); [apply lookup_delete_eq |].
  exists e, w'. split; [exact Hrun | exact Hrest].
Qed.

Local Transparent manageConnection.

End ConnectionOutcome.

Section DiscoveryScenarios.
Import Connection ConnectionSpec.


Lemma undeclared_schema_takes_no_updates_witness :
  undeclared (Examples.destination "site")
  /\ exists schema s' w',
       discoverAPISchema Examples.openNetwork Examples.noParser Examples.noJson
         Examples.noStringify (Examples.destination "site") (construct, initialWorld)
       = (Ok schema, (s', w'))
       /\ Publishing.generateAPIRequests Examples.openNetwork Examples.plainBody
            Examples.notice (Examples.destination "site") schema
            (Publishing.construct, initialWorld)
          = (Throw "No suitable endpoint found for content type: update",
             (Publishing.construct, initialWorld)).
Proof.
  assert (undeclared (Examples.destination "site")) as Hundeclared
    by (split; reflexivity).
  split; [exact Hundeclared |].
  destruct (undeclared_schema_takes_no_updates Examples.openNetwork Examples.noParser
              Examples.noJson Examples.noStringify (Examples.destination "site")
              Examples.plainBody Examples.notice construct initialWorld Hundeclared)
    as (schema & s' & w' & Hrun & Hnone).
  - left. reflexivity.
  - exists schema, s', w'. split; [exact Hrun |]. apply Hnone.
Defined.

End DiscoveryScenarios.

(** ** The controller: next steps and actions *)

Section NextSteps.
Import Controller.

Context {I C T : Type}.
Variable interpretationResult : StageResult I.
Variable connectionResult : StageResult C.
Variable transformationResult : StageResult T.
Variable publishingResult : StageResult (list ProcessingResult.t).

Let review : NextStep :=
  {| action := "Review and resolve errors"; trigger := "immediate" |}.
Let retry : NextStep :=
  {| action := "Retry failed publishing operations"; trigger := "5_minutes" |}.
Let healthCheck : NextStep :=
  {| action := "System health check"; trigger := "1_hour" |}.

Lemma filter_negb_length {A} (p : A -> bool) (l : list A) :
  (0 < length (List.filter (fun x => negb (p x)) l))%nat <-> Exists (fun x => p x = false) l.
Proof.
  induction l as [| x l IH]; cbn.
  - split; [lia | intros H; inversion H].
  - destruct (p x) eqn:Hx; cbn.
    + rewrite IH. split; [intros H; right; exact H |].
      intros H. inversion H; subst; [congruence | assumption].
    + split; [intros _; left; exact Hx | lia].
Qed.

(** X22: the next steps mirror the overall status. The list always ends
    with the health check and is a selection, in this order, of "review
    errors", "retry failed publishing" and the health check; the review step
    is there exactly when some stage reported an error, the retry step
    exactly when some publish result failed. The health check stands alone
    exactly when the overall status is [success], and a [failure] always
    asks for the review. *)
Theorem next_steps_follow_status :
  let steps := generateNextSteps interpretationResult connectionResult
                                 transformationResult publishingResult in
  let status := determineOverallStatus interpretationResult connectionResult
                                       transformationResult publishingResult in
  (steps = [healthCheck] <-> status = success)
  /\ last steps = Some healthCheck
  /\ sublist steps [review; retry; healthCheck]
  /\ (In review steps
      <-> (0 < length (errors interpretationResult) + length (errors connectionResult)
               + length (errors transformationResult)
               + length (errors publishingResult))%nat)
  /\ (In retry steps
      <-> Exists (fun r => ProcessingResult.success r = false) (product publishingResult))
  /\ (status = failure -> In review steps).
Proof.
  cbn zeta. unfold generateNextSteps, determineOverallStatus. cbn [fold_left Nat.add app].
  rewrite <- (filter_negb_length ProcessingResult.success).
  rewrite !length_app.
  pose proof (filter_partition_length ProcessingResult.success (product publishingResult))
    as Hsplit.
  set (n := (length (errors interpretationResult) + (length (errors connectionResult)
             + (length (errors transformationResult)
                + length (errors publishingResult))))%nat).
  replace (length (errors interpretationResult) + length (errors connectionResult)
           + length (errors transformationResult) + length (errors publishingResult))%nat
    with n by (subst n; lia).
  set (k := length (List.filter ProcessingResult.success (product publishingResult))) in *.
  set (f := length (List.filter (fun r => negb (ProcessingResult.success r))
                                (product publishingResult))) in *.
  set (m := length (product publishingResult)) in *.
  fold review retry healthCheck.
  assert (forall a b : NextStep, In a [b] <-> a = b) as Hone
    by (intros a b; cbn; intuition congruence).
  assert (review <> retry /\ review <> healthCheck /\ retry <> healthCheck)
    as (Hrr & Hrh & Hth) by (repeat split; discriminate).
  destruct (Nat.ltb_spec 0 n) as [Hn | Hn], (Nat.ltb_spec 0 f) as [Hf | Hf];
    destruct (Nat.eqb_spec n 0), (Nat.eqb_spec k m), (Nat.ltb_spec 0 k), (Nat.ltb_spec n 3);
    try lia; cbn [app andb orb last In];
    repeat match goal with
           | |- _ /\ _ => split
           | |- _ <-> _ => split
           | |- sublist _ _ =>
               repeat first [apply sublist_nil | apply sublist_skip | apply sublist_cons]
           | |- _ -> _ => intros ?
           end;
    try reflexivity; try discriminate; try lia; try congruence; try tauto;
    intuition congruence.
Qed.

End NextSteps.

Section Actions.
Import Controller.

Lemma numToString_inj (a b : Z) : numToString a = numToString b -> a = b.
Proof.
  assert (forall z, Z.to_int z <> Decimal.Pos Decimal.Nil
                    /\ Z.to_int z <> Decimal.Neg Decimal.Nil) as Hnil.
  { intros z. pose proof (DecimalZ.to_of (Z.to_int z)) as Hnorm.
    rewrite DecimalZ.of_to in Hnorm.
    split; intros Heq; rewrite Heq in Hnorm; discriminate. }
  unfold numToString. intros Heq.
  apply DecimalZ.to_int_inj.
  destruct (Hnil a) as [Ha1 Ha2], (Hnil b) as [Hb1 Hb2].
  pose proof (NilZero.isi _ Ha1 Ha2) as Hra. pose proof (NilZero.isi _ Hb1 Hb2) as Hrb.
  rewrite Heq in Hra. congruence.
Qed.

Lemma actionName_inj (a b : Z) : actionName a = actionName b -> a = b.
Proof.
  unfold actionName. intros H. cbn [String.append] in H. injection H as H.
  exact (numToString_inj a b H).
Qed.

Lemma pushEach_imap {A} (mk : Z -> A -> FrameworkAction.t) (actionId : Z) (l : list A) :
  pushEach mk actionId l
  = (imap (fun k x => mk (actionId + Z.of_nat k) x) l, actionId + Z.of_nat (length l)).
Proof.
  revert actionId. induction l as [| x l IH]; intros actionId.
  - cbn. rewrite Z.add_0_r. reflexivity.
  - cbn [pushEach imap length]. rewrite IH. rewrite Z.add_0_r. f_equal.
    + f_equal. apply imap_ext. intros k y _. cbn. f_equal. lia.
    + lia.
Qed.

(** X23: the actions are numbered consecutively from "action_1" in the
    order connect, transform, publish: there is one action per active
    connection, per transformed content and per publish result, the k-th
    action (from 0) has the id "action_<k+1>", and no two actions share an
    id. A connect action depends on nothing; every other action depends on
    exactly the id numbered one below its own, which is the action before
    it, except for a first action that is not a connect action: it depends
    on "action_0", which no action has. *)
Theorem action_ids_are_consecutive (activeConnections : list FrontendConnection.t)
    (transformedContents : list (string * list (string * JsVal)))
    (results : list ProcessingResult.t) :
  let actions := generateActions activeConnections transformedContents results in
  let c := length activeConnections in
  length actions = (c + length transformedContents + length results)%nat
  /\ (forall k a,
        actions !! k = Some a ->
        FrameworkAction.id a = actionName (Z.of_nat k + 1)
        /\ FrameworkAction.dependencies a
           = (if (k <? c)%nat then [] else [actionName (Z.of_nat k)])
        /\ (FrameworkAction.type a = ActionType.connect <-> (k < c)%nat))
  /\ NoDup (map FrameworkAction.id actions)
  /\ ~ In (actionName 0) (map FrameworkAction.id actions).
Proof.
  cbn zeta. unfold generateActions. rewrite !pushEach_imap.
  set (t := length transformedContents). set (c := length activeConnections).
  set (connects := imap _ activeConnections).
  set (transforms := imap _ transformedContents).
  set (publishes := imap _ (imap _ results)).
  assert (length connects = c /\ length transforms = t /\ length publishes = length results)
    as (Hc & Ht & Hr) by (subst connects transforms publishes; rewrite !length_imap; auto).
  assert (forall k a,
            (connects ++ transforms ++ publishes) !! k = Some a ->
            FrameworkAction.id a = actionName (Z.of_nat k + 1)
            /\ FrameworkAction.dependencies a
               = (if (k <? c)%nat then [] else [actionName (Z.of_nat k)])
            /\ (FrameworkAction.type a = ActionType.connect <-> (k < c)%nat)) as Heach.
  { intros k a Hk. apply lookup_app_Some in Hk as [Hk | [Hge Hk]].
    - pose proof (lookup_lt_Some _ _ _ Hk) as Hlt. rewrite Hc in Hlt.
      subst connects. rewrite list_lookup_imap in Hk.
      destruct (activeConnections !! k) as [x |]; [| discriminate].
      apply (inj Some) in Hk. subst a. cbn [connectAction FrameworkAction.id
        FrameworkAction.dependencies FrameworkAction.type].
      destruct (Nat.ltb_spec k c); [| lia].
      split; [f_equal; lia |]. split; [reflexivity | tauto].
    - rewrite Hc in Hge, Hk. destruct (Nat.ltb_spec k c); [lia |].
      apply lookup_app_Some in Hk as [Hk | [Hge2 Hk]].
      + subst transforms. rewrite list_lookup_imap in Hk.
        destruct (transformedContents !! (k - c)%nat) as [[frontend content] |];
          [| discriminate].
        apply (inj Some) in Hk. subst a. cbn [transformAction FrameworkAction.id
          FrameworkAction.dependencies FrameworkAction.type].
        split; [f_equal; lia |]. split; [do 2 f_equal; lia |].
        split; [discriminate | lia].
      + rewrite Ht in Hge2, Hk. subst publishes. rewrite !list_lookup_imap in Hk.
        destruct (results !! (k - c - t)%nat) as [result |]; [| discriminate].
        apply (inj Some) in Hk. subst a. cbn [publishAction FrameworkAction.id
          FrameworkAction.dependencies FrameworkAction.type].
        split; [f_equal; lia |]. split; [do 2 f_equal; lia |].
        split; [destruct (ProcessingResult.success result); discriminate | lia]. }
  assert (map FrameworkAction.id (connects ++ transforms ++ publishes)
          = map (fun k => actionName (Z.of_nat k + 1))
                (seq 0 (length (connects ++ transforms ++ publishes)))) as Hids.
  { apply list_eq. intros k. rewrite !list_lookup_fmap.
    destruct ((connects ++ transforms ++ publishes) !! k) as [a |] eqn:Hk.
    - destruct (Heach k a Hk) as (Hid & _).
      rewrite lookup_seq_lt by (eapply lookup_lt_Some; exact Hk).
      cbn. rewrite Hid. reflexivity.
    - rewrite lookup_seq_ge by (apply lookup_ge_None; exact Hk). reflexivity. }
  split; [rewrite !length_app; lia |]. split; [exact Heach |].
  rewrite Hids. split.
  - apply NoDup_fmap_2; [| apply NoDup_seq].
    intros i j Hij. apply actionName_inj in Hij. lia.
  - intros Hin. apply in_map_iff in Hin as (k & Hk & _). apply actionName_inj in Hk. lia.
Qed.

End Actions.

(** ** The error coordinator: the built-in strategies and the pause *)

Section BuiltinStrategies.
Import ErrorHandling ErrorSpec.

(** X25: the constructor registers a strategy for exactly four components.
    Each of them never throws and touches neither the network nor the trace
    of effects; it looks for its two or three keywords in the error message
    and yields, in keyword order, one action per keyword found, aimed at its
    own component and carrying the context: so it yields nothing exactly
    when the message has none of its keywords. *)
Theorem builtin_strategies_answer_by_keyword :
  (forall component,
     is_Some (initialRecoveryStrategies !! component)
     <-> In component (map fst builtinKeywords))
  /\ Forall
       (fun entry : string * list (string * string) =>
          exists strategy,
            initialRecoveryStrategies !! fst entry = Some strategy
            /\ forall (E : Env) (e : SystemError.t) (context : JsVal) (w : World),
                 exists actions w',
                   recover strategy E e context (tt, w) = (Ok actions, (tt, w'))
                   /\ map (fun a => assocGet "action" (FrameworkAction.parameters a)) actions
                      = map (fun keyword => Some (JStr (snd keyword)))
                            (List.filter (fun keyword =>
                                            includes (fst keyword) (SystemError.error e))
                                         (snd entry))
                   /\ Forall (fun a => FrameworkAction.target a = fst entry
                                       /\ assocGet "context" (FrameworkAction.parameters a)
                                          = Some context) actions
                   /\ trace w' = trace w
                   /\ fetches w' = fetches w)
       builtinKeywords.
Proof.
  split.
  - intros component. unfold initialRecoveryStrategies. cbn [map fst builtinKeywords In].
    split.
    + intros [strategy H].
      repeat (apply lookup_insert_Some in H as [[<- _] | [_ H]]; [tauto |]).
      rewrite lookup_empty in H. discriminate.
    + intros [<- | [<- | [<- | [<- | []]]]]; eexists; reflexivity.
  - constructor; [| constructor; [| constructor; [| constructor; [| constructor]]]];
      cbn [fst snd].
    all: eexists; (split; [reflexivity |]); intros E e context w;
      cbn [recover emailInterpretationRecovery frontendConnectionRecovery
           contentTransformationRecovery publishingExecutionRecovery];
      unfold pushIfIncludes, bind, dateNow, ret; cbn [List.filter fst snd];
      repeat match goal with
             | |- context [includes ?k (SystemError.error e)] =>
                 destruct (includes k (SystemError.error e))
             end;
      cbn [fst snd app]; do 2 eexists; (split; [reflexivity |]);
      cbn [map mkAction FrameworkAction.parameters FrameworkAction.target assocGet
           String.eqb Ascii.eqb Bool.eqb trace fetches];
      (split; [reflexivity |]);
      (split; [repeat (constructor; [split; reflexivity |]); constructor
              | split; reflexivity]).
Qed.

End BuiltinStrategies.

Section PausePersists.
Import ErrorHandling ErrorSpec.

Local Opaque logError handleThresholdExceeded.



Local Transparent logError handleThresholdExceeded.

End PausePersists.
